(** * cloudflare-ddns-cron: a shallow embedding of the updater

    The repository ships one Go program in two historical variants that share
    [loadConfig] and [discoverIP] verbatim:

    - the raw variant (module [Raw]) talks to the Cloudflare REST API through
      [net/http] and [encoding/json];
    - the SDK variant (module [Sdk], [cmd/updater/main.go]) hands the fetch and
      the update to the [cloudflare-go] client.

    Go strings are byte sequences, so they are modelled by [string] (a list of
    8-bit [ascii]).  The functions of Go's standard library that the program
    calls are modelled at byte level in the modules [GoStrings], [GoStrconv]
    and [GoNet]; what depends on Unicode tables, on [net/url] and on
    [encoding/json] is a field of the class [Library].  The network is an
    oracle ([World]) that answers a request in view of everything that
    happened before; every call that leaves the program and every log line is
    appended to a trace. *)

From Stdlib Require Import ZArith Lia Ascii String DecimalString.
From stdpp Require Import base strings list gmap.

Local Open Scope string_scope.
Local Open Scope list_scope.
Local Open Scope Z_scope.

(** ** Bytes *)

Definition code (c : ascii) : Z := Z.of_N (N_of_ascii c).

Definition isDigit (c : ascii) : bool := (48 <=? code c) && (code c <=? 57).

Definition bytes (s : string) : list ascii := list_ascii_of_string s.

Definition unbytes (l : list ascii) : string := string_of_list_ascii l.

(** ** Package [strings] *)

Module GoStrings.

(** [asciiSpace]: the six ASCII white-space bytes. *)
Definition asciiSpace (c : ascii) : bool :=
  let n := code c in
  (n =? 9) || (n =? 10) || (n =? 11) || (n =? 12) || (n =? 13) || (n =? 32).

(** Width in bytes of the white-space rune that [l] starts with, [O] when it
    starts with none.  [unicode.IsSpace] holds of the six ASCII bytes and of
    U+0085, U+00A0, U+1680, U+2000..U+200A, U+2028, U+2029, U+202F, U+205F and
    U+3000; a rune is recognised by its (unique) UTF-8 encoding. *)
Definition spaceWidth (l : list ascii) : nat :=
  match l with
  | c0 :: rest =>
      if asciiSpace c0 then 1%nat
      else
        match List.map code rest with
        | b1 :: rest' =>
            if (code c0 =? 194) && ((b1 =? 133) || (b1 =? 160)) then 2%nat
            else
              match rest' with
              | b2 :: _ =>
                  if (code c0 =? 225) && (b1 =? 154) && (b2 =? 128) then 3%nat
                  else if (code c0 =? 226) && (b1 =? 128)
                          && (((128 <=? b2) && (b2 <=? 138)) || (b2 =? 168) || (b2 =? 169) || (b2 =? 175))
                  then 3%nat
                  else if (code c0 =? 226) && (b1 =? 129) && (b2 =? 159) then 3%nat
                  else if (code c0 =? 227) && (b1 =? 128) && (b2 =? 128) then 3%nat
                  else 0%nat
              | [] => 0%nat
              end
        | [] => 0%nat
        end
  | [] => 0%nat
  end.

(** The same, for the rune that the reversed list [r] ends with. *)
Definition spaceWidthLast (r : list ascii) : nat :=
  match r with
  | c0 :: c1 :: c2 :: _ =>
      if asciiSpace c0 then 1%nat
      else if Nat.eqb (spaceWidth [c2; c1; c0]) 3 then 3%nat
      else if Nat.eqb (spaceWidth [c1; c0]) 2 then 2%nat else 0%nat
  | [c0; c1] =>
      if asciiSpace c0 then 1%nat
      else if Nat.eqb (spaceWidth [c1; c0]) 2 then 2%nat else 0%nat
  | [c0] => if asciiSpace c0 then 1%nat else 0%nat
  | [] => 0%nat
  end.

Fixpoint trimWith (width : list ascii -> nat) (fuel : nat) (l : list ascii) : list ascii :=
  match fuel with
  | O => l
  | S fuel' =>
      match width l with
      | O => l
      | w => trimWith width fuel' (drop w l)
      end
  end.

Definition trimLeft (l : list ascii) : list ascii := trimWith spaceWidth (length l) l.

Definition trimRight (l : list ascii) : list ascii :=
  rev (trimWith spaceWidthLast (length l) (rev l)).

(** [strings.TrimSpace]: all leading and trailing white space removed, as
    defined by Unicode. *)
Definition TrimSpace (s : string) : string := unbytes (trimRight (trimLeft (bytes s))).

Definition isASCII (s : string) : bool := forallb (fun c => code c <? 128) (bytes s).

Definition lowerByte (c : ascii) : ascii :=
  if (65 <=? code c) && (code c <=? 90) then ascii_of_N (Z.to_N (code c + 32)) else c.

Definition upperByte (c : ascii) : ascii :=
  if (97 <=? code c) && (code c <=? 122) then ascii_of_N (Z.to_N (code c - 32)) else c.

(** [strings.ToLower] and [strings.ToUpper] map an ASCII-only string byte by
    byte; any other string goes through the Unicode case tables, here the
    argument [unicode] (that is [strings.Map(unicode.ToLower, s)]). *)
Definition ToLower (unicode : string -> string) (s : string) : string :=
  if isASCII s then unbytes (List.map lowerByte (bytes s)) else unicode s.

Definition ToUpper (unicode : string -> string) (s : string) : string :=
  if isASCII s then unbytes (List.map upperByte (bytes s)) else unicode s.

(** [strings.Split(s, sep)] for a one-byte separator: the substrings between
    the separators, one more than there are separators. *)
Fixpoint splitOn (sep : ascii) (cur : list ascii) (l : list ascii) : list string :=
  match l with
  | [] => [unbytes (rev cur)]
  | c :: l' =>
      if Ascii.eqb c sep then unbytes (rev cur) :: splitOn sep [] l'
      else splitOn sep (c :: cur) l'
  end.

Definition Split (s : string) (sep : ascii) : list string := splitOn sep [] (bytes s).

End GoStrings.

(** ** Package [strconv] *)

Module GoStrconv.

(** Bits of Go's [int] on the 64-bit platforms the binary is built for. *)
Definition intSize : Z := 64.

Fixpoint digitsValue (l : list ascii) (acc : Z) : option Z :=
  match l with
  | [] => Some acc
  | c :: l' => if isDigit c then digitsValue l' (acc * 10 + (code c - 48)) else None
  end.

(** [strconv.Atoi]: an optional sign, then one or more decimal digits, with a
    value that fits [int]; anything else is an error. *)
Definition Atoi (s : string) : option Z :=
  let '(neg, ds) :=
    match bytes s with
    | c :: l' => if Ascii.eqb c "-" then (true, l') else if Ascii.eqb c "+" then (false, l') else (false, c :: l')
    | [] => (false, [])
    end in
  match ds with
  | [] => None
  | _ =>
      match digitsValue ds 0 with
      | None => None
      | Some u =>
          let n := if neg then - u else u in
          if (- 2 ^ (intSize - 1) <=? n) && (n <? 2 ^ (intSize - 1)) then Some n else None
      end
  end.

(** Decimal text of a non-negative number, without leading zeros. *)
Definition Itoa (n : Z) : string := NilZero.string_of_uint (N.to_uint (Z.to_N n)).

End GoStrconv.

(** ** Package [net] *)

Module GoNet.

(** [net.IP]: a slice of bytes, 4 or 16 of them. *)
Definition IP : Type := list Z.

(** [netip.parseIPv4], the loop over the bytes of the text.  [prev] is the
    byte before the current one ([None] at index 0), [fields] the octets
    stored so far ([pos] is their number), [val] and [digLen] the value and
    the number of digits of the octet being read. *)
Fixpoint parseIPv4Loop (l : list ascii) (prev : option ascii)
    (fields : list Z) (val : Z) (digLen : Z) : option (list Z) :=
  match l with
  | [] => if (length fields <? 3)%nat then None else Some (fields ++ [val])
  | c :: l' =>
      if isDigit c then
        if (digLen =? 1) && (val =? 0) then None
        else
          let val' := val * 10 + (code c - 48) in
          if 255 <? val' then None
          else parseIPv4Loop l' (Some c) fields val' (digLen + 1)
      else if Ascii.eqb c "." then
        match prev, l' with
        | None, _ => None
        | _, [] => None
        | Some p, _ =>
            if Ascii.eqb p "." then None
            else if (length fields =? 3)%nat then None
            else parseIPv4Loop l' (Some c) (fields ++ [val]) 0 0
        end
      else None
  end.

Definition parseIPv4 (l : list ascii) : option (list Z) := parseIPv4Loop l None [] 0 0.

Definition hexValue (c : ascii) : option Z :=
  let n := code c in
  if (48 <=? n) && (n <=? 57) then Some (n - 48)
  else if (97 <=? n) && (n <=? 102) then Some (n - 97 + 10)
  else if (65 <=? n) && (n <=? 70) then Some (n - 65 + 10)
  else None.

(** The hexadecimal field that [l] starts with, as the inner loop of
    [netip.parseIPv6] reads it, [off] being the index of the next byte:
    [None] when the field has more than four digits ([off > 3]) or its
    value exceeds 16 bits, else the value, the number of digits and what
    follows. *)
Fixpoint hexField (l : list ascii) (acc : Z) (off : nat) : option (Z * nat * list ascii) :=
  match l with
  | [] => Some (acc, off, [])
  | c :: l' =>
      match hexValue c with
      | Some d =>
          let acc' := Z.shiftl acc 4 + d in
          if (3 <? off)%nat then None
          else if 65535 <? acc' then None
          else hexField l' acc' (S off)
      | None => Some (acc, off, l)
      end
  end.

(** After the loop of [netip.parseIPv6]: all of the text must be used, and
    an address that is too short has its [::] expanded to zero bytes. *)
Definition finishIPv6 (s : list ascii) (ip : list Z) (i : nat) (ellipsis : option nat) : option (list Z) :=
  match s with
  | _ :: _ => None
  | [] =>
      if (i <? 16)%nat then
        match ellipsis with
        | None => None
        | Some e => Some (take e ip ++ replicate (16 - i) 0 ++ take (i - e) (drop e ip))
        end
      else
        match ellipsis with
        | Some _ => None
        | None => Some (take 16 ip)
        end
  end.

(** The loop of [netip.parseIPv6]: a hexadecimal field, then a colon and
    more, or an embedded dotted IPv4 address at the end.  Every round stores
    two bytes, so eight rounds reach [i = 16]. *)
Fixpoint parseIPv6Loop (fuel : nat) (s : list ascii) (ip : list Z) (i : nat)
    (ellipsis : option nat) : option (list Z) :=
  if (16 <=? i)%nat then finishIPv6 s ip i ellipsis
  else
    match fuel with
    | O => None
    | S fuel' =>
        match hexField s 0 0 with
        | None => None
        | Some (_, O, _) => None
        | Some (acc, _, rest) =>
            match rest with
            | c :: _ =>
                if Ascii.eqb c "." then
                  if (match ellipsis with None => true | Some _ => false end) && negb (i =? 12)%nat then None
                  else if (16 <? i + 4)%nat then None
                  else
                    match parseIPv4 s with
                    | None => None
                    | Some ip4 => finishIPv6 [] (take i ip ++ ip4 ++ drop (i + 4) ip) (i + 4) ellipsis
                    end
                else
                  let ip' := <[S i := Z.land acc 255]> (<[i := Z.shiftr acc 8]> ip) in
                  let i' := (i + 2)%nat in
                  if negb (Ascii.eqb c ":") then None
                  else
                    match rest with
                    | [_] => None
                    | _ :: c1 :: s1 =>
                        if Ascii.eqb c1 ":" then
                          match ellipsis with
                          | Some _ => None
                          | None =>
                              match s1 with
                              | [] => finishIPv6 [] ip' i' (Some i')
                              | _ => parseIPv6Loop fuel' s1 ip' i' (Some i')
                              end
                          end
                        else parseIPv6Loop fuel' (c1 :: s1) ip' i' ellipsis
                    | [] => None
                    end
            | [] =>
                finishIPv6 [] (<[S i := Z.land acc 255]> (<[i := Z.shiftr acc 8]> ip)) (i + 2) ellipsis
            end
        end
    end.

Fixpoint cutAt (sep : ascii) (l : list ascii) : list ascii * option (list ascii) :=
  match l with
  | [] => ([], None)
  | c :: l' =>
      if Ascii.eqb c sep then ([], Some l')
      else let '(a, b) := cutAt sep l' in (c :: a, b)
  end.

(** [netip.parseIPv6]: the sixteen bytes and the zone. *)
Definition parseIPv6 (l : list ascii) : option (list Z * list ascii) :=
  let '(s, z) := cutAt "%" l in
  match z with
  | Some [] => None
  | _ =>
      let zone := default [] z in
      let zero := replicate 16 0 in
      match s with
      | c0 :: c1 :: s' =>
          if Ascii.eqb c0 ":" && Ascii.eqb c1 ":" then
            match s' with
            | [] => Some (zero, zone)
            | _ => (fun ip => (ip, zone)) <$> parseIPv6Loop 8 s' zero 0 (Some 0%nat)
            end
          else (fun ip => (ip, zone)) <$> parseIPv6Loop 8 s zero 0 None
      | _ => (fun ip => (ip, zone)) <$> parseIPv6Loop 8 s zero 0 None
      end
  end.

(** The 16-byte form of an IPv4 address ([netip.Addr.As16]). *)
Definition v4InV6 (ip4 : list Z) : list Z := replicate 10 0 ++ [255; 255] ++ ip4.

(** [netip.ParseAddr], as [net.parseIP] uses it: the first of [.], [:] and
    [%] in the text decides how it is read; an address with a zone is
    refused.  The result is the 16-byte form. *)
Fixpoint parseAddr (whole : list ascii) (l : list ascii) : option (list Z) :=
  match l with
  | [] => None
  | c :: l' =>
      if Ascii.eqb c "." then v4InV6 <$> parseIPv4 whole
      else if Ascii.eqb c ":" then
        match parseIPv6 whole with
        | Some (ip, []) => Some ip
        | _ => None
        end
      else if Ascii.eqb c "%" then None
      else parseAddr whole l'
  end.

(** [net.ParseIP]: [None] is Go's [nil]. *)
Definition ParseIP (s : string) : option IP := parseAddr (bytes s) (bytes s).

Definition isZeros (p : list Z) : bool := forallb (Z.eqb 0) p.

(** [IP.To4]: the four-byte form of an IPv4 address, also when it is held
    in the 16-byte IPv4-in-IPv6 form; [None] for any other address. *)
Definition To4 (ip : IP) : option IP :=
  if (length ip =? 4)%nat then Some ip
  else if (length ip =? 16)%nat && isZeros (take 10 ip)
          && (ip !!! 10%nat =? 255) && (ip !!! 11%nat =? 255)
       then Some (drop 12 ip)
       else None.

(** [IP.String] of a four-byte address: dotted decimal. *)
Definition dotted (a b c d : Z) : string :=
  GoStrconv.Itoa a +:+ "." +:+ GoStrconv.Itoa b +:+ "." +:+ GoStrconv.Itoa c +:+ "." +:+ GoStrconv.Itoa d.

Definition String4 (ip : IP) : string :=
  match ip with
  | [a; b; c; d] => dotted a b c d
  | _ => "?"
  end.

End GoNet.

(** ** Data model *)

(** [Config]: the runtime configuration. *)
Module Config.
Record Config := mk {
  AuthEmail : string;
  AuthMethod : string;
  AuthKey : string;
  ZoneID : string;
  RecordName : string;
  RecordType : string;
  TTL : Z;
  Proxied : bool;
  IPServices : list string
}.
End Config.
Abbreviation Config := Config.Config.

(** [apiError]: one entry of the provider's error list. *)
Record apiError := { Code : Z; Message : string }.

(** [DNSRecord]: a record as the raw variant decodes it. *)
Module DNSRecord.
Record DNSRecord := mk {
  ID : string;
  Type_ : string;
  Name : string;
  Content : string;
  TTL : Z;
  Proxied : bool
}.
End DNSRecord.
Abbreviation DNSRecord := DNSRecord.DNSRecord.

Record listResponse := {
  listSuccess : bool;
  listErrors : list apiError;
  listResult : list DNSRecord
}.

Record updateResponse := {
  updateSuccess : bool;
  updateErrors : list apiError
}.

(** Arguments of a format string. *)
Inductive arg :=
| AStr (s : string)
| AErrors (l : list apiError).

(** Go's [error] values: [errors.New text], [fmt.Errorf format args] (the
    format is kept with its arguments, not rendered), and the errors that a
    library hands back, known by their text only. *)
Inductive error :=
| ErrorsNew (text : string)
| Errorf (format : string) (args : list arg)
| Foreign (text : string).

Inductive result (A : Type) :=
| Ok (a : A)
| Err (e : error).
Arguments Ok {A} a.
Arguments Err {A} e.

(** Values printed by [log.Printf] and [log.Fatalf]. *)
Inductive value :=
| VStr (s : string)
| VErr (e : error).

(** The JSON values the program puts in a request body ([map[string]any]). *)
Inductive any :=
| AnyString (s : string)
| AnyInt (n : Z)
| AnyBool (b : bool).

(** ** [net/http] *)

(** An [http.Request].  [Header.Set] replaces, so one value per key.  A body
    is the document [json.Marshal] makes of the map (it cannot fail on
    strings, integers and booleans). *)
Record Request := {
  Method : string;
  URL : string;
  Header : gmap string string;
  Body : option (gmap string any)
}.

(** A response body is a stream: all of [data], or [data] and then a read
    error. *)
Inductive stream :=
| Complete (data : string)
| Broken (data : string) (e : error).

Record Response := {
  StatusCode : Z;
  Status : string;
  RespBody : stream
}.

Inductive reply :=
| NetError (e : error)
| Resp (r : Response).

Definition MethodGet : string := "GET".
Definition MethodPatch : string := "PATCH".
Definition StatusOK : Z := 200.

(** [io.ReadAll]. *)
Definition ReadAll (b : stream) : result string :=
  match b with
  | Complete data => Ok data
  | Broken _ e => Err e
  end.

(** ** The [cloudflare-go] SDK, as the SDK variant sees it *)

(** [os.LookupEnv]: the value of a variable that is set, be it to the empty
    text, and [None] for one that is not. *)
Definition LookupEnv (env : gmap string string) (key : string) : option string := env !! key.

Module cloudflare.

Inductive RequestOption :=
| WithEnvironmentProduction
| WithHTTPClient
| WithAPIToken (token : string)
| WithAPIKey (key : string)
| WithAPIEmail (email : string)
| WithUserServiceKey (key : string).

(** A [*cloudflare.Client] is its options, in the order in which they are
    applied to every request. *)
Definition Client : Type := list RequestOption.

(** [cloudflare.NewClient] (cloudflare-go v2.4.0): the default options come
    first, the production environment and a credential for each of four
    variables that the process environment sets; the options passed come
    after them. *)
Definition NewClient (env : gmap string string) (opts : list RequestOption) : Client :=
  let defaults := [WithEnvironmentProduction] in
  let defaults :=
    match LookupEnv env "CLOUDFLARE_API_TOKEN" with
    | Some o => defaults ++ [WithAPIToken o]
    | None => defaults
    end in
  let defaults :=
    match LookupEnv env "CLOUDFLARE_API_KEY" with
    | Some o => defaults ++ [WithAPIKey o]
    | None => defaults
    end in
  let defaults :=
    match LookupEnv env "CLOUDFLARE_EMAIL" with
    | Some o => defaults ++ [WithAPIEmail o]
    | None => defaults
    end in
  let defaults :=
    match LookupEnv env "CLOUDFLARE_API_USER_SERVICE_KEY" with
    | Some o => defaults ++ [WithUserServiceKey o]
    | None => defaults
    end in
  defaults ++ opts.

(** What an option does to the headers of a request ([option.WithHeader]
    sets, so a later option replaces the value of an earlier one). *)
Definition applyOption (h : gmap string string) (o : RequestOption) : gmap string string :=
  match o with
  | WithAPIToken token => <["Authorization" := "Bearer " +:+ token]> h
  | WithAPIKey key => <["X-Auth-Key" := key]> h
  | WithAPIEmail email => <["X-Auth-Email" := email]> h
  | WithUserServiceKey key => <["X-Auth-User-Service-Key" := key]> h
  | WithEnvironmentProduction | WithHTTPClient => h
  end.

(** The credential headers of the requests that a client sends. *)
Definition authHeaders (client : Client) : gmap string string := foldl applyOption ∅ client.

Record RecordListParams := {
  ListZoneID : string;
  ListName : string;
  ListType : string
}.

(** [float64(n)] for a Go [int]: [n] itself up to 53 bits, else [n] rounded
    to 53 significant bits, ties to even. *)
Definition float64 (n : Z) : Z :=
  let a := Z.abs n in
  let e := Z.log2 a - 52 in
  if e <=? 0 then n
  else
    let q := Z.shiftr a e in
    let r := a - Z.shiftl q e in
    let half := Z.shiftl 1 (e - 1) in
    let q' := if (half <? r) || ((r =? half) && Z.odd q) then q + 1 else q in
    Z.sgn n * Z.shiftl q' e.

(** [dns.ARecordParam]; its TTL is a [float64], held here by its value. *)
Record ARecordParam := {
  ParamName : string;
  ParamContent : string;
  ParamType : string;
  ParamTTL : Z;
  ParamProxied : bool
}.

Definition ARecordTypeA : string := "A".

Record RecordUpdateParams := {
  UpdateZoneID : string;
  UpdateRecord : ARecordParam
}.

(** [dns.Record]: [AsUnion] gives the variant that the record decoded to. *)
Record ARecord := { ARecordContent : string }.

Inductive RecordUnion :=
| UnionARecord (a : ARecord)
| UnionOther.

Record Record_ := {
  RecID : string;
  RecType : string;
  RecName : string;
  AsUnion : RecordUnion
}.

End cloudflare.

(** ** Effects *)

(** What the program does to the outside, in order. *)
Inductive event :=
| EvDo (req : Request)
| EvList (client : cloudflare.Client) (params : cloudflare.RecordListParams)
| EvUpdate (client : cloudflare.Client) (recordID : string) (params : cloudflare.RecordUpdateParams)
| EvLog (format : string) (args : list value).

Definition trace : Type := list event.

(** The outside: what [http.Client.Do] and the SDK's two calls answer, given
    all that happened before. *)
Record World := {
  roundTrip : trace -> Request -> reply;
  recordsList : trace -> cloudflare.Client -> cloudflare.RecordListParams -> result (list cloudflare.Record_);
  recordsUpdate : trace -> cloudflare.Client -> string -> cloudflare.RecordUpdateParams -> option error
}.

(** The library functions that are not modelled byte by byte: the Unicode
    case mappings behind [strings.ToLower] and [strings.ToUpper], the URL
    check of [http.NewRequest] ([None]: accepted), and the JSON decoders of
    the two response shapes. *)
Class Library := {
  unicodeToLower : string -> string;
  unicodeToUpper : string -> string;
  urlParse : string -> option error;
  decodeList : stream -> result listResponse;
  decodeUpdate : stream -> result updateResponse
}.

(** A computation: from the trace so far to a result and the trace after. *)
Definition M (A : Type) : Type := trace -> A * trace.

Definition ret {A} (a : A) : M A := fun t => (a, t).

Definition bind {A B} (m : M A) (k : A -> M B) : M B :=
  fun t => let '(a, t') := m t in k a t'.

(** Go's [if err != nil { return ..., err }]. *)
Definition bindR {A B} (m : M (result A)) (k : A -> M (result B)) : M (result B) :=
  bind m (fun r => match r with Ok a => k a | Err e => ret (Err e) end).

Notation "x <- m ;; k" := (bind m (fun x => k))
  (at level 100, m at next level, right associativity).
Notation "m ;;; k" := (bind m (fun _ => k))
  (at level 100, right associativity).
Notation "x <-? m ;; k" := (bindR m (fun x => k))
  (at level 100, m at next level, right associativity).

Definition emit (e : event) : M unit := fun t => (tt, t ++ [e]).

(** [log.Printf]. *)
Definition Printf (format : string) (args : list value) : M unit := emit (EvLog format args).

(** [http.NewRequest]: fails when the URL does not parse. *)
Definition NewRequest `{Library} (method url : string) (body : option (gmap string any)) : result Request :=
  match urlParse url with
  | Some e => Err e
  | None => Ok {| Method := method; URL := url; Header := ∅; Body := body |}
  end.

(** [http.Client.Do]. *)
Definition Do (w : World) (req : Request) : M reply :=
  fun t => (roundTrip w t req, t ++ [EvDo req]).

(** [req.Header.Set]. *)
Definition HeaderSet (req : Request) (key val : string) : Request :=
  {| Method := Method req; URL := URL req; Header := <[key := val]> (Header req); Body := Body req |}.

Definition streq (a b : string) : bool := String.eqb a b.

(** [os.Getenv]: the empty string for a variable that is not set. *)
Definition Getenv (env : gmap string string) (key : string) : string := default "" (env !! key).

(** ** The program: what both variants share *)

Definition defaultTTL : Z := 300.
Definition defaultRecordType : string := "A".

Definition envAuthEmail : string := "CF_AUTH_EMAIL".
Definition envAuthMethod : string := "CF_AUTH_METHOD".
Definition envAuthKey : string := "CF_AUTH_KEY".
Definition envZoneID : string := "CF_ZONE_ID".
Definition envRecordName : string := "CF_RECORD_NAME".
Definition envRecordType : string := "CF_RECORD_TYPE".
Definition envTTL : string := "CF_TTL".
Definition envProxied : string := "CF_PROXIED".
Definition envIPServices : string := "CF_IP_SERVICES".

Definition defaultIPServices : list string :=
  ["https://api.ipify.org"; "https://ipv4.icanhazip.com"; "https://ipinfo.io/ip"].

(** How [main] ends: by returning, or through [os.Exit]. *)
Inductive exit :=
| Returned
| OsExit (status : Z).

(** [log.Fatalf]: the line is logged, then the process exits with status 1. *)
Definition Fatalf (format : string) (args : list value) : M exit :=
  Printf format args ;;; ret (OsExit 1).

Section Program.

Context `{Library}.
Variable w : World.

Definition ToLower : string -> string := GoStrings.ToLower unicodeToLower.
Definition ToUpper : string -> string := GoStrings.ToUpper unicodeToUpper.

(** The TTL of the configuration, from the trimmed value of [CF_TTL]. *)
Definition parseTTL (ttlValue : string) : result Z :=
  if streq ttlValue "" then Ok defaultTTL
  else
    match GoStrconv.Atoi ttlValue with
    | Some ttl =>
        if ttl <? 60 then Err (Errorf "invalid %s value %q" [AStr envTTL; AStr ttlValue])
        else Ok ttl
    | None => Err (Errorf "invalid %s value %q" [AStr envTTL; AStr ttlValue])
    end.

(** The proxied flag, from the trimmed value of [CF_PROXIED]. *)
Definition parseProxied (proxiedValue : string) : result bool :=
  let lowered := ToLower proxiedValue in
  if streq lowered "" || streq lowered "false" then Ok false
  else if streq lowered "true" then Ok true
  else Err (Errorf "invalid %s value %q" [AStr envProxied; AStr proxiedValue]).

(** The list of IP services, from the trimmed value of [CF_IP_SERVICES]. *)
Definition parseIPServices (servicesValue : string) : list string :=
  if streq servicesValue "" then defaultIPServices
  else
    let raw := GoStrings.Split servicesValue "," in
    let services :=
      foldl (fun acc svc =>
               let trimmed := GoStrings.TrimSpace svc in
               if negb (streq trimmed "") then acc ++ [trimmed] else acc)
            [] raw in
    if (length services =? 0)%nat then defaultIPServices else services.

(** The [switch cfg.AuthMethod] of [loadConfig]. *)
Definition checkAuth (method email : string) : M (result unit) :=
  if streq method "token" then
    if streq email "" then
      Printf "warning: %s is empty; API tokens typically do not require it" [VStr envAuthEmail] ;;;
      ret (Ok tt)
    else ret (Ok tt)
  else if streq method "global" then
    if streq email "" then
      ret (Err (Errorf "%s is required when %s is 'global'" [AStr envAuthEmail; AStr envAuthMethod]))
    else ret (Ok tt)
  else
    ret (Err (Errorf "unsupported %s %q (must be 'token' or 'global')" [AStr envAuthMethod; AStr method])).

Definition loadConfig (env : gmap string string) : M (result Config) :=
  let email := GoStrings.TrimSpace (Getenv env envAuthEmail) in
  let method := ToLower (GoStrings.TrimSpace (Getenv env envAuthMethod)) in
  let key := GoStrings.TrimSpace (Getenv env envAuthKey) in
  let zone := GoStrings.TrimSpace (Getenv env envZoneID) in
  let name := GoStrings.TrimSpace (Getenv env envRecordName) in
  let type := ToUpper (GoStrings.TrimSpace (Getenv env envRecordType)) in
  let method := if streq method "" then "token" else method in
  let type := if streq type "" then defaultRecordType else type in
  ttl <-? ret (parseTTL (GoStrings.TrimSpace (Getenv env envTTL))) ;;
  proxied <-? ret (parseProxied (GoStrings.TrimSpace (Getenv env envProxied))) ;;
  let services := parseIPServices (GoStrings.TrimSpace (Getenv env envIPServices)) in
  if streq key "" then ret (Err (Errorf "%s is required" [AStr envAuthKey]))
  else
    _ <-? checkAuth method email ;;
    if streq zone "" then ret (Err (Errorf "%s is required" [AStr envZoneID]))
    else if streq name "" then ret (Err (Errorf "%s is required" [AStr envRecordName]))
    else if negb (streq type "A") then
      ret (Err (Errorf "unsupported %s %q (only A records are handled)" [AStr envRecordType; AStr type]))
    else
      ret (Ok (Config.mk email method key zone name type ttl proxied services)).

(** One round of the loop of [discoverIP]: the address the service gave, or
    [None] where the loop goes on to the next service. *)
Definition queryService (svc : string) : M (option string) :=
  match NewRequest MethodGet svc None with
  | Err _ => ret None
  | Ok req =>
      r <- Do w req ;;
      match r with
      | NetError err =>
          Printf "failed to query %s: %v" [VStr svc; VErr err] ;;; ret None
      | Resp resp =>
          match ReadAll (RespBody resp) with
          | Err err =>
              Printf "failed to read response from %s: %v" [VStr svc; VErr err] ;;; ret None
          | Ok body =>
              let ip := GoStrings.TrimSpace body in
              match GoNet.ParseIP ip with
              | None => Printf "invalid IP %q from %s" [VStr ip; VStr svc] ;;; ret None
              | Some parsed =>
                  match GoNet.To4 parsed with
                  | None => Printf "non-IPv4 address %q from %s" [VStr ip; VStr svc] ;;; ret None
                  | Some parsed4 => ret (Some (GoNet.String4 parsed4))
                  end
              end
          end
      end
  end.

Definition errDiscover : error :=
  ErrorsNew "unable to discover IPv4 address from configured services".

Fixpoint discoverIP (services : list string) : M (result string) :=
  match services with
  | [] => ret (Err errDiscover)
  | svc :: rest =>
      r <- queryService svc ;;
      match r with
      | Some ip => ret (Ok ip)
      | None => discoverIP rest
      end
  end.

End Program.

(** ** The raw variant: [net/http] and [encoding/json] *)

Module Raw.
Section Raw.

Context `{Library}.
Variable w : World.

Definition listEndpoint (cfg : Config) : string :=
  "https://api.cloudflare.com/client/v4/zones/" +:+ Config.ZoneID cfg
  +:+ "/dns_records?type=" +:+ Config.RecordType cfg +:+ "&name=" +:+ Config.RecordName cfg.

Definition recordEndpoint (cfg : Config) (recordID : string) : string :=
  "https://api.cloudflare.com/client/v4/zones/" +:+ Config.ZoneID cfg
  +:+ "/dns_records/" +:+ recordID.

Definition applyAuthHeaders (req : Request) (cfg : Config) : Request :=
  let req :=
    if negb (streq (Config.AuthEmail cfg) "") then HeaderSet req "X-Auth-Email" (Config.AuthEmail cfg)
    else req in
  if streq (Config.AuthMethod cfg) "global" then HeaderSet req "X-Auth-Key" (Config.AuthKey cfg)
  else HeaderSet req "Authorization" ("Bearer " +:+ Config.AuthKey cfg).

Definition fetchDNSRecord (cfg : Config) : M (result DNSRecord) :=
  req <-? ret (NewRequest MethodGet (listEndpoint cfg) None) ;;
  let req := applyAuthHeaders req cfg in
  r <- Do w req ;;
  match r with
  | NetError err => ret (Err err)
  | Resp resp =>
      if negb (StatusCode resp =? StatusOK) then
        ret (Err (Errorf "unexpected status %s" [AStr (Status resp)]))
      else
        match decodeList (RespBody resp) with
        | Err err => ret (Err err)
        | Ok payload =>
            if negb (listSuccess payload) then
              ret (Err (Errorf "cloudflare error: %v" [AErrors (listErrors payload)]))
            else
              match listResult payload with
              | [] => ret (Err (Errorf "no matching record for %s" [AStr (Config.RecordName cfg)]))
              | first :: _ => ret (Ok first)
              end
        end
  end.

Definition updateBody (cfg : Config) (newIP : string) : gmap string any :=
  <["type" := AnyString (Config.RecordType cfg)]>
  (<["name" := AnyString (Config.RecordName cfg)]>
  (<["content" := AnyString newIP]>
  (<["ttl" := AnyInt (Config.TTL cfg)]>
  (<["proxied" := AnyBool (Config.Proxied cfg)]> ∅)))).

Definition updateDNSRecord (cfg : Config) (recordID newIP : string) : M (result unit) :=
  req <-? ret (NewRequest MethodPatch (recordEndpoint cfg recordID) (Some (updateBody cfg newIP))) ;;
  let req := HeaderSet req "Content-Type" "application/json" in
  let req := applyAuthHeaders req cfg in
  r <- Do w req ;;
  match r with
  | NetError err => ret (Err err)
  | Resp resp =>
      if negb (StatusCode resp =? StatusOK) then
        ret (Err (Errorf "unexpected status %s" [AStr (Status resp)]))
      else
        match decodeUpdate (RespBody resp) with
        | Err err => ret (Err err)
        | Ok res =>
            if negb (updateSuccess res) then
              ret (Err (Errorf "cloudflare update failed: %v" [AErrors (updateErrors res)]))
            else ret (Ok tt)
        end
  end.

(** The requests that [fetchDNSRecord] and [updateDNSRecord] hand to
    [client.Do]. *)
Definition listRequest (cfg : Config) : Request :=
  applyAuthHeaders
    {| Method := MethodGet; URL := listEndpoint cfg; Header := ∅; Body := None |} cfg.

Definition updateRequest (cfg : Config) (recordID newIP : string) : Request :=
  applyAuthHeaders
    (HeaderSet {| Method := MethodPatch; URL := recordEndpoint cfg recordID; Header := ∅;
                  Body := Some (updateBody cfg newIP) |}
       "Content-Type" "application/json") cfg.

(** [main], from the loaded configuration on. *)
Definition run (cfg : Config) : M exit :=
  d <- discoverIP w (Config.IPServices cfg) ;;
  match d with
  | Err err => Fatalf "failed to determine public IP: %v" [VErr err]
  | Ok ip =>
      Printf "detected public IP: %s" [VStr ip] ;;;
      f <- fetchDNSRecord cfg ;;
      match f with
      | Err err => Fatalf "failed to fetch DNS record: %v" [VErr err]
      | Ok record =>
          if streq (DNSRecord.Content record) ip then
            Printf "Cloudflare record %s already up to date" [VStr (DNSRecord.Name record)] ;;;
            ret Returned
          else
            u <- updateDNSRecord cfg (DNSRecord.ID record) ip ;;
            match u with
            | Err err => Fatalf "failed to update DNS record: %v" [VErr err]
            | Ok _ =>
                Printf "successfully updated %s from %s to %s"
                  [VStr (DNSRecord.Name record); VStr (DNSRecord.Content record); VStr ip] ;;;
                ret Returned
            end
      end
  end.

Definition main (env : gmap string string) : M exit :=
  c <- loadConfig env ;;
  match c with
  | Err err => Fatalf "configuration error: %v" [VErr err]
  | Ok cfg => run cfg
  end.

End Raw.
End Raw.

(** ** The SDK variant: [cmd/updater/main.go] *)

Module Sdk.
Section Sdk.

Context `{Library}.
Variable w : World.

(** The environment of the process, which [loadConfig] and the SDK read. *)
Variable env : gmap string string.

Import cloudflare.

(** [client.DNS.Records.List] and [client.DNS.Records.Update]. *)
Definition RecordsList (client : Client) (params : RecordListParams) : M (result (list Record_)) :=
  fun t => (recordsList w t client params, t ++ [EvList client params]).

Definition RecordsUpdate (client : Client) (recordID : string) (params : RecordUpdateParams) : M (result unit) :=
  fun t => (match recordsUpdate w t client recordID params with Some err => Err err | None => Ok tt end,
            t ++ [EvUpdate client recordID params]).

Definition newCloudflareClient (cfg : Config) : result Client :=
  let options := [WithHTTPClient] in
  if streq (Config.AuthMethod cfg) "token" then
    Ok (NewClient env (options ++ [WithAPIToken (Config.AuthKey cfg)]))
  else if streq (Config.AuthMethod cfg) "global" then
    Ok (NewClient env
          (options ++ [WithAPIKey (Config.AuthKey cfg); WithAPIEmail (Config.AuthEmail cfg)]))
  else Err (Errorf "unsupported auth method %q" [AStr (Config.AuthMethod cfg)]).

Definition listParams (cfg : Config) : RecordListParams :=
  {| ListZoneID := Config.ZoneID cfg;
     ListName := Config.RecordName cfg;
     ListType := Config.RecordType cfg |}.

Definition fetchDNSRecord (client : Client) (cfg : Config) : M (result Record_) :=
  let params := listParams cfg in
  page <-? RecordsList client params ;;
  match page with
  | [] => ret (Err (Errorf "no matching record for %s" [AStr (Config.RecordName cfg)]))
  | first :: _ => ret (Ok first)
  end.

Definition extractARecordIP (record : Record_) : result string :=
  match AsUnion record with
  | UnionARecord aRecord => Ok (GoStrings.TrimSpace (ARecordContent aRecord))
  | UnionOther => Err (Errorf "record type %q is not supported" [AStr (RecType record)])
  end.

Definition updateParams (cfg : Config) (newIP : string) : RecordUpdateParams :=
  {| UpdateZoneID := Config.ZoneID cfg;
     UpdateRecord := {| ParamName := Config.RecordName cfg;
                        ParamContent := newIP;
                        ParamType := ARecordTypeA;
                        ParamTTL := float64 (Config.TTL cfg);
                        ParamProxied := Config.Proxied cfg |} |}.

Definition updateDNSRecord (client : Client) (cfg : Config) (recordID newIP : string) : M (result unit) :=
  RecordsUpdate client recordID (updateParams cfg newIP).

(** [main], from the loaded configuration on. *)
Definition run (cfg : Config) : M exit :=
  d <- discoverIP w (Config.IPServices cfg) ;;
  match d with
  | Err err => Fatalf "failed to determine public IP: %v" [VErr err]
  | Ok ip =>
      Printf "detected public IP: %s" [VStr ip] ;;;
      match newCloudflareClient cfg with
      | Err err => Fatalf "failed to configure Cloudflare client: %v" [VErr err]
      | Ok cfClient =>
          f <- fetchDNSRecord cfClient cfg ;;
          match f with
          | Err err => Fatalf "failed to fetch DNS record: %v" [VErr err]
          | Ok record =>
              match extractARecordIP record with
              | Err err => Fatalf "unexpected DNS record content: %v" [VErr err]
              | Ok currentIP =>
                  if streq currentIP ip then
                    Printf "Cloudflare record %s already up to date" [VStr (RecName record)] ;;;
                    ret Returned
                  else
                    u <- updateDNSRecord cfClient cfg (RecID record) ip ;;
                    match u with
                    | Err err => Fatalf "failed to update DNS record: %v" [VErr err]
                    | Ok _ =>
                        Printf "successfully updated %s from %s to %s"
                          [VStr (RecName record); VStr currentIP; VStr ip] ;;;
                        ret Returned
                    end
              end
          end
      end
  end.

Definition main : M exit :=
  c <- loadConfig env ;;
  match c with
  | Err err => Fatalf "configuration error: %v" [VErr err]
  | Ok cfg => run cfg
  end.

End Sdk.
End Sdk.

(** ** Vocabulary of the properties *)

(** The request [discoverIP] sends to a service. *)
Definition getRequest (svc : string) : Request :=
  {| Method := MethodGet; URL := svc; Header := ∅; Body := None |}.

Section Vocabulary.

Context `{Library}.
Variable w : World.

(** The ways one service fails when it is asked after the trace [t], each
    with the trace it leaves: the request cannot be built, the transport
    fails, the body cannot be read, the body is no IP address, the address
    is not IPv4. *)
Inductive ServiceFails (svc : string) (t : trace) : trace -> Prop :=
| fails_request e :
    urlParse svc = Some e ->
    ServiceFails svc t t
| fails_transport e :
    urlParse svc = None ->
    roundTrip w t (getRequest svc) = NetError e ->
    ServiceFails svc t
      (t ++ [EvDo (getRequest svc); EvLog "failed to query %s: %v" [VStr svc; VErr e]])
| fails_read resp data e :
    urlParse svc = None ->
    roundTrip w t (getRequest svc) = Resp resp ->
    RespBody resp = Broken data e ->
    ServiceFails svc t
      (t ++ [EvDo (getRequest svc); EvLog "failed to read response from %s: %v" [VStr svc; VErr e]])
| fails_parse resp body :
    urlParse svc = None ->
    roundTrip w t (getRequest svc) = Resp resp ->
    RespBody resp = Complete body ->
    GoNet.ParseIP (GoStrings.TrimSpace body) = None ->
    ServiceFails svc t
      (t ++ [EvDo (getRequest svc);
             EvLog "invalid IP %q from %s" [VStr (GoStrings.TrimSpace body); VStr svc]])
| fails_ipv6 resp body parsed :
    urlParse svc = None ->
    roundTrip w t (getRequest svc) = Resp resp ->
    RespBody resp = Complete body ->
    GoNet.ParseIP (GoStrings.TrimSpace body) = Some parsed ->
    GoNet.To4 parsed = None ->
    ServiceFails svc t
      (t ++ [EvDo (getRequest svc);
             EvLog "non-IPv4 address %q from %s" [VStr (GoStrings.TrimSpace body); VStr svc]]).

(** Every service of the list fails, one after the other. *)
Inductive AllFail : list string -> trace -> trace -> Prop :=
| AllFail_nil t : AllFail [] t t
| AllFail_cons svc rest t t' t'' :
    ServiceFails svc t t' ->
    AllFail rest t' t'' ->
    AllFail (svc :: rest) t t''.

(** The service, asked after [t], answers with a readable body whose
    trimmed text is an IP address with the four-byte form [parsed4]. *)
Definition ServiceGivesIPv4 (svc : string) (t : trace) (parsed4 : GoNet.IP) : Prop :=
  urlParse svc = None /\
  exists resp body parsed,
    roundTrip w t (getRequest svc) = Resp resp /\
    RespBody resp = Complete body /\
    GoNet.ParseIP (GoStrings.TrimSpace body) = Some parsed /\
    GoNet.To4 parsed = Some parsed4.

End Vocabulary.

(** The requests of a trace, in order. *)
Definition requestsOf (t : trace) : list Request :=
  omap (fun e => match e with EvDo req => Some req | _ => None end) t.

(** An event that asks the provider to change a record: a [PATCH] request
    or the SDK's update call. *)
Definition isUpdate (e : event) : bool :=
  match e with
  | EvDo req => streq (Method req) MethodPatch
  | EvUpdate _ _ _ => true
  | _ => false
  end.

Definition updatesIn (t : trace) : list event := List.filter isUpdate t.

(** The trace [t'] continues [t] with events that all satisfy [P]. *)
Definition extends (P : event -> Prop) (t t' : trace) : Prop :=
  exists d, t' = t ++ d /\ Forall P d.

Definition isLog (e : event) : Prop :=
  match e with EvLog _ _ => True | _ => False end.

(** What IP discovery does: log lines and [GET] requests without a body. *)
Definition discoveryEvent (e : event) : Prop :=
  match e with
  | EvLog _ _ => True
  | EvDo req => Method req = MethodGet /\ Body req = None
  | _ => False
  end.

(** What a run of the raw variant does: log lines, [GET] requests, and
    [PATCH] requests to the endpoint of one record of the zone. *)
Definition rawEvent (cfg : Config) (e : event) : Prop :=
  match e with
  | EvLog _ _ => True
  | EvDo req =>
      (Method req = MethodGet /\ Body req = None) \/
      (Method req = MethodPatch /\ exists recordID, URL req = Raw.recordEndpoint cfg recordID)
  | _ => False
  end.

(** What a run of the SDK variant does: log lines, [GET] requests, and the
    SDK's list and update calls. *)
Definition sdkEvent (e : event) : Prop :=
  match e with
  | EvLog _ _ | EvList _ _ | EvUpdate _ _ _ => True
  | EvDo req => Method req = MethodGet /\ Body req = None
  end.

(** Normalisation to canonical IPv4 text, in the words of the specification
    and as [discoverIP] does it to a response body: the trimmed text read
    as an IP address, taken to its four-byte form and printed. *)
Definition canonicalIPv4 (s : string) : option string :=
  match GoNet.ParseIP (GoStrings.TrimSpace s) with
  | Some parsed =>
      match GoNet.To4 parsed with
      | Some parsed4 => Some (GoNet.String4 parsed4)
      | None => None
      end
  | None => None
  end.

(** An IPv4-mapped IPv6 literal: text in colon notation for the address
    [::ffff:a.b.c.d]. *)
Definition IPv4MappedLiteral (lit : string) (a b c d : Z) : Prop :=
  ":"%char ∈ bytes lit /\ GoNet.ParseIP lit = Some (GoNet.v4InV6 [a; b; c; d]).

(** The data-model invariant of a configuration. *)
Definition validConfig (cfg : Config) : Prop :=
  60 <= Config.TTL cfg /\
  Config.IPServices cfg <> [] /\
  Config.RecordType cfg = "A" /\
  Config.AuthKey cfg <> "" /\
  Config.ZoneID cfg <> "" /\
  Config.RecordName cfg <> "" /\
  (Config.AuthMethod cfg = "token" \/ Config.AuthMethod cfg = "global") /\
  (Config.AuthMethod cfg = "global" -> Config.AuthEmail cfg <> "").

(** ** A library and a world for the examples *)

Definition isCTL (c : ascii) : bool := (code c <? 32) || (code c =? 127).

Definition exampleRecord (id content : string) : DNSRecord :=
  DNSRecord.mk id "A" "example.com" content 120 false.

(** A toy wire format stands in for JSON: [A <id> <content>] is a
    successful list with one record, [none] a successful empty list,
    [denied] a rejection, [done] a successful update.  The URL check is the
    first one [net/url] makes: no ASCII control byte. *)
Definition exampleLibrary : Library := {|
  unicodeToLower := fun s => s;
  unicodeToUpper := fun s => s;
  urlParse := fun url =>
    if existsb isCTL (bytes url)
    then Some (Foreign "net/url: invalid control character in URL")
    else None;
  decodeList := fun b =>
    match b with
    | Complete data =>
        match GoStrings.Split data " " with
        | [tag; id; content] =>
            if streq tag "A" then
              Ok {| listSuccess := true; listErrors := []; listResult := [exampleRecord id content] |}
            else Err (Foreign "invalid character")
        | _ =>
            if streq data "none" then
              Ok {| listSuccess := true; listErrors := []; listResult := [] |}
            else if streq data "denied" then
              Ok {| listSuccess := false;
                    listErrors := [{| Code := 10000; Message := "Authentication error" |}];
                    listResult := [] |}
            else Err (Foreign "invalid character")
        end
    | Broken _ e => Err e
    end;
  decodeUpdate := fun b =>
    match b with
    | Complete data =>
        if streq data "done" then Ok {| updateSuccess := true; updateErrors := [] |}
        else Err (Foreign "invalid character")
    | Broken _ e => Err e
    end
|}.

Definition answer (status : Z) (text body : string) : reply :=
  Resp {| StatusCode := status; Status := text; RespBody := Complete body |}.

Definition exampleSdkRecord (content : string) : cloudflare.Record_ :=
  {| cloudflare.RecID := "record-id"; cloudflare.RecType := "A"; cloudflare.RecName := "example.com";
     cloudflare.AsUnion := cloudflare.UnionARecord {| cloudflare.ARecordContent := content |} |}.

(** The servers of the repository's tests: one that answers 500 with no
    body, one that answers with text that is no address, one that answers
    with [discovered]; the provider answers a list request with
    [listStatus] and [listBody], and accepts an update. *)
Definition exampleWorld (discovered : string) (listStatus : Z) (listText listBody : string)
    (sdkPage : list cloudflare.Record_) : World := {|
  roundTrip := fun _ req =>
    if streq (URL req) "http://invalid.test" then answer 500 "500 Internal Server Error" ""
    else if streq (URL req) "http://bad-ip.test" then answer 200 "200 OK" "not-an-ip"
    else if streq (URL req) "http://valid.test" then answer 200 "200 OK" discovered
    else if streq (Method req) MethodPatch then answer 200 "200 OK" "done"
    else answer listStatus listText listBody;
  recordsList := fun _ _ _ => Ok sdkPage;
  recordsUpdate := fun _ _ _ _ => None
|}.

Definition exampleServices : list string :=
  ["http://invalid.test"; "http://bad-ip.test"; "http://valid.test"].

Definition exampleConfig (method email : string) (ttl : Z) : Config :=
  Config.mk email method "secret" "zone-id" "example.com" "A" ttl true exampleServices.

(** ** Vocabulary of the configuration rules *)

Section ConfigVocabulary.
Context `{Library}.

(** The values [loadConfig] reads, as it normalises them. *)
Definition envValue (env : gmap string string) (key : string) : string :=
  GoStrings.TrimSpace (Getenv env key).

Definition envMethod (env : gmap string string) : string :=
  let method := ToLower (envValue env envAuthMethod) in
  if streq method "" then "token" else method.

Definition envType (env : gmap string string) : string :=
  let type := ToUpper (envValue env envRecordType) in
  if streq type "" then defaultRecordType else type.

(** An environment that breaks a rule of the configuration. *)
Definition InvalidEnv (env : gmap string string) : Prop :=
  (envValue env envTTL <> "" /\
     forall ttl, GoStrconv.Atoi (envValue env envTTL) = Some ttl -> ttl < 60) \/
  (ToLower (envValue env envProxied) <> "" /\
     ToLower (envValue env envProxied) <> "false" /\
     ToLower (envValue env envProxied) <> "true") \/
  envValue env envAuthKey = "" \/
  (envMethod env <> "token" /\ envMethod env <> "global") \/
  (envMethod env = "global" /\ envValue env envAuthEmail = "") \/
  envValue env envZoneID = "" \/
  envValue env envRecordName = "" \/
  envType env <> "A".

End ConfigVocabulary.

(** ** The decisions of the raw variant on a reply *)

Section Outcomes.

Context `{Library}.

(** What [fetchDNSRecord] makes of the provider's reply. *)
Definition fetchOutcome (cfg : Config) (r : reply) : result DNSRecord :=
  match r with
  | NetError err => Err err
  | Resp resp =>
      if negb (StatusCode resp =? StatusOK) then
        Err (Errorf "unexpected status %s" [AStr (Status resp)])
      else
        match decodeList (RespBody resp) with
        | Err err => Err err
        | Ok payload =>
            if negb (listSuccess payload) then
              Err (Errorf "cloudflare error: %v" [AErrors (listErrors payload)])
            else
              match listResult payload with
              | [] => Err (Errorf "no matching record for %s" [AStr (Config.RecordName cfg)])
              | first :: _ => Ok first
              end
        end
  end.

(** What [updateDNSRecord] makes of the provider's reply. *)
Definition updateOutcome (r : reply) : result unit :=
  match r with
  | NetError err => Err err
  | Resp resp =>
      if negb (StatusCode resp =? StatusOK) then
        Err (Errorf "unexpected status %s" [AStr (Status resp)])
      else
        match decodeUpdate (RespBody resp) with
        | Err err => Err err
        | Ok res =>
            if negb (updateSuccess res) then
              Err (Errorf "cloudflare update failed: %v" [AErrors (updateErrors res)])
            else Ok tt
        end
  end.

End Outcomes.

(** An event that creates no record: no request but [GET] and [PATCH]. *)
Definition neverCreates (e : event) : Prop :=
  match e with
  | EvDo req => Method req = MethodGet \/ Method req = MethodPatch
  | _ => True
  end.

(** ** Vocabulary of the further properties *)

(** What [discoverIP] reads of a reply: the transport error, or the body;
    never the status. *)
Definition replyBody (r : reply) : error + stream :=
  match r with
  | NetError e => inl e
  | Resp resp => inr (RespBody resp)
  end.

(** The entries of a value of [CF_IP_SERVICES]: its comma-separated parts,
    each trimmed, the blank ones left out. *)
Definition serviceEntries (servicesValue : string) : list string :=
  List.filter (fun svc => negb (streq svc ""))
    (GoStrings.TrimSpace <$> GoStrings.Split servicesValue ",").

(** The calls of the SDK in a trace. *)
Definition isSdkCall (e : event) : bool :=
  match e with
  | EvList _ _ | EvUpdate _ _ _ => true
  | _ => false
  end.

Definition sdkCallsIn (t : trace) : list event := List.filter isSdkCall t.

(** The lines that [main] ends on: two when it returns, six when it exits
    through [log.Fatalf]. *)
Definition successLines : list string :=
  ["Cloudflare record %s already up to date"; "successfully updated %s from %s to %s"].

Definition failureLines : list string :=
  ["configuration error: %v"; "failed to determine public IP: %v";
   "failed to configure Cloudflare client: %v"; "failed to fetch DNS record: %v";
   "unexpected DNS record content: %v"; "failed to update DNS record: %v"].

(** The last event of the run is a log line that tells how it ended. *)
Definition outcomeLogged (r : exit * trace) : Prop :=
  exists format args,
    last (snd r) = Some (EvLog format args) /\
    ((fst r = Returned /\ format ∈ successLines) \/
     (fst r = OsExit 1 /\ format ∈ failureLines)).

(** The content that the last update call of a trace wrote. *)
Definition writtenBy (e : event) : option string :=
  match e with
  | EvUpdate _ _ params => Some (cloudflare.ParamContent (cloudflare.UpdateRecord params))
  | _ => None
  end.

Definition lastWritten (t : trace) : option string := last (omap writtenBy t).

(** A provider that keeps what it is given: its list call answers with an A
    record whose content is what the last update call wrote, or [initial]
    before any update. *)
Definition Stores (w : World) (initial : string) : Prop :=
  forall t client params,
    exists record rest,
      recordsList w t client params = Ok (record :: rest) /\
      cloudflare.AsUnion record
        = cloudflare.UnionARecord
            {| cloudflare.ARecordContent := default initial (lastWritten t) |}.

(** Such a provider, with the servers of [exampleWorld]. *)
Definition storingWorld (discovered initial : string) : World := {|
  roundTrip := roundTrip (exampleWorld discovered 200 "200 OK" "none" []);
  recordsList := fun t _ _ => Ok [exampleSdkRecord (default initial (lastWritten t))];
  recordsUpdate := fun _ _ _ _ => None
|}.

(** A provider that refuses every update. *)
Definition refusingWorld (discovered current : string) : World := {|
  roundTrip := fun t req =>
    if streq (Method req) MethodPatch then answer 403 "403 Forbidden" "denied"
    else roundTrip (exampleWorld discovered 200 "200 OK" ("A record-id " +:+ current) []) t req;
  recordsList := fun _ _ _ => Ok [exampleSdkRecord current];
  recordsUpdate := fun _ _ _ _ => Some (Foreign "403 Forbidden")
|}.

(** * Properties *)

(** ** IP discovery *)

Section Discovery.

Context `{Library}.
Variable w : World.

Lemma NewRequest_get svc :
  urlParse svc = None -> NewRequest MethodGet svc None = Ok (getRequest svc).
Proof. intros Hu. unfold NewRequest. now rewrite Hu. Qed.

(** A service that fails leaves [queryService] without an address. *)
Lemma queryService_fails svc t t' :
  ServiceFails w svc t t' -> queryService w svc t = (None, t').
Proof.
  intros Hf. unfold queryService.
  destruct Hf as [e Hu | e Hu Hr | resp data e Hu Hr Hb | resp body Hu Hr Hb Hp
                 | resp body parsed Hu Hr Hb Hp H4].
  - unfold NewRequest. now rewrite Hu.
  - rewrite (NewRequest_get _ Hu). unfold bind, Do, Printf, emit, ret.
    rewrite Hr. now rewrite <- app_assoc.
  - rewrite (NewRequest_get _ Hu). unfold bind, Do, Printf, emit, ret.
    rewrite Hr, Hb. cbn. now rewrite <- app_assoc.
  - rewrite (NewRequest_get _ Hu). unfold bind, Do, Printf, emit, ret.
    rewrite Hr, Hb. cbn. rewrite Hp. now rewrite <- app_assoc.
  - rewrite (NewRequest_get _ Hu). unfold bind, Do, Printf, emit, ret.
    rewrite Hr, Hb. cbn. rewrite Hp, H4. now rewrite <- app_assoc.
Qed.

(** A service that answers with an IPv4 address ends the search. *)
Lemma queryService_gives svc t parsed4 :
  ServiceGivesIPv4 w svc t parsed4 ->
  queryService w svc t = (Some (GoNet.String4 parsed4), t ++ [EvDo (getRequest svc)]).
Proof.
  intros [Hu (resp & body & parsed & Hr & Hb & Hp & H4)].
  unfold queryService. rewrite (NewRequest_get _ Hu).
  unfold bind, Do, ret. rewrite Hr, Hb. cbn. now rewrite Hp, H4.
Qed.

(** The five ways to fail are all there are: a round of the loop either
    fails in one of them or returns an address. *)
Lemma queryService_cases svc t :
  (exists t', ServiceFails w svc t t' /\ queryService w svc t = (None, t')) \/
  (exists parsed4, ServiceGivesIPv4 w svc t parsed4 /\
     queryService w svc t = (Some (GoNet.String4 parsed4), t ++ [EvDo (getRequest svc)])).
Proof.
  destruct (urlParse svc) as [e|] eqn:Hu.
  { left. exists t. assert (Hf : ServiceFails w svc t t) by (eapply fails_request; eauto).
    split; [exact Hf | now apply queryService_fails]. }
  destruct (roundTrip w t (getRequest svc)) as [e | resp] eqn:Hr.
  { left. eexists. split; [eapply fails_transport; eauto |].
    apply queryService_fails. eapply fails_transport; eauto. }
  destruct (RespBody resp) as [body | data e] eqn:Hb.
  2:{ left. eexists. split; [eapply fails_read; eauto |].
      apply queryService_fails. eapply fails_read; eauto. }
  destruct (GoNet.ParseIP (GoStrings.TrimSpace body)) as [parsed|] eqn:Hp.
  2:{ left. eexists. split; [eapply fails_parse; eauto |].
      apply queryService_fails. eapply fails_parse; eauto. }
  destruct (GoNet.To4 parsed) as [parsed4|] eqn:H4.
  2:{ left. eexists. split; [eapply fails_ipv6; eauto |].
      apply queryService_fails. eapply fails_ipv6; eauto. }
  right. exists parsed4.
  assert (Hg : ServiceGivesIPv4 w svc t parsed4).
  { split; [exact Hu |]. exists resp, body, parsed. auto. }
  split; [exact Hg | now apply queryService_gives].
Qed.

Lemma discoverIP_cons svc rest t :
  discoverIP w (svc :: rest) t =
    match queryService w svc t with
    | (Some ip, t') => (Ok ip, t')
    | (None, t') => discoverIP w rest t'
    end.
Proof.
  cbn [discoverIP]. unfold bind. destruct (queryService w svc t) as [[ip|] t']; reflexivity.
Qed.

(** When all services fail, the search falls through to the final error. *)
Lemma discoverIP_AllFail services t t' :
  AllFail w services t t' -> discoverIP w services t = (Err errDiscover, t').
Proof.
  induction 1 as [t | svc rest t t1 t2 Hf _ IH].
  - reflexivity.
  - rewrite discoverIP_cons, (queryService_fails _ _ _ Hf). exact IH.
Qed.

(** A failing prefix is skipped. *)
Lemma discoverIP_skip pre rest t t' :
  AllFail w pre t t' -> discoverIP w (pre ++ rest) t = discoverIP w rest t'.
Proof.
  induction 1 as [t | svc pre' t t1 t2 Hf _ IH].
  - reflexivity.
  - cbn [app]. rewrite discoverIP_cons, (queryService_fails _ _ _ Hf). exact IH.
Qed.

(** The only error of [discoverIP] is the aggregate one, and it comes up
    exactly when all services failed. *)
Lemma discoverIP_Err services t e t' :
  discoverIP w services t = (Err e, t') -> e = errDiscover /\ AllFail w services t t'.
Proof.
  revert t. induction services as [|svc rest IH]; intros t Hd.
  - cbn in Hd. unfold ret in Hd. inversion Hd; subst. split; [reflexivity | constructor].
  - rewrite discoverIP_cons in Hd.
    destruct (queryService_cases svc t) as [(t1 & Hf & Hq) | (p4 & _ & Hq)]; rewrite Hq in Hd.
    + destruct (IH _ Hd) as [-> Ha]. split; [reflexivity |]. econstructor; eauto.
    + discriminate.
Qed.

(** What a failing service adds to the trace: at most its own request. *)
Lemma ServiceFails_trace svc t t' :
  ServiceFails w svc t t' ->
  exists d, t' = t ++ d /\ sublist (requestsOf d) [getRequest svc] /\ updatesIn d = [].
Proof.
  intros Hf.
  destruct Hf.
  - exists []. rewrite app_nil_r. split; [reflexivity |]. split; [apply sublist_nil_l | reflexivity].
  - eexists. split; [reflexivity |]. split; [cbn; reflexivity | reflexivity].
  - eexists. split; [reflexivity |]. split; [cbn; reflexivity | reflexivity].
  - eexists. split; [reflexivity |]. split; [cbn; reflexivity | reflexivity].
  - eexists. split; [reflexivity |]. split; [cbn; reflexivity | reflexivity].
Qed.

Lemma requestsOf_app t1 t2 : requestsOf (t1 ++ t2) = requestsOf t1 ++ requestsOf t2.
Proof. unfold requestsOf. apply omap_app. Qed.

Lemma updatesIn_app t1 t2 : updatesIn (t1 ++ t2) = updatesIn t1 ++ updatesIn t2.
Proof. unfold updatesIn. apply List.filter_app. Qed.

(** Failing services only add requests to themselves, in the order of the
    list, and never an update. *)
Lemma AllFail_trace services t t' :
  AllFail w services t t' ->
  exists d, t' = t ++ d /\ sublist (requestsOf d) (getRequest <$> services) /\ updatesIn d = [].
Proof.
  induction 1 as [t | svc rest t t1 t2 Hf _ (d2 & -> & Hs2 & Hu2)].
  - exists []. rewrite app_nil_r. split; [reflexivity |]. split; [apply sublist_nil_l | reflexivity].
  - destruct (ServiceFails_trace _ _ _ Hf) as (d1 & -> & Hs1 & Hu1).
    exists (d1 ++ d2). rewrite app_assoc. split; [reflexivity |].
    rewrite requestsOf_app, updatesIn_app, Hu1, Hu2. split; [| reflexivity].
    change (getRequest <$> svc :: rest) with ([getRequest svc] ++ (getRequest <$> rest)).
    now apply sublist_app.
Qed.

End Discovery.

Lemma To4_four ip parsed4 :
  GoNet.To4 ip = Some parsed4 -> exists a b c d, parsed4 = [a; b; c; d].
Proof.
  unfold GoNet.To4. intros H0.
  destruct (length ip =? 4)%nat eqn:E4.
  - inversion H0; subst. apply Nat.eqb_eq in E4.
    destruct parsed4 as [|a [|b [|c [|d [|? ?]]]]]; try discriminate. eauto.
  - destruct (length ip =? 16)%nat eqn:E16; [| discriminate].
    apply Nat.eqb_eq in E16.
    destruct (_ && _ && _ && _) in H0; [| discriminate].
    inversion H0; subst.
    do 16 (destruct ip as [|? ip]; [discriminate |]).
    destruct ip; [| discriminate]. cbn. eauto.
Qed.

(** ** Dotted decimal never looks like colon notation *)

Lemma bytes_app s1 s2 : bytes (s1 +:+ s2) = bytes s1 ++ bytes s2.
Proof. unfold bytes. induction s1 as [|c s1 IH]; simpl; [reflexivity | now f_equal]. Qed.

Lemma string_of_uint_no_colon (u : Decimal.uint) : ":"%char ∉ bytes (NilEmpty.string_of_uint u).
Proof.
  induction u; cbn; [apply not_elem_of_nil | ..];
    (intros Hin; apply elem_of_cons in Hin as [Hin | Hin]; [discriminate | contradiction]).
Qed.

Lemma Itoa_no_colon n : ":"%char ∉ bytes (GoStrconv.Itoa n).
Proof.
  unfold GoStrconv.Itoa, NilZero.string_of_uint.
  destruct (N.to_uint (Z.to_N n)) eqn:E; try (rewrite <- E; apply string_of_uint_no_colon).
  cbn. intros Hin. apply elem_of_cons in Hin as [Hin | Hin]; [discriminate |].
  now apply not_elem_of_nil in Hin.
Qed.

Lemma dotted_no_colon a b c d : ":"%char ∉ bytes (GoNet.dotted a b c d).
Proof.
  unfold GoNet.dotted. rewrite !bytes_app. rewrite !elem_of_app.
  pose proof (Itoa_no_colon a). pose proof (Itoa_no_colon b).
  pose proof (Itoa_no_colon c). pose proof (Itoa_no_colon d).
  assert (Hdot : ":"%char ∉ bytes ".").
  { cbn. intros Hin. apply elem_of_cons in Hin as [Hin | Hin]; [discriminate |].
    now apply not_elem_of_nil in Hin. }
  tauto.
Qed.

(** Trimming only removes bytes. *)
Lemma trimWith_elem width fuel l x : x ∈ GoStrings.trimWith width fuel l -> x ∈ l.
Proof.
  revert l. induction fuel as [|fuel IH]; intros l; cbn; [auto |].
  destruct (width l); [auto |]. intros Hin. apply IH in Hin.
  apply list_elem_of_lookup in Hin as [i Hi]. rewrite lookup_drop in Hi.
  apply list_elem_of_lookup. eauto.
Qed.

Lemma bytes_unbytes l : bytes (unbytes l) = l.
Proof. apply list_ascii_of_string_of_list_ascii. Qed.

Lemma TrimSpace_elem s x : x ∈ bytes (GoStrings.TrimSpace s) -> x ∈ bytes s.
Proof.
  unfold GoStrings.TrimSpace, GoStrings.trimRight, GoStrings.trimLeft.
  rewrite bytes_unbytes. intros Hin.
  apply list_elem_of_In, in_rev, list_elem_of_In in Hin. apply trimWith_elem in Hin.
  apply list_elem_of_In, in_rev, list_elem_of_In in Hin. now apply trimWith_elem in Hin.
Qed.

(** ** Dotted decimal is canonical *)

Lemma isDigit_code c : isDigit c = true <-> 48 <= code c <= 57.
Proof. unfold isDigit. rewrite andb_true_iff, !Z.leb_le. tauto. Qed.

Lemma string_of_uint_digits (u : Decimal.uint) :
  Forall (fun c => isDigit c = true) (bytes (NilEmpty.string_of_uint u)).
Proof. induction u; cbn; constructor; auto. Qed.

Lemma Itoa_digits n : Forall (fun c => isDigit c = true) (bytes (GoStrconv.Itoa n)).
Proof.
  unfold GoStrconv.Itoa, NilZero.string_of_uint.
  destruct (N.to_uint (Z.to_N n)) eqn:E; try (rewrite <- E; apply string_of_uint_digits).
  cbn. repeat constructor.
Qed.

Lemma Itoa_nonempty n : bytes (GoStrconv.Itoa n) <> [].
Proof.
  unfold GoStrconv.Itoa, NilZero.string_of_uint.
  destruct (N.to_uint (Z.to_N n)); cbn; discriminate.
Qed.

(** White space is trimmed at the two ends only: text made of ASCII bytes
    that neither starts nor ends with a space is left as it is. *)
Lemma spaceWidth_ascii c rest :
  GoStrings.asciiSpace c = false -> code c < 128 -> GoStrings.spaceWidth (c :: rest) = 0%nat.
Proof.
  intros Hs Hc. unfold GoStrings.spaceWidth. rewrite Hs.
  assert (E1 : (code c =? 194) = false) by (apply Z.eqb_neq; lia).
  assert (E2 : (code c =? 225) = false) by (apply Z.eqb_neq; lia).
  assert (E3 : (code c =? 226) = false) by (apply Z.eqb_neq; lia).
  assert (E4 : (code c =? 227) = false) by (apply Z.eqb_neq; lia).
  rewrite E1, E2, E3, E4. cbn [andb].
  destruct (List.map code rest) as [|b1 [|b2 ?]]; reflexivity.
Qed.

Lemma spaceWidth_small c rest : code c < 128 -> (GoStrings.spaceWidth (c :: rest) <= 1)%nat.
Proof.
  intros Hc. destruct (GoStrings.asciiSpace c) eqn:Hs.
  - unfold GoStrings.spaceWidth. rewrite Hs. lia.
  - rewrite (spaceWidth_ascii _ _ Hs Hc). lia.
Qed.

Lemma spaceWidthLast_ascii c r :
  GoStrings.asciiSpace c = false -> Forall (fun x => code x < 128) r ->
  GoStrings.spaceWidthLast (c :: r) = 0%nat.
Proof.
  intros Hs Hr. unfold GoStrings.spaceWidthLast. rewrite Hs.
  destruct r as [|c1 [|c2 r']]; [reflexivity | |].
  - apply Forall_cons in Hr as [H1 _].
    pose proof (spaceWidth_small c1 [c] H1).
    destruct (GoStrings.spaceWidth [c1; c]) as [|[|[|?]]]; try reflexivity; lia.
  - apply Forall_cons in Hr as [H1 Hr]. apply Forall_cons in Hr as [H2 _].
    pose proof (spaceWidth_small c1 [c] H1).
    pose proof (spaceWidth_small c2 [c1; c] H2).
    destruct (GoStrings.spaceWidth [c2; c1; c]) as [|[|[|[|?]]]]; try lia;
    destruct (GoStrings.spaceWidth [c1; c]) as [|[|[|?]]]; try reflexivity; lia.
Qed.

Lemma trimWith_stop width fuel l : width l = 0%nat -> GoStrings.trimWith width fuel l = l.
Proof. intros Hw. destruct fuel; cbn; [reflexivity | now rewrite Hw]. Qed.

Lemma unbytes_bytes s : unbytes (bytes s) = s.
Proof. apply string_of_list_ascii_of_string. Qed.

Lemma TrimSpace_ascii s c l c' :
  bytes s = c :: l -> last (c :: l) = Some c' ->
  Forall (fun x => code x < 128) (c :: l) ->
  GoStrings.asciiSpace c = false -> GoStrings.asciiSpace c' = false ->
  GoStrings.TrimSpace s = s.
Proof.
  intros Hb Hlast Hall Hc Hc'.
  unfold GoStrings.TrimSpace, GoStrings.trimLeft, GoStrings.trimRight. rewrite Hb.
  rewrite (trimWith_stop GoStrings.spaceWidth).
  2:{ apply spaceWidth_ascii; [exact Hc |]. now apply Forall_cons in Hall as [? _]. }
  assert (Hrev : exists r, rev (c :: l) = c' :: r).
  { apply last_Some in Hlast as [l' Hl']. rewrite Hl'. rewrite rev_app_distr. cbn. eauto. }
  destruct Hrev as [r Hr]. rewrite Hr.
  rewrite trimWith_stop.
  2:{ apply spaceWidthLast_ascii; [exact Hc' |].
      assert (Hall' : Forall (fun x => code x < 128) (c' :: r)).
      { rewrite <- Hr. apply Forall_forall. intros x Hx.
        apply list_elem_of_In, in_rev, list_elem_of_In in Hx.
        rewrite Forall_forall in Hall. auto. }
      now apply Forall_cons in Hall' as [_ ?]. }
  rewrite <- Hr, rev_involutive, <- Hb. apply unbytes_bytes.
Qed.

Lemma digit_facts c :
  isDigit c = true ->
  code c < 128 /\ GoStrings.asciiSpace c = false /\ Ascii.eqb c "." = false
  /\ Ascii.eqb c ":" = false /\ Ascii.eqb c "%" = false.
Proof.
  intros Hd. apply isDigit_code in Hd.
  assert (Hne : forall k, code k < 48 -> Ascii.eqb c k = false).
  { intros k Hk. apply Ascii.eqb_neq. intros ->. lia. }
  assert (Hne' : forall k, 57 < code k -> Ascii.eqb c k = false).
  { intros k Hk. apply Ascii.eqb_neq. intros ->. lia. }
  split; [lia |]. split.
  - unfold GoStrings.asciiSpace. cbn zeta.
    repeat (apply orb_false_intro); apply Z.eqb_neq; lia.
  - split; [apply Hne; reflexivity |]. split; [apply Hne'; reflexivity | apply Hne; reflexivity].
Qed.

(** One octet, printed and read back (all 256 of them). *)
Lemma parseIPv4Loop_octet (n : nat) :
  (n < 256)%nat ->
  forall rest prev fields,
    GoNet.parseIPv4Loop (bytes (GoStrconv.Itoa (Z.of_nat n)) ++ rest) prev fields 0 0
    = GoNet.parseIPv4Loop rest (last (bytes (GoStrconv.Itoa (Z.of_nat n)))) fields (Z.of_nat n)
        (Z.of_nat (length (bytes (GoStrconv.Itoa (Z.of_nat n))))).
Proof.
  intros Hn.
  do 256 (destruct n as [|n]; [intros; reflexivity |]).
  lia.
Qed.

Lemma last_digit n :
  exists p, last (bytes (GoStrconv.Itoa n)) = Some p /\ isDigit p = true.
Proof.
  pose proof (Itoa_digits n) as Hd. pose proof (Itoa_nonempty n) as Hne.
  destruct (last (bytes (GoStrconv.Itoa n))) as [p|] eqn:El.
  - exists p. split; [reflexivity |].
    rewrite Forall_forall in Hd. apply Hd.
    apply last_Some in El as [l' ->]. apply elem_of_app. right. apply list_elem_of_singleton.
    reflexivity.
  - apply last_None in El. contradiction.
Qed.

Lemma parseIPv4Loop_dot p l fields val dl :
  isDigit p = true -> l <> [] -> (length fields < 3)%nat ->
  GoNet.parseIPv4Loop ("."%char :: l) (Some p) fields val dl
  = GoNet.parseIPv4Loop l (Some "."%char) (fields ++ [val]) 0 0.
Proof.
  intros Hp Hl Hf. destruct l as [|c l]; [contradiction |].
  destruct (digit_facts p Hp) as (_ & _ & Hdot & _).
  cbn [GoNet.parseIPv4Loop].
  change (isDigit ".") with false. change (Ascii.eqb "." ".") with true. cbv iota.
  rewrite Hdot.
  destruct (length fields =? 3)%nat eqn:E; [apply Nat.eqb_eq in E; lia | reflexivity].
Qed.

Lemma parseIPv4Loop_octetZ n rest prev fields :
  0 <= n <= 255 ->
  exists p dl, isDigit p = true /\
    GoNet.parseIPv4Loop (bytes (GoStrconv.Itoa n) ++ rest) prev fields 0 0
    = GoNet.parseIPv4Loop rest (Some p) fields n dl.
Proof.
  intros Hn. destruct (last_digit n) as (p & Hl & Hp).
  exists p, (Z.of_nat (length (bytes (GoStrconv.Itoa n)))). split; [exact Hp |].
  rewrite <- Hl. rewrite <- (Z2Nat.id n) by lia.
  apply parseIPv4Loop_octet. lia.
Qed.

Lemma bytes_dotted a b c d :
  bytes (GoNet.dotted a b c d)
  = bytes (GoStrconv.Itoa a) ++ "."%char :: bytes (GoStrconv.Itoa b) ++ "."%char ::
    bytes (GoStrconv.Itoa c) ++ "."%char :: bytes (GoStrconv.Itoa d).
Proof. unfold GoNet.dotted. rewrite !bytes_app. reflexivity. Qed.

Lemma app_nonempty {A} (l1 l2 : list A) : l1 <> [] -> l1 ++ l2 <> [].
Proof. destruct l1; [contradiction | discriminate]. Qed.

(** Reading a printed IPv4 address gives its four bytes back. *)
Lemma parseIPv4_dotted a b c d :
  0 <= a <= 255 -> 0 <= b <= 255 -> 0 <= c <= 255 -> 0 <= d <= 255 ->
  GoNet.parseIPv4 (bytes (GoNet.dotted a b c d)) = Some [a; b; c; d].
Proof.
  intros Ha Hb Hc Hd. unfold GoNet.parseIPv4. rewrite bytes_dotted.
  destruct (parseIPv4Loop_octetZ a ("."%char :: bytes (GoStrconv.Itoa b) ++ "."%char ::
             bytes (GoStrconv.Itoa c) ++ "."%char :: bytes (GoStrconv.Itoa d)) None [] Ha)
    as (pa & dla & Hpa & ->).
  rewrite parseIPv4Loop_dot; [| exact Hpa | apply app_nonempty, Itoa_nonempty | cbn; lia].
  destruct (parseIPv4Loop_octetZ b ("."%char :: bytes (GoStrconv.Itoa c) ++ "."%char ::
             bytes (GoStrconv.Itoa d)) (Some "."%char) ([] ++ [a]) Hb)
    as (pb & dlb & Hpb & ->).
  rewrite parseIPv4Loop_dot; [| exact Hpb | apply app_nonempty, Itoa_nonempty | cbn; lia].
  destruct (parseIPv4Loop_octetZ c ("."%char :: bytes (GoStrconv.Itoa d))
             (Some "."%char) (([] ++ [a]) ++ [b]) Hc)
    as (pc & dlc & Hpc & ->).
  rewrite parseIPv4Loop_dot; [| exact Hpc | apply Itoa_nonempty | cbn; lia].
  rewrite <- (app_nil_r (bytes (GoStrconv.Itoa d))).
  destruct (parseIPv4Loop_octetZ d [] (Some "."%char) ((([] ++ [a]) ++ [b]) ++ [c]) Hd)
    as (pd & dld & Hpd & ->).
  reflexivity.
Qed.

Lemma parseAddr_digits whole ds rest :
  Forall (fun c => isDigit c = true) ds ->
  GoNet.parseAddr whole (ds ++ "."%char :: rest) = GoNet.v4InV6 <$> GoNet.parseIPv4 whole.
Proof.
  induction 1 as [|c ds Hc _ IH]; [reflexivity |].
  destruct (digit_facts c Hc) as (_ & _ & Hdot & Hcolon & Hpct).
  cbn [app GoNet.parseAddr]. now rewrite Hdot, Hcolon, Hpct.
Qed.

Lemma ParseIP_dotted a b c d :
  0 <= a <= 255 -> 0 <= b <= 255 -> 0 <= c <= 255 -> 0 <= d <= 255 ->
  GoNet.ParseIP (GoNet.dotted a b c d) = Some (GoNet.v4InV6 [a; b; c; d]).
Proof.
  intros Ha Hb Hc Hd. unfold GoNet.ParseIP.
  rewrite bytes_dotted at 2. rewrite parseAddr_digits by apply Itoa_digits.
  now rewrite parseIPv4_dotted.
Qed.

Lemma TrimSpace_dotted a b c d : GoStrings.TrimSpace (GoNet.dotted a b c d) = GoNet.dotted a b c d.
Proof.
  assert (Hall : Forall (fun x => isDigit x = true \/ x = "."%char) (bytes (GoNet.dotted a b c d))).
  { rewrite bytes_dotted.
    repeat first [apply Forall_app; split | apply Forall_cons; split; [now right |]];
      (eapply Forall_impl; [apply Itoa_digits | intros; now left]). }
  assert (Hascii : Forall (fun x => code x < 128) (bytes (GoNet.dotted a b c d))).
  { eapply Forall_impl; [exact Hall |]. intros x [Hx | ->]; [| reflexivity].
    now destruct (digit_facts x Hx). }
  destruct (bytes (GoStrconv.Itoa a)) as [|c0 l0] eqn:Ea; [now apply Itoa_nonempty in Ea |].
  assert (Hc0 : isDigit c0 = true).
  { pose proof (Itoa_digits a) as H0. rewrite Ea in H0. now apply Forall_cons in H0 as [? _]. }
  destruct (last_digit d) as (p & Hl & Hp).
  assert (Hb : exists l, bytes (GoNet.dotted a b c d) = c0 :: l).
  { rewrite bytes_dotted, Ea. cbn. eauto. }
  destruct Hb as [l Hb].
  apply (TrimSpace_ascii _ c0 l p Hb).
  - rewrite <- Hb, bytes_dotted.
    apply last_Some in Hl as [l' ->].
    rewrite !app_comm_cons, !app_assoc. apply last_snoc.
  - now rewrite <- Hb.
  - now destruct (digit_facts c0 Hc0) as (_ & ? & _).
  - now destruct (digit_facts p Hp) as (_ & ? & _).
Qed.

(** Canonical IPv4 text is a fixed point of the normalisation. *)
Lemma canonicalIPv4_dotted a b c d :
  0 <= a <= 255 -> 0 <= b <= 255 -> 0 <= c <= 255 -> 0 <= d <= 255 ->
  canonicalIPv4 (GoNet.dotted a b c d) = Some (GoNet.dotted a b c d).
Proof.
  intros Ha Hb Hc Hd. unfold canonicalIPv4.
  rewrite TrimSpace_dotted, ParseIP_dotted by assumption. reflexivity.
Qed.

(** Every byte of a parsed address is a byte. *)
Lemma parseIPv4Loop_range l prev fields val dl res :
  Forall (fun x => 0 <= x <= 255) fields -> 0 <= val <= 255 ->
  GoNet.parseIPv4Loop l prev fields val dl = Some res ->
  Forall (fun x => 0 <= x <= 255) res.
Proof.
  revert prev fields val dl.
  induction l as [|c l IH]; intros prev fields val dl Hf Hv Hp; cbn [GoNet.parseIPv4Loop] in Hp.
  - destruct (length fields <? 3)%nat; [discriminate |]. inversion Hp; subst.
    apply Forall_app. split; [exact Hf | now repeat constructor].
  - destruct (isDigit c) eqn:Hd.
    + destruct ((dl =? 1) && (val =? 0)); [discriminate |].
      destruct (255 <? val * 10 + (code c - 48)) eqn:Hle; [discriminate |].
      apply Z.ltb_ge in Hle. apply isDigit_code in Hd.
      eapply IH; [exact Hf | | exact Hp]. lia.
    + destruct (Ascii.eqb c "."); [| discriminate].
      destruct prev as [p|]; [| discriminate]. destruct l as [|c' l']; [discriminate |].
      destruct (Ascii.eqb p "."); [discriminate |].
      destruct (length fields =? 3)%nat; [discriminate |].
      eapply IH; [| | exact Hp]; [| lia].
      apply Forall_app. split; [exact Hf | now repeat constructor].
Qed.

Lemma hexValue_range c v : GoNet.hexValue c = Some v -> 0 <= v <= 15.
Proof.
  unfold GoNet.hexValue. cbn zeta.
  destruct ((48 <=? code c) && (code c <=? 57)) eqn:E1.
  { apply andb_true_iff in E1 as [H1 H2]. apply Z.leb_le in H1, H2. intros [= <-]. lia. }
  destruct ((97 <=? code c) && (code c <=? 102)) eqn:E2.
  { apply andb_true_iff in E2 as [H1 H2]. apply Z.leb_le in H1, H2. intros [= <-]. lia. }
  destruct ((65 <=? code c) && (code c <=? 70)) eqn:E3; [| discriminate].
  apply andb_true_iff in E3 as [H1 H2]. apply Z.leb_le in H1, H2. intros [= <-]. lia.
Qed.

Lemma hexField_range l acc off v o rest :
  0 <= acc <= 65535 -> GoNet.hexField l acc off = Some (v, o, rest) -> 0 <= v <= 65535.
Proof.
  revert acc off. induction l as [|c l IH]; intros acc off Ha Hh; cbn [GoNet.hexField] in Hh.
  - inversion Hh; subst. exact Ha.
  - destruct (GoNet.hexValue c) as [d|] eqn:Hd.
    + apply hexValue_range in Hd.
      destruct (3 <? off)%nat; [discriminate |].
      destruct (65535 <? Z.shiftl acc 4 + d) eqn:Hle; [discriminate |].
      apply Z.ltb_ge in Hle. eapply IH; [| exact Hh].
      rewrite Z.shiftl_mul_pow2 in * by lia. lia.
    + inversion Hh; subst. exact Ha.
Qed.

(** A field has four digits at most. *)
Lemma hexField_digits l acc off v o rest :
  (off <= 4)%nat -> GoNet.hexField l acc off = Some (v, o, rest) -> (o <= 4)%nat.
Proof.
  revert acc off. induction l as [|c l IH]; intros acc off Hoff Hh; cbn [GoNet.hexField] in Hh.
  - inversion Hh; subst. exact Hoff.
  - destruct (GoNet.hexValue c) as [d|].
    + destruct (3 <? off)%nat eqn:H3; [discriminate |]. apply Nat.ltb_ge in H3.
      destruct (65535 <? Z.shiftl acc 4 + d); [discriminate |].
      eapply IH; [| exact Hh]. lia.
    + inversion Hh; subst. exact Hoff.
Qed.

(** A group of more than four hexadecimal digits is refused, also when its
    value fits in 16 bits; four digits with leading zeros are accepted. *)
Example ParseIP_long_group :
  GoNet.ParseIP "::0ffff:1.2.3.4" = None
  /\ GoNet.ParseIP "00001::1" = None
  /\ GoNet.ParseIP "::ffff:1.2.3.4" = Some (GoNet.v4InV6 [1; 2; 3; 4])
  /\ GoNet.ParseIP "0001::1" = Some [0; 1; 0; 0; 0; 0; 0; 0; 0; 0; 0; 0; 0; 0; 0; 1].
Proof. repeat split; reflexivity. Qed.

Lemma finishIPv6_range s ip i e res :
  Forall (fun x => 0 <= x <= 255) ip ->
  GoNet.finishIPv6 s ip i e = Some res -> Forall (fun x => 0 <= x <= 255) res.
Proof.
  intros Hip. unfold GoNet.finishIPv6. destruct s; [| discriminate].
  destruct (i <? 16)%nat, e; try discriminate; intros [= <-].
  - repeat (apply Forall_app; split);
      [now apply Forall_take | apply Forall_replicate; lia | now apply Forall_take, Forall_drop].
  - now apply Forall_take.
Qed.

Lemma store_range ip i acc :
  Forall (fun x => 0 <= x <= 255) ip -> 0 <= acc <= 65535 ->
  Forall (fun x => 0 <= x <= 255) (<[S i := Z.land acc 255]> (<[i := Z.shiftr acc 8]> ip)).
Proof.
  intros Hip Ha. apply Forall_insert; [apply Forall_insert; [exact Hip |] |].
  - rewrite Z.shiftr_div_pow2 by lia. change (2 ^ 8) with 256.
    assert (acc / 256 < 256) by (apply Z.div_lt_upper_bound; lia).
    assert (0 <= acc / 256) by (apply Z.div_pos; lia). lia.
  - change 255 with (Z.ones 8) at 1 2. rewrite Z.land_ones by lia.
    change (2 ^ 8) with 256. pose proof (Z.mod_pos_bound acc 256). lia.
Qed.

Lemma parseIPv6Loop_range fuel s ip i e res :
  Forall (fun x => 0 <= x <= 255) ip ->
  GoNet.parseIPv6Loop fuel s ip i e = Some res -> Forall (fun x => 0 <= x <= 255) res.
Proof.
  revert s ip i e. induction fuel as [|fuel IH]; intros s ip i e Hip Hp.
  - cbn [GoNet.parseIPv6Loop] in Hp. destruct (16 <=? i)%nat; [| discriminate].
    eapply finishIPv6_range; eauto.
  - cbn [GoNet.parseIPv6Loop] in Hp. destruct (16 <=? i)%nat.
    { eapply finishIPv6_range; eauto. }
    destruct (GoNet.hexField s 0 0) as [[[acc off] rest]|] eqn:Hh; [| discriminate].
    assert (Hacc : 0 <= acc <= 65535) by (eapply hexField_range; [| exact Hh]; lia).
    destruct off as [|off]; [discriminate |].
    pose proof (store_range ip i acc Hip Hacc) as Hstore.
    destruct rest as [|c rest].
    { eapply finishIPv6_range; eauto. }
    destruct (Ascii.eqb c ".").
    + destruct (_ && _); [discriminate |]. destruct (16 <? i + 4)%nat; [discriminate |].
      destruct (GoNet.parseIPv4 s) as [ip4|] eqn:H4; [| discriminate].
      eapply finishIPv6_range; [| exact Hp].
      repeat (apply Forall_app; split);
        [now apply Forall_take | | now apply Forall_drop].
      eapply parseIPv4Loop_range; [| | exact H4]; [constructor | lia].
    + destruct (negb (Ascii.eqb c ":")); [discriminate |].
      destruct rest as [|c1 s1]; [discriminate |].
      destruct (Ascii.eqb c1 ":").
      * destruct e; [discriminate |]. destruct s1.
        -- eapply finishIPv6_range; eauto.
        -- eapply IH; eauto.
      * eapply IH; eauto.
Qed.

Lemma parseIPv6_range l ip zone :
  GoNet.parseIPv6 l = Some (ip, zone) -> Forall (fun x => 0 <= x <= 255) ip.
Proof.
  assert (Hz : Forall (fun x => 0 <= x <= 255) (replicate 16 0)) by (apply Forall_replicate; lia).
  assert (Hloop : forall s e zone0,
            (fun ip0 => (ip0, zone0)) <$> GoNet.parseIPv6Loop 8 s (replicate 16 0) 0 e = Some (ip, zone) ->
            Forall (fun x => 0 <= x <= 255) ip).
  { intros s e zone0 Hp. apply fmap_Some in Hp as (ip' & Hp & Heq). inversion Heq; subst.
    eapply parseIPv6Loop_range; [exact Hz | exact Hp]. }
  unfold GoNet.parseIPv6. destruct (GoNet.cutAt "%" l) as [s z].
  destruct z as [[|z0 z1]|]; [discriminate | |];
    (destruct s as [|c0 [|c1 s']]; [apply Hloop | apply Hloop |];
     destruct (Ascii.eqb c0 ":" && Ascii.eqb c1 ":"); [| apply Hloop];
     destruct s'; [| apply Hloop]; intros [= <- _]; exact Hz).
Qed.

Lemma ParseIP_range s ip : GoNet.ParseIP s = Some ip -> Forall (fun x => 0 <= x <= 255) ip.
Proof.
  unfold GoNet.ParseIP. generalize (bytes s) at 1 as whole. intros whole.
  induction (bytes s) as [|c l IH]; cbn [GoNet.parseAddr]; [discriminate |].
  destruct (Ascii.eqb c ".").
  { destruct (GoNet.parseIPv4 whole) as [ip4|] eqn:H4; [| discriminate].
    intros [= <-]. unfold GoNet.v4InV6.
    repeat (apply Forall_app; split); [apply Forall_replicate; lia | repeat constructor; lia |].
    eapply parseIPv4Loop_range; [| | exact H4]; [constructor | lia]. }
  destruct (Ascii.eqb c ":").
  { destruct (GoNet.parseIPv6 whole) as [[ip6 zone]|] eqn:H6; [| discriminate].
    destruct zone; [| discriminate]. intros [= <-]. eapply parseIPv6_range; eauto. }
  destruct (Ascii.eqb c "%"); [discriminate | exact IH].
Qed.

Lemma To4_range ip parsed4 :
  Forall (fun x => 0 <= x <= 255) ip -> GoNet.To4 ip = Some parsed4 ->
  Forall (fun x => 0 <= x <= 255) parsed4.
Proof.
  intros Hip. unfold GoNet.To4. destruct (length ip =? 4)%nat; [now intros [= <-] |].
  destruct (_ && _ && _ && _); [| discriminate]. intros [= <-]. now apply Forall_drop.
Qed.

Section Canonical.
Context `{Library}.
Variable w : World.

(** The text of an address that a service gave is canonical. *)
Lemma ServiceGivesIPv4_canonical svc t parsed4 :
  ServiceGivesIPv4 w svc t parsed4 ->
  canonicalIPv4 (GoNet.String4 parsed4) = Some (GoNet.String4 parsed4).
Proof.
  intros [_ (resp & body & parsed & _ & _ & Hp & H4)].
  pose proof (To4_range _ _ (ParseIP_range _ _ Hp) H4) as Hr.
  destruct (To4_four _ _ H4) as (a & b & c & d & ->).
  apply Forall_cons in Hr as [Ha Hr]. apply Forall_cons in Hr as [Hb Hr].
  apply Forall_cons in Hr as [Hc Hr]. apply Forall_cons in Hr as [Hd _].
  now apply canonicalIPv4_dotted.
Qed.

Lemma discoverIP_Ok_canonical services t ip t' :
  discoverIP w services t = (Ok ip, t') -> canonicalIPv4 ip = Some ip.
Proof.
  revert t. induction services as [|svc rest IH]; intros t Hd.
  - discriminate.
  - rewrite discoverIP_cons in Hd.
    destruct (queryService_cases w svc t) as [(t1 & Hf & Hq) | (p4 & Hg & Hq)]; rewrite Hq in Hd.
    + eauto.
    + inversion Hd; subst. eapply ServiceGivesIPv4_canonical; eauto.
Qed.

End Canonical.

(** C1. When the first N-1 services of the list fail (request that cannot be
    built, transport error, unreadable body, body that is no IP address, or
    an address that is not IPv4) and the N-th answers with a body that
    parses as an IPv4 address, [discoverIP] returns that address in dotted
    decimal, a text that the normalisation to canonical IPv4 text leaves
    as it is; the last event of its trace is the request to the N-th service,
    and the requests before it go to the first N-1 services in their order:
    none goes to a later service. *)
Theorem discoverIP_first_success `{Library} (w : World)
    (pre : list string) (svc : string) (post : list string) (t t' : trace) (parsed4 : GoNet.IP) :
  AllFail w pre t t' ->
  ServiceGivesIPv4 w svc t' parsed4 ->
  discoverIP w (pre ++ svc :: post) t
    = (Ok (GoNet.String4 parsed4), t' ++ [EvDo (getRequest svc)])
  /\ (exists a b c d, parsed4 = [a; b; c; d] /\ GoNet.String4 parsed4 = GoNet.dotted a b c d)
  /\ canonicalIPv4 (GoNet.String4 parsed4) = Some (GoNet.String4 parsed4)
  /\ (exists d, t' = t ++ d /\ sublist (requestsOf d) (getRequest <$> pre)).
Proof.
  intros Hpre Hsvc. split; [| split; [| split]].
  - rewrite (discoverIP_skip _ _ _ _ _ Hpre), discoverIP_cons.
    now rewrite (queryService_gives _ _ _ _ Hsvc).
  - destruct Hsvc as [_ (resp & body & parsed & _ & _ & _ & H4)].
    destruct (To4_four _ _ H4) as (a & b & c & d & ->). exists a, b, c, d. split; reflexivity.
  - eapply ServiceGivesIPv4_canonical; eauto.
  - destruct (AllFail_trace _ _ _ _ Hpre) as (d & Hd & Hs & _). exists d. split; assumption.
Qed.

(** The run of the repository's test: a server that answers 500, one that
    answers [not-an-ip], one that answers with an address. *)
Lemma discoverIP_first_success_witness :
  discoverIP (H := exampleLibrary) (exampleWorld "203.0.113.10" 200 "200 OK" "none" [])
    (["http://invalid.test"; "http://bad-ip.test"] ++ "http://valid.test" :: ["http://later.test"]) []
  = (Ok "203.0.113.10",
     [EvDo (getRequest "http://invalid.test");
      EvLog "invalid IP %q from %s" [VStr ""; VStr "http://invalid.test"];
      EvDo (getRequest "http://bad-ip.test");
      EvLog "invalid IP %q from %s" [VStr "not-an-ip"; VStr "http://bad-ip.test"];
      EvDo (getRequest "http://valid.test")]).
Proof.
  set (W := exampleWorld "203.0.113.10" 200 "200 OK" "none" []).
  assert (Hpre : AllFail (H := exampleLibrary) W ["http://invalid.test"; "http://bad-ip.test"] []
            [EvDo (getRequest "http://invalid.test");
             EvLog "invalid IP %q from %s" [VStr ""; VStr "http://invalid.test"];
             EvDo (getRequest "http://bad-ip.test");
             EvLog "invalid IP %q from %s" [VStr "not-an-ip"; VStr "http://bad-ip.test"]]).
  { eapply AllFail_cons.
    - eapply (fails_parse (H := exampleLibrary) W "http://invalid.test" []); reflexivity.
    - eapply AllFail_cons.
      + eapply (fails_parse (H := exampleLibrary) W "http://bad-ip.test"); reflexivity.
      + apply AllFail_nil. }
  assert (Hsvc : ServiceGivesIPv4 (H := exampleLibrary) W "http://valid.test"
            [EvDo (getRequest "http://invalid.test");
             EvLog "invalid IP %q from %s" [VStr ""; VStr "http://invalid.test"];
             EvDo (getRequest "http://bad-ip.test");
             EvLog "invalid IP %q from %s" [VStr "not-an-ip"; VStr "http://bad-ip.test"]]
            [203; 0; 113; 10]).
  { split; [reflexivity |]. eexists _, _, _. repeat split; reflexivity. }
  exact (proj1 (discoverIP_first_success W _ _ ["http://later.test"] _ _ _ Hpre Hsvc)).
Defined.

(** C4. When every service of the list fails, [discoverIP] returns no
    address but one error, built from a fixed text that names no service;
    and that aggregate error is the only error [discoverIP] ever returns. *)
Theorem discoverIP_exhausted `{Library} (w : World) (services : list string) (t t' : trace) :
  AllFail w services t t' ->
  discoverIP w services t = (Err errDiscover, t')
  /\ errDiscover = ErrorsNew "unable to discover IPv4 address from configured services"
  /\ (forall services0 t0 e t1, discoverIP w services0 t0 = (Err e, t1) -> e = errDiscover).
Proof.
  intros Hall. split; [| split].
  - now apply discoverIP_AllFail.
  - reflexivity.
  - intros services0 t0 e t1 Hd. now destruct (discoverIP_Err _ _ _ _ _ Hd).
Qed.

Lemma discoverIP_exhausted_witness :
  discoverIP (H := exampleLibrary) (exampleWorld "203.0.113.10" 200 "200 OK" "none" [])
    ["http://invalid.test"; "http://bad-ip.test"] []
  = (Err errDiscover,
     [EvDo (getRequest "http://invalid.test");
      EvLog "invalid IP %q from %s" [VStr ""; VStr "http://invalid.test"];
      EvDo (getRequest "http://bad-ip.test");
      EvLog "invalid IP %q from %s" [VStr "not-an-ip"; VStr "http://bad-ip.test"]]).
Proof.
  set (W := exampleWorld "203.0.113.10" 200 "200 OK" "none" []).
  refine (proj1 (discoverIP_exhausted W _ _ _ _)).
  eapply AllFail_cons.
  - eapply (fails_parse (H := exampleLibrary) W "http://invalid.test" []); reflexivity.
  - eapply AllFail_cons.
    + eapply (fails_parse (H := exampleLibrary) W "http://bad-ip.test"); reflexivity.
    + apply AllFail_nil.
Defined.

(** C9. For the empty list of services [discoverIP] leaves the trace as it
    was (no request is sent) and returns the aggregate error, the same one
    as when every service of a list fails. *)
Theorem discoverIP_empty `{Library} (w : World) (t : trace) :
  discoverIP w [] t = (Err errDiscover, t)
  /\ requestsOf (snd (discoverIP w [] t)) = requestsOf t
  /\ (forall services t0 t1, AllFail w services t0 t1 ->
        fst (discoverIP w services t0) = fst (discoverIP w [] t)).
Proof.
  split; [reflexivity | split; [reflexivity |]].
  intros services t0 t1 Hall. now rewrite (discoverIP_AllFail _ _ _ _ Hall).
Qed.

(** ** The literals [::ffff:a.b.c.d] *)

Lemma hexField_octet (n : nat) :
  (n < 256)%nat ->
  forall rest, exists v k,
    GoNet.hexField (bytes (GoStrconv.Itoa (Z.of_nat n)) ++ "."%char :: rest) 0 0
    = Some (v, S k, "."%char :: rest).
Proof.
  intros Hn.
  do 256 (destruct n as [|n]; [intros; eexists _, _; reflexivity |]).
  lia.
Qed.

Lemma cutAt_none sep l : Forall (fun c => Ascii.eqb c sep = false) l -> GoNet.cutAt sep l = (l, None).
Proof.
  induction 1 as [|c l Hc _ IH]; [reflexivity |]. cbn. now rewrite Hc, IH.
Qed.

Lemma dotted_no_percent a b c d :
  Forall (fun x => Ascii.eqb x "%" = false) (bytes (GoNet.dotted a b c d)).
Proof.
  rewrite bytes_dotted.
  repeat first [apply Forall_app; split | apply Forall_cons; split; [reflexivity |]];
    (eapply Forall_impl;
     [apply Itoa_digits | intros x Hx; now destruct (digit_facts x Hx) as (_ & _ & _ & _ & ?)]).
Qed.

(** A round of the loop of [parseIPv6] that meets an embedded IPv4 address. *)
Lemma parseIPv6Loop_embedded fuel s ip i e acc k rest ip4 :
  (i + 4 <= 16)%nat ->
  GoNet.hexField s 0 0 = Some (acc, S k, "."%char :: rest) ->
  GoNet.parseIPv4 s = Some ip4 ->
  GoNet.parseIPv6Loop (S fuel) s ip i (Some e)
  = GoNet.finishIPv6 [] (take i ip ++ ip4 ++ drop (i + 4) ip) (i + 4) (Some e).
Proof.
  intros Hi Hh H4. cbn [GoNet.parseIPv6Loop]. rewrite Hh, H4.
  destruct (16 <=? i)%nat eqn:E1; [apply Nat.leb_le in E1; lia |].
  change (Ascii.eqb "." ".") with true. cbv iota. cbn [andb].
  destruct (16 <? i + 4)%nat eqn:E2; [apply Nat.ltb_lt in E2; lia | reflexivity].
Qed.

(** Every text [::ffff:a.b.c.d] is an IPv4-mapped literal of the address
    [a.b.c.d]. *)
Lemma mapped_literal a b c d :
  0 <= a <= 255 -> 0 <= b <= 255 -> 0 <= c <= 255 -> 0 <= d <= 255 ->
  IPv4MappedLiteral ("::ffff:" +:+ GoNet.dotted a b c d) a b c d.
Proof.
  intros Ha Hb Hc Hd. split.
  { rewrite bytes_app. apply elem_of_app. left. apply list_elem_of_In. cbn. auto. }
  unfold GoNet.ParseIP. rewrite bytes_app.
  change (bytes "::ffff:") with [":"; ":"; "f"; "f"; "f"; "f"; ":"]%char.
  cbn [app GoNet.parseAddr]. change (Ascii.eqb ":" ".") with false.
  change (Ascii.eqb ":" ":") with true. cbv iota.
  unfold GoNet.parseIPv6.
  rewrite cutAt_none.
  2:{ repeat (apply Forall_cons; split; [reflexivity |]). apply dotted_no_percent. }
  cbv iota beta. cbn [default].
  change (Ascii.eqb ":" ":" && Ascii.eqb ":" ":") with true. cbv iota.
  pose proof (parseIPv4_dotted a b c d Ha Hb Hc Hd) as H4.
  assert (Hh : exists v k,
            GoNet.hexField (bytes (GoNet.dotted a b c d)) 0 0
            = Some (v, S k, "."%char :: bytes (GoStrconv.Itoa b) ++ "."%char ::
                      bytes (GoStrconv.Itoa c) ++ "."%char :: bytes (GoStrconv.Itoa d))).
  { rewrite bytes_dotted.
    destruct (hexField_octet (Z.to_nat a) ltac:(lia)
                (bytes (GoStrconv.Itoa b) ++ "."%char ::
                 bytes (GoStrconv.Itoa c) ++ "."%char :: bytes (GoStrconv.Itoa d)))
      as (v & k & Hv).
    rewrite Z2Nat.id in Hv by lia. eauto. }
  destruct Hh as (v & k & Hh).
  pose proof (Itoa_nonempty a) as Hne. pose proof (Itoa_digits a) as Hdig.
  destruct (bytes (GoNet.dotted a b c d)) as [|c1 s1] eqn:Ed.
  { rewrite bytes_dotted in Ed. destruct (bytes (GoStrconv.Itoa a)); [contradiction | discriminate]. }
  assert (Hc1 : Ascii.eqb c1 ":" = false).
  { rewrite bytes_dotted in Ed. destruct (bytes (GoStrconv.Itoa a)) as [|x l]; [contradiction |].
    inversion Ed; subst. apply Forall_cons in Hdig as [Hx _].
    now destruct (digit_facts c1 Hx) as (_ & _ & _ & ? & _). }
  cbn [app].
  change (GoNet.parseIPv6Loop 8 ("f" :: "f" :: "f" :: "f" :: ":" :: c1 :: s1)%char (replicate 16 0) 0
            (Some 0%nat))
    with (if Ascii.eqb c1 ":" then @None (list Z)
          else GoNet.parseIPv6Loop 7 (c1 :: s1)
                 (<[1%nat := 255]> (<[0%nat := 255]> (replicate 16 0))) 2 (Some 0%nat)).
  rewrite Hc1.
  erewrite (parseIPv6Loop_embedded 6 (c1 :: s1) _ 2 0 v k _ [a; b; c; d]);
    [reflexivity | lia | exact Hh | exact H4].
Qed.

(** C10. A service whose trimmed response body is an IPv4-mapped IPv6
    literal, such as [::ffff:203.0.113.10] or any other [::ffff:a.b.c.d],
    counts as a success:
    [discoverIP] returns the dotted-decimal form of the embedded IPv4
    address, a text that differs from the trimmed body and from the body. *)
Theorem discoverIP_v4mapped `{Library} (w : World)
    (svc : string) (rest : list string) (t : trace) (resp : Response) (body : string) (a b c d : Z) :
  urlParse svc = None ->
  roundTrip w t (getRequest svc) = Resp resp ->
  RespBody resp = Complete body ->
  IPv4MappedLiteral (GoStrings.TrimSpace body) a b c d ->
  discoverIP w (svc :: rest) t = (Ok (GoNet.dotted a b c d), t ++ [EvDo (getRequest svc)])
  /\ GoNet.dotted a b c d <> GoStrings.TrimSpace body
  /\ GoNet.dotted a b c d <> body
  /\ IPv4MappedLiteral "::ffff:203.0.113.10" 203 0 113 10
  /\ GoNet.dotted 203 0 113 10 = "203.0.113.10"
  /\ (forall a0 b0 c0 d0,
        0 <= a0 <= 255 -> 0 <= b0 <= 255 -> 0 <= c0 <= 255 -> 0 <= d0 <= 255 ->
        IPv4MappedLiteral ("::ffff:" +:+ GoNet.dotted a0 b0 c0 d0) a0 b0 c0 d0).
Proof.
  intros Hu Hr Hb [Hcolon Hparse].
  assert (Hg : ServiceGivesIPv4 w svc t [a; b; c; d]).
  { split; [exact Hu |]. exists resp, body, (GoNet.v4InV6 [a; b; c; d]).
    repeat split; first [assumption | reflexivity]. }
  split; [| split; [| split; [| split; [| split]]]].
  - rewrite discoverIP_cons, (queryService_gives _ _ _ _ Hg). reflexivity.
  - intros Heq. rewrite <- Heq in Hcolon. now apply dotted_no_colon in Hcolon.
  - intros Heq. apply TrimSpace_elem in Hcolon. rewrite <- Heq in Hcolon.
    now apply dotted_no_colon in Hcolon.
  - split; [| reflexivity]. cbn. rewrite !elem_of_cons. auto.
  - reflexivity.
  - apply mapped_literal.
Qed.

Lemma discoverIP_v4mapped_witness :
  discoverIP (H := exampleLibrary) (exampleWorld "  ::ffff:203.0.113.10 " 200 "200 OK" "none" [])
    ["http://valid.test"; "http://later.test"] []
  = (Ok "203.0.113.10", [EvDo (getRequest "http://valid.test")]).
Proof.
  refine (proj1 (discoverIP_v4mapped (H := exampleLibrary)
            (exampleWorld "  ::ffff:203.0.113.10 " 200 "200 OK" "none" [])
            "http://valid.test" ["http://later.test"] [] _ "  ::ffff:203.0.113.10 " 203 0 113 10
            eq_refl eq_refl eq_refl _)).
  split; [| reflexivity]. apply list_elem_of_In. vm_compute. left. reflexivity.
Defined.

(** A body with a group of five hexadecimal digits is no IP address: the
    service fails and the search goes on. *)
Example discoverIP_long_group :
  discoverIP (H := exampleLibrary) (exampleWorld "::0ffff:1.2.3.4" 200 "200 OK" "none" [])
    ["http://valid.test"; "http://other.test"] []
  = (Err errDiscover,
     [EvDo (getRequest "http://valid.test");
      EvLog "invalid IP %q from %s" [VStr "::0ffff:1.2.3.4"; VStr "http://valid.test"];
      EvDo (getRequest "http://other.test");
      EvLog "invalid IP %q from %s" [VStr "none"; VStr "http://other.test"]]).
Proof. reflexivity. Qed.

(** ** Configuration *)

Section LoadConfig.
Context `{Library}.

Lemma streq_true a b : streq a b = true <-> a = b.
Proof. apply String.eqb_eq. Qed.

Lemma streq_false a b : streq a b = false <-> a <> b.
Proof. apply String.eqb_neq. Qed.

Lemma parseTTL_Ok v ttl :
  parseTTL v = Ok ttl -> 60 <= ttl /\ (v = "" -> ttl = 300).
Proof.
  unfold parseTTL. destruct (streq v "") eqn:Ev.
  - intros [= <-]. unfold defaultTTL. split; [lia | reflexivity].
  - apply streq_false in Ev. destruct (GoStrconv.Atoi v) as [n|]; [| discriminate].
    destruct (n <? 60) eqn:En; [discriminate |]. intros [= <-].
    apply Z.ltb_ge in En. split; [lia | contradiction].
Qed.

Lemma parseTTL_Err v :
  (exists e, parseTTL v = Err e) <-> (v <> "" /\ forall ttl, GoStrconv.Atoi v = Some ttl -> ttl < 60).
Proof.
  unfold parseTTL. destruct (streq v "") eqn:Ev.
  - apply streq_true in Ev. split; [intros [e [=]] | intros [Hne _]; contradiction].
  - apply streq_false in Ev. destruct (GoStrconv.Atoi v) as [n|].
    + destruct (n <? 60) eqn:En.
      * apply Z.ltb_lt in En. split; [| eauto]. intros _. split; [assumption |].
        intros ttl [= <-]. assumption.
      * apply Z.ltb_ge in En. split; [intros [e [=]] |].
        intros [_ Hlt]. specialize (Hlt n eq_refl). lia.
    + split; [| eauto]. intros _. split; [assumption | discriminate].
Qed.

Lemma parseProxied_Ok v p : parseProxied v = Ok p -> v = "" -> p = false.
Proof.
  intros Hp ->. unfold parseProxied in Hp. cbn in Hp. now inversion Hp.
Qed.

Lemma parseProxied_Err v :
  (exists e, parseProxied v = Err e) <->
  (ToLower v <> "" /\ ToLower v <> "false" /\ ToLower v <> "true").
Proof.
  unfold parseProxied.
  destruct (streq (ToLower v) "") eqn:E1; cbn [orb].
  { apply streq_true in E1. split; [intros [e [=]] | intros [Hne _]; contradiction]. }
  destruct (streq (ToLower v) "false") eqn:E2.
  { apply streq_true in E2. split; [intros [e [=]] | intros (_ & Hne & _); contradiction]. }
  destruct (streq (ToLower v) "true") eqn:E3.
  { apply streq_true in E3. split; [intros [e [=]] | intros (_ & _ & Hne); contradiction]. }
  apply streq_false in E1, E2, E3. split; [auto | eauto].
Qed.

Lemma parseIPServices_nonempty v : parseIPServices v <> [].
Proof.
  unfold parseIPServices. destruct (streq v ""); [discriminate |].
  match goal with |- context [length ?l] => destruct l as [|x l'] eqn:El end; [discriminate |].
  cbn. discriminate.
Qed.

Lemma parseIPServices_default v : v = "" -> parseIPServices v = defaultIPServices.
Proof. now intros ->. Qed.
End LoadConfig.

Section LoadConfigMain.
Context `{Library}.

(** [loadConfig] either refuses an environment that breaks a rule, or
    accepts one that breaks none and builds the configuration from its
    normalised values. *)
Lemma loadConfig_cases env t :
  (exists e t', loadConfig env t = (Err e, t') /\ InvalidEnv env) \/
  (exists ttl proxied t',
     loadConfig env t =
       (Ok (Config.mk (envValue env envAuthEmail) (envMethod env) (envValue env envAuthKey)
              (envValue env envZoneID) (envValue env envRecordName) (envType env)
              ttl proxied (parseIPServices (envValue env envIPServices))), t') /\
     parseTTL (envValue env envTTL) = Ok ttl /\
     parseProxied (envValue env envProxied) = Ok proxied /\
     ~ InvalidEnv env).
Proof.
  unfold loadConfig, bindR, bind, ret.
  fold (envValue env envAuthEmail) (envValue env envAuthMethod) (envValue env envAuthKey)
       (envValue env envZoneID) (envValue env envRecordName) (envValue env envRecordType)
       (envValue env envTTL) (envValue env envProxied) (envValue env envIPServices).
  fold (envMethod env) (envType env).
  destruct (parseTTL (envValue env envTTL)) as [ttl | e] eqn:Ettl.
  2:{ left. exists e, t. split; [reflexivity |]. left. apply parseTTL_Err. eauto. }
  destruct (parseProxied (envValue env envProxied)) as [proxied | e] eqn:Eprox.
  2:{ left. exists e, t. split; [reflexivity |]. right; left. apply parseProxied_Err. eauto. }
  assert (HnT : ~ (envValue env envTTL <> "" /\
                   forall ttl, GoStrconv.Atoi (envValue env envTTL) = Some ttl -> ttl < 60)).
  { intros Hbad. apply parseTTL_Err in Hbad as [e He]. congruence. }
  assert (HnP : ~ (ToLower (envValue env envProxied) <> "" /\
                   ToLower (envValue env envProxied) <> "false" /\
                   ToLower (envValue env envProxied) <> "true")).
  { intros Hbad. apply parseProxied_Err in Hbad as [e He]. congruence. }
  unfold checkAuth, Printf, emit, bind, ret.
  destruct (streq (envValue env envAuthKey) "") eqn:Ekey.
  { left. eexists _, t. split; [reflexivity |]. do 2 right; left. now apply streq_true. }
  assert (Hvalid : envValue env envZoneID <> "" -> envValue env envRecordName <> "" ->
            envType env = "A" ->
            (envMethod env = "token" \/ (envMethod env = "global" /\ envValue env envAuthEmail <> "")) ->
            ~ InvalidEnv env).
  { intros Hz Hn Ht Hm [Hbad | [Hbad | [Hbad | [Hbad | [Hbad | [Hbad | [Hbad | Hbad]]]]]]].
    - exact (HnT Hbad).
    - exact (HnP Hbad).
    - apply streq_false in Ekey. contradiction.
    - destruct Hbad as [H1 H2]. destruct Hm as [Hm | [Hm _]]; contradiction.
    - destruct Hbad as [H1 H2]. destruct Hm as [Hm | [_ Hm]]; [| contradiction].
      rewrite Hm in H1. discriminate.
    - contradiction.
    - contradiction.
    - contradiction. }
  destruct (streq (envMethod env) "token") eqn:Etok.
  - apply streq_true in Etok.
    destruct (streq (envValue env envAuthEmail) "") eqn:Eemail;
      (destruct (streq (envValue env envZoneID) "") eqn:Ezone;
         [left; eexists _, _; split; [reflexivity |]; do 5 right; left; now apply streq_true |];
       destruct (streq (envValue env envRecordName) "") eqn:Ename;
         [left; eexists _, _; split; [reflexivity |]; do 6 right; left; now apply streq_true |];
       destruct (streq (envType env) "A") eqn:Etype; cbn [negb];
         [| left; eexists _, _; split; [reflexivity |]; do 7 right; now apply streq_false];
       right; eexists ttl, proxied, _; split; [reflexivity |];
       split; [reflexivity |]; split; [reflexivity |];
       apply streq_false in Ezone, Ename; apply streq_true in Etype;
       apply Hvalid; auto).
  - apply streq_false in Etok.
    destruct (streq (envMethod env) "global") eqn:Eglob.
    + apply streq_true in Eglob.
      destruct (streq (envValue env envAuthEmail) "") eqn:Eemail.
      * left. eexists _, t. split; [reflexivity |]. do 4 right; left.
        split; [assumption | now apply streq_true].
      * apply streq_false in Eemail.
        destruct (streq (envValue env envZoneID) "") eqn:Ezone;
         [left; eexists _, _; split; [reflexivity |]; do 5 right; left; now apply streq_true |];
        destruct (streq (envValue env envRecordName) "") eqn:Ename;
         [left; eexists _, _; split; [reflexivity |]; do 6 right; left; now apply streq_true |];
        destruct (streq (envType env) "A") eqn:Etype; cbn [negb];
         [| left; eexists _, _; split; [reflexivity |]; do 7 right; now apply streq_false];
        right; eexists ttl, proxied, _; split; [reflexivity |];
        split; [reflexivity |]; split; [reflexivity |];
        apply streq_false in Ezone, Ename; apply streq_true in Etype;
        apply Hvalid; auto.
    + apply streq_false in Eglob.
      left. eexists _, t. split; [reflexivity |]. do 3 right; left. split; assumption.
Qed.

Lemma TrimSpace_empty : GoStrings.TrimSpace "" = "".
Proof. reflexivity. Qed.

Lemma envValue_unset env key : env !! key = None -> envValue env key = "".
Proof. intros Hk. unfold envValue, Getenv. now rewrite Hk. Qed.

End LoadConfigMain.

(** C8. A configuration that [loadConfig] returns satisfies the invariant of
    the data model: TTL at least 60 (300 when [CF_TTL] is unset or blank),
    proxied false when [CF_PROXIED] is unset or blank, a non-empty list of
    IP services (the three default endpoints when [CF_IP_SERVICES] is unset
    or blank), record type [A], non-empty key, zone and record name, auth
    method [token] or [global], and a non-empty email under [global].
    And [loadConfig] returns an error exactly for the environments that
    break one of its rules. *)
Theorem loadConfig_invariant `{Library} (env : gmap string string) (t : trace) :
  (forall cfg t', loadConfig env t = (Ok cfg, t') ->
     validConfig cfg
     /\ (envValue env envTTL = "" -> Config.TTL cfg = 300)
     /\ (envValue env envProxied = "" -> Config.Proxied cfg = false)
     /\ (envValue env envIPServices = "" ->
           Config.IPServices cfg =
             ["https://api.ipify.org"; "https://ipv4.icanhazip.com"; "https://ipinfo.io/ip"]))
  /\ (forall key, env !! key = None -> envValue env key = "")
  /\ ((exists e t', loadConfig env t = (Err e, t')) <-> InvalidEnv env).
Proof.
  destruct (loadConfig_cases env t) as [(e & t1 & He & Hi) | (ttl & proxied & t1 & Hok & Httl & Hprox & Hv)].
  - split; [| split].
    + intros cfg t' Hl. congruence.
    + apply envValue_unset.
    + split; [intros _; exact Hi | intros _; eauto].
  - split; [| split].
    + intros cfg t' Hl. rewrite Hok in Hl. inversion Hl; subst cfg t'. clear Hl.
      destruct (parseTTL_Ok _ _ Httl) as [H60 Hdef].
      split; [| split; [| split]].
      * unfold validConfig; cbn. unfold InvalidEnv in Hv.
        pose proof (parseIPServices_nonempty (envValue env envIPServices)) as Hne.
        split; [exact H60 |]. split; [exact Hne |].
        split; [destruct (string_dec (envType env) "A"); [assumption | exfalso; apply Hv; do 7 right; assumption] |].
        split; [intros Hk; apply Hv; do 2 right; left; exact Hk |].
        split; [intros Hk; apply Hv; do 5 right; left; exact Hk |].
        split; [intros Hk; apply Hv; do 6 right; left; exact Hk |].
        split.
        -- destruct (string_dec (envMethod env) "token") as [Ht | Ht]; [left; exact Ht |].
           destruct (string_dec (envMethod env) "global") as [Hg | Hg]; [right; exact Hg |].
           exfalso. apply Hv. do 3 right; left. split; assumption.
        -- intros Hg He. apply Hv. do 4 right; left. split; assumption.
      * exact Hdef.
      * cbn. now apply parseProxied_Ok.
      * cbn. apply parseIPServices_default.
    + apply envValue_unset.
    + split; [| intros Hi; contradiction]. intros (e & t' & He). congruence.
Qed.

(** The environments of the repository's configuration tests. *)
Example loadConfig_success_token :
  loadConfig (H := exampleLibrary)
    (<[envAuthKey := "token-value"]> (<[envZoneID := "zone-id"]> (<[envRecordName := "example.com"]>
     (<[envAuthMethod := "TOKEN"]> (<[envAuthEmail := "user@example.com"]> (<[envTTL := "600"]>
     (<[envProxied := "true"]> (<[envIPServices := "https://service.one, https://service.two"]> ∅))))))))
    []
  = (Ok (Config.mk "user@example.com" "token" "token-value" "zone-id" "example.com" "A" 600 true
           ["https://service.one"; "https://service.two"]), []).
Proof. vm_compute. reflexivity. Qed.

Example loadConfig_defaults :
  loadConfig (H := exampleLibrary)
    (<[envAuthKey := "token-value"]> (<[envZoneID := "zone-id"]> (<[envRecordName := "example.com"]> ∅)))
    []
  = (Ok (Config.mk "" "token" "token-value" "zone-id" "example.com" "A" 300 false defaultIPServices),
     [EvLog "warning: %s is empty; API tokens typically do not require it" [VStr "CF_AUTH_EMAIL"]]).
Proof. vm_compute. reflexivity. Qed.

Example loadConfig_missing_auth_key :
  loadConfig (H := exampleLibrary)
    (<[envAuthKey := ""]> (<[envZoneID := "zone-id"]> (<[envRecordName := "example.com"]> ∅))) []
  = (Err (Errorf "%s is required" [AStr "CF_AUTH_KEY"]), []).
Proof. vm_compute. reflexivity. Qed.

Example loadConfig_low_ttl :
  loadConfig (H := exampleLibrary)
    (<[envAuthKey := "k"]> (<[envZoneID := "z"]> (<[envRecordName := "n"]> (<[envTTL := "59"]> ∅)))) []
  = (Err (Errorf "invalid %s value %q" [AStr "CF_TTL"; AStr "59"]), []).
Proof. vm_compute. reflexivity. Qed.

(** ** Traces *)

Lemma extends_refl P t : extends P t t.
Proof. exists []. split; [now rewrite app_nil_r | constructor]. Qed.

Lemma extends_trans P t1 t2 t3 : extends P t1 t2 -> extends P t2 t3 -> extends P t1 t3.
Proof.
  intros (d1 & -> & H1) (d2 & -> & H2). exists (d1 ++ d2).
  split; [now rewrite app_assoc | now apply Forall_app].
Qed.

Lemma extends_snoc (P : event -> Prop) t e : P e -> extends P t (t ++ [e]).
Proof. intros He. exists [e]. split; [reflexivity | now repeat constructor]. Qed.

Lemma extends_step (P : event -> Prop) t t' e : extends P t t' -> P e -> extends P t (t' ++ [e]).
Proof. intros Ht He. eapply extends_trans; [exact Ht | now apply extends_snoc]. Qed.

Lemma extends_weaken (P Q : event -> Prop) t t' :
  (forall e, P e -> Q e) -> extends P t t' -> extends Q t t'.
Proof. intros HPQ (d & -> & Hd). exists d. split; [reflexivity |]. eapply Forall_impl; eauto. Qed.

Lemma extends_updatesIn (P : event -> Prop) t t' :
  (forall e, P e -> isUpdate e = false) -> extends P t t' -> updatesIn t' = updatesIn t.
Proof.
  intros HP (d & -> & Hd). rewrite updatesIn_app.
  assert (Hnil : updatesIn d = []).
  { induction Hd as [|e d He _ IH]; [reflexivity |]. unfold updatesIn in *. cbn.
    now rewrite (HP e He). }
  now rewrite Hnil, app_nil_r.
Qed.

Lemma discoveryEvent_not_update e : discoveryEvent e -> isUpdate e = false.
Proof. destruct e; cbn; try tauto. now intros [-> _]. Qed.

Lemma isLog_not_update e : isLog e -> isUpdate e = false.
Proof. destruct e; cbn; tauto. Qed.

Section DriverTraces.
Context `{Library}.
Variable w : World.

Lemma ServiceFails_extends svc t t' : ServiceFails w svc t t' -> extends discoveryEvent t t'.
Proof.
  intros Hf. destruct Hf; [apply extends_refl | ..];
    (eexists; split; [reflexivity |]; repeat constructor).
Qed.

(** [discoverIP] only logs and sends [GET] requests. *)
Lemma discoverIP_extends services t :
  extends discoveryEvent t (snd (discoverIP w services t)).
Proof.
  revert t. induction services as [|svc rest IH]; intros t.
  - apply extends_refl.
  - rewrite discoverIP_cons.
    destruct (queryService_cases w svc t) as [(t1 & Hf & Hq) | (p4 & _ & Hq)]; rewrite Hq.
    + eapply extends_trans; [eapply ServiceFails_extends; eauto | apply IH].
    + cbn. apply extends_snoc. cbn. auto.
Qed.

(** An address that [discoverIP] returns is dotted decimal. *)
Lemma discoverIP_Ok_dotted services t ip t' :
  discoverIP w services t = (Ok ip, t') -> exists a b c d, ip = GoNet.dotted a b c d.
Proof.
  revert t. induction services as [|svc rest IH]; intros t Hd.
  - discriminate.
  - rewrite discoverIP_cons in Hd.
    destruct (queryService_cases w svc t) as [(t1 & Hf & Hq) | (p4 & Hg & Hq)]; rewrite Hq in Hd.
    + eauto.
    + inversion Hd; subst. destruct Hg as [_ (resp & body & parsed & _ & _ & _ & H4)].
      destruct (To4_four _ _ H4) as (a & b & c & d & ->). exists a, b, c, d. reflexivity.
Qed.

(** [loadConfig] only logs. *)
Lemma loadConfig_extends env t : extends isLog t (snd (loadConfig env t)).
Proof.
  unfold loadConfig, bindR, bind, ret, checkAuth, Printf, emit, bind, ret.
  repeat case_match; cbn; simplify_eq; cbn;
    first [apply extends_refl | apply extends_snoc; exact I].
Qed.

End DriverTraces.

(** ** The raw variant, step by step *)

Section RawSteps.
Context `{Library}.
Variable w : World.

Lemma listRequest_get cfg :
  Method (Raw.listRequest cfg) = MethodGet /\ Body (Raw.listRequest cfg) = None
  /\ URL (Raw.listRequest cfg) = Raw.listEndpoint cfg.
Proof.
  unfold Raw.listRequest, Raw.applyAuthHeaders, HeaderSet.
  repeat case_match; cbn; auto.
Qed.

Lemma updateRequest_patch cfg recordID newIP :
  Method (Raw.updateRequest cfg recordID newIP) = MethodPatch
  /\ Body (Raw.updateRequest cfg recordID newIP) = Some (Raw.updateBody cfg newIP)
  /\ URL (Raw.updateRequest cfg recordID newIP) = Raw.recordEndpoint cfg recordID.
Proof.
  unfold Raw.updateRequest, Raw.applyAuthHeaders, HeaderSet.
  repeat case_match; cbn; auto.
Qed.

Lemma fetchDNSRecord_eq cfg t :
  Raw.fetchDNSRecord w cfg t =
    match urlParse (Raw.listEndpoint cfg) with
    | Some e => (Err e, t)
    | None => (fetchOutcome cfg (roundTrip w t (Raw.listRequest cfg)), t ++ [EvDo (Raw.listRequest cfg)])
    end.
Proof.
  unfold Raw.fetchDNSRecord, bindR, bind, ret, NewRequest, Do, fetchOutcome.
  destruct (urlParse (Raw.listEndpoint cfg)); [reflexivity |].
  fold (Raw.listRequest cfg).
  destruct (roundTrip w t (Raw.listRequest cfg)) as [e | resp]; [reflexivity |].
  repeat case_match; reflexivity.
Qed.

Lemma updateDNSRecord_eq cfg recordID newIP t :
  Raw.updateDNSRecord w cfg recordID newIP t =
    match urlParse (Raw.recordEndpoint cfg recordID) with
    | Some e => (Err e, t)
    | None => (updateOutcome (roundTrip w t (Raw.updateRequest cfg recordID newIP)),
               t ++ [EvDo (Raw.updateRequest cfg recordID newIP)])
    end.
Proof.
  unfold Raw.updateDNSRecord, bindR, bind, ret, NewRequest, Do, updateOutcome.
  destruct (urlParse (Raw.recordEndpoint cfg recordID)); [reflexivity |].
  fold (Raw.updateRequest cfg recordID newIP).
  destruct (roundTrip w t (Raw.updateRequest cfg recordID newIP)) as [e | resp]; [reflexivity |].
  repeat case_match; reflexivity.
Qed.

Lemma fetchDNSRecord_extends cfg t :
  extends discoveryEvent t (snd (Raw.fetchDNSRecord w cfg t)).
Proof.
  rewrite fetchDNSRecord_eq. destruct (urlParse _); cbn; [apply extends_refl |].
  apply extends_snoc. cbn. destruct (listRequest_get cfg) as (-> & -> & _). auto.
Qed.

Lemma updateDNSRecord_extends cfg recordID newIP t :
  extends (rawEvent cfg) t (snd (Raw.updateDNSRecord w cfg recordID newIP t)).
Proof.
  rewrite updateDNSRecord_eq. destruct (urlParse _); cbn; [apply extends_refl |].
  apply extends_snoc. cbn. destruct (updateRequest_patch cfg recordID newIP) as (-> & _ & ->).
  right. eauto.
Qed.

(** [run] read as one case analysis over its three calls. *)
Lemma run_eq cfg t :
  Raw.run w cfg t =
    match discoverIP w (Config.IPServices cfg) t with
    | (Err err, t1) => (OsExit 1, t1 ++ [EvLog "failed to determine public IP: %v" [VErr err]])
    | (Ok ip, t1) =>
        match Raw.fetchDNSRecord w cfg (t1 ++ [EvLog "detected public IP: %s" [VStr ip]]) with
        | (Err err, t3) => (OsExit 1, t3 ++ [EvLog "failed to fetch DNS record: %v" [VErr err]])
        | (Ok record, t3) =>
            if streq (DNSRecord.Content record) ip then
              (Returned,
               t3 ++ [EvLog "Cloudflare record %s already up to date" [VStr (DNSRecord.Name record)]])
            else
              match Raw.updateDNSRecord w cfg (DNSRecord.ID record) ip t3 with
              | (Err err, t4) => (OsExit 1, t4 ++ [EvLog "failed to update DNS record: %v" [VErr err]])
              | (Ok _, t4) =>
                  (Returned,
                   t4 ++ [EvLog "successfully updated %s from %s to %s"
                            [VStr (DNSRecord.Name record); VStr (DNSRecord.Content record); VStr ip]])
              end
        end
    end.
Proof.
  unfold Raw.run, bind, Fatalf, Printf, emit, ret, bind.
  destruct (discoverIP w (Config.IPServices cfg) t) as [[ip | e] t1]; [| reflexivity].
  destruct (Raw.fetchDNSRecord w cfg _) as [[record | e] t3]; [| reflexivity].
  destruct (streq (DNSRecord.Content record) ip); [reflexivity |].
  destruct (Raw.updateDNSRecord w cfg _ ip t3) as [[[] | e] t4]; reflexivity.
Qed.

Lemma discoveryEvent_raw cfg e : discoveryEvent e -> rawEvent cfg e.
Proof. destruct e; cbn; tauto. Qed.

Lemma isLog_raw cfg e : isLog e -> rawEvent cfg e.
Proof. destruct e; cbn; tauto. Qed.

(** A run of the raw variant only logs, sends [GET] requests, and sends
    [PATCH] requests to record endpoints. *)
Lemma run_extends cfg t : extends (rawEvent cfg) t (snd (Raw.run w cfg t)).
Proof.
  rewrite run_eq.
  pose proof (discoverIP_extends w (Config.IPServices cfg) t) as Hd.
  destruct (discoverIP w (Config.IPServices cfg) t) as [[ip | e] t1]; cbn in Hd.
  2:{ cbn. eapply extends_trans; [eapply extends_weaken; [apply discoveryEvent_raw | exact Hd] |].
      apply extends_snoc. exact I. }
  assert (H1 : extends (rawEvent cfg) t (t1 ++ [EvLog "detected public IP: %s" [VStr ip]])).
  { eapply extends_trans; [eapply extends_weaken; [apply discoveryEvent_raw | exact Hd] |].
    apply extends_snoc. exact I. }
  pose proof (fetchDNSRecord_extends cfg (t1 ++ [EvLog "detected public IP: %s" [VStr ip]])) as Hf.
  destruct (Raw.fetchDNSRecord w cfg _) as [[record | e] t3]; cbn in Hf.
  2:{ cbn. eapply extends_trans; [exact H1 |].
      eapply extends_trans; [eapply extends_weaken; [apply discoveryEvent_raw | exact Hf] |].
      apply extends_snoc. exact I. }
  assert (H3 : extends (rawEvent cfg) t t3).
  { eapply extends_trans; [exact H1 |].
    eapply extends_weaken; [apply discoveryEvent_raw | exact Hf]. }
  destruct (streq (DNSRecord.Content record) ip).
  { cbn. eapply extends_trans; [exact H3 |]. apply extends_snoc. exact I. }
  pose proof (updateDNSRecord_extends cfg (DNSRecord.ID record) ip t3) as Hu.
  destruct (Raw.updateDNSRecord w cfg _ ip t3) as [[[] | e] t4]; cbn in Hu; cbn;
    (eapply extends_trans; [exact H3 |]; eapply extends_trans; [exact Hu |];
     apply extends_snoc; exact I).
Qed.

Lemma main_extends env t :
  exists P, extends P t (snd (Raw.main w env t)) /\
            forall e, P e -> isLog e \/ exists cfg, rawEvent cfg e.
Proof.
  unfold Raw.main, bind, Fatalf, Printf, emit, ret, bind.
  pose proof (loadConfig_extends env t) as Hl.
  destruct (loadConfig env t) as [[cfg | e] t1]; cbn in Hl.
  - exists (rawEvent cfg). split.
    + eapply extends_trans; [eapply extends_weaken; [apply isLog_raw | exact Hl] |].
      apply run_extends.
    + intros e He. right. eauto.
  - exists isLog. split.
    + cbn. eapply extends_trans; [exact Hl |]. apply extends_snoc. exact I.
    + auto.
Qed.

End RawSteps.

(** ** The SDK variant, step by step *)

Section SdkSteps.
Context `{Library}.
Variable w : World.
Variable env : gmap string string.

Lemma sdk_fetchDNSRecord_eq client cfg t :
  Sdk.fetchDNSRecord w client cfg t =
    (match recordsList w t client (Sdk.listParams cfg) with
     | Err e => Err e
     | Ok [] => Err (Errorf "no matching record for %s" [AStr (Config.RecordName cfg)])
     | Ok (first :: _) => Ok first
     end, t ++ [EvList client (Sdk.listParams cfg)]).
Proof.
  unfold Sdk.fetchDNSRecord, Sdk.RecordsList, bindR, bind, ret.
  destruct (recordsList w t client (Sdk.listParams cfg)) as [[|first page] | e]; reflexivity.
Qed.

Lemma sdk_updateDNSRecord_eq client cfg recordID newIP t :
  Sdk.updateDNSRecord w client cfg recordID newIP t =
    (match recordsUpdate w t client recordID (Sdk.updateParams cfg newIP) with
     | Some err => Err err
     | None => Ok tt
     end, t ++ [EvUpdate client recordID (Sdk.updateParams cfg newIP)]).
Proof. reflexivity. Qed.

Lemma sdk_run_eq cfg t :
  Sdk.run w env cfg t =
    match discoverIP w (Config.IPServices cfg) t with
    | (Err err, t1) => (OsExit 1, t1 ++ [EvLog "failed to determine public IP: %v" [VErr err]])
    | (Ok ip, t1) =>
        match Sdk.newCloudflareClient env cfg with
        | Err err =>
            (OsExit 1, (t1 ++ [EvLog "detected public IP: %s" [VStr ip]])
                          ++ [EvLog "failed to configure Cloudflare client: %v" [VErr err]])
        | Ok client =>
            match Sdk.fetchDNSRecord w client cfg (t1 ++ [EvLog "detected public IP: %s" [VStr ip]]) with
            | (Err err, t3) => (OsExit 1, t3 ++ [EvLog "failed to fetch DNS record: %v" [VErr err]])
            | (Ok record, t3) =>
                match Sdk.extractARecordIP record with
                | Err err => (OsExit 1, t3 ++ [EvLog "unexpected DNS record content: %v" [VErr err]])
                | Ok currentIP =>
                    if streq currentIP ip then
                      (Returned,
                       t3 ++ [EvLog "Cloudflare record %s already up to date"
                                [VStr (cloudflare.RecName record)]])
                    else
                      match Sdk.updateDNSRecord w client cfg (cloudflare.RecID record) ip t3 with
                      | (Err err, t4) =>
                          (OsExit 1, t4 ++ [EvLog "failed to update DNS record: %v" [VErr err]])
                      | (Ok _, t4) =>
                          (Returned,
                           t4 ++ [EvLog "successfully updated %s from %s to %s"
                                    [VStr (cloudflare.RecName record); VStr currentIP; VStr ip]])
                      end
                end
            end
        end
    end.
Proof.
  unfold Sdk.run, bind, Fatalf, Printf, emit, ret, bind.
  destruct (discoverIP w (Config.IPServices cfg) t) as [[ip | e] t1]; [| reflexivity].
  destruct (Sdk.newCloudflareClient env cfg) as [client | e]; [| reflexivity].
  destruct (Sdk.fetchDNSRecord w client cfg _) as [[record | e] t3]; [| reflexivity].
  destruct (Sdk.extractARecordIP record) as [currentIP | e]; [| reflexivity].
  destruct (streq currentIP ip); [reflexivity |].
  destruct (Sdk.updateDNSRecord w client cfg _ ip t3) as [[[] | e] t4]; reflexivity.
Qed.

Lemma discoveryEvent_sdk e : discoveryEvent e -> sdkEvent e.
Proof. destruct e; cbn; tauto. Qed.

Lemma isLog_sdk e : isLog e -> sdkEvent e.
Proof. destruct e; cbn; tauto. Qed.

(** A run of the SDK variant only logs, sends [GET] requests, and calls the
    SDK's list and update. *)
Lemma sdk_run_extends cfg t : extends sdkEvent t (snd (Sdk.run w env cfg t)).
Proof.
  rewrite sdk_run_eq.
  pose proof (discoverIP_extends w (Config.IPServices cfg) t) as Hd.
  apply (extends_weaken _ _ _ _ discoveryEvent_sdk) in Hd.
  destruct (discoverIP w (Config.IPServices cfg) t) as [[ip | e] t1]; cbn in Hd.
  2:{ cbn. eapply extends_trans; [exact Hd |]. apply extends_snoc. exact I. }
  assert (H1 : extends sdkEvent t (t1 ++ [EvLog "detected public IP: %s" [VStr ip]])).
  { eapply extends_trans; [exact Hd |]. apply extends_snoc. exact I. }
  destruct (Sdk.newCloudflareClient env cfg) as [client | e].
  2:{ cbn. eapply extends_trans; [exact H1 |]. apply extends_snoc. exact I. }
  rewrite sdk_fetchDNSRecord_eq.
  assert (H3 : extends sdkEvent t
            ((t1 ++ [EvLog "detected public IP: %s" [VStr ip]]) ++ [EvList client (Sdk.listParams cfg)])).
  { eapply extends_trans; [exact H1 |]. apply extends_snoc. exact I. }
  destruct (recordsList w _ client (Sdk.listParams cfg)) as [[|record page] | e];
    try (cbn; eapply extends_trans; [exact H3 |]; apply extends_snoc; exact I).
  destruct (Sdk.extractARecordIP record) as [currentIP | e];
    try (cbn; eapply extends_trans; [exact H3 |]; apply extends_snoc; exact I).
  destruct (streq currentIP ip);
    try (cbn; eapply extends_trans; [exact H3 |]; apply extends_snoc; exact I).
  rewrite sdk_updateDNSRecord_eq.
  destruct (recordsUpdate w _ client _ _); cbn;
    (apply extends_step; [apply extends_step; [exact H3 | exact I] | exact I]).
Qed.

End SdkSteps.

(** ** Authentication *)

Lemma applyAuthHeaders_lookup req cfg k :
  Header (Raw.applyAuthHeaders req cfg) !! k =
    if decide (k = "Authorization") then
      (if streq (Config.AuthMethod cfg) "global" then Header req !! k
       else Some ("Bearer " +:+ Config.AuthKey cfg))
    else if decide (k = "X-Auth-Key") then
      (if streq (Config.AuthMethod cfg) "global" then Some (Config.AuthKey cfg) else Header req !! k)
    else if decide (k = "X-Auth-Email") then
      (if streq (Config.AuthEmail cfg) "" then Header req !! k else Some (Config.AuthEmail cfg))
    else Header req !! k.
Proof.
  unfold Raw.applyAuthHeaders, HeaderSet.
  destruct (streq (Config.AuthEmail cfg) ""), (streq (Config.AuthMethod cfg) "global"); cbn;
    repeat case_decide; subst; simplify_map_eq; try reflexivity; try discriminate.
Qed.

Lemma listRequest_lookup cfg k :
  Header (Raw.listRequest cfg) !! k =
    if decide (k = "Authorization") then
      (if streq (Config.AuthMethod cfg) "global" then None
       else Some ("Bearer " +:+ Config.AuthKey cfg))
    else if decide (k = "X-Auth-Key") then
      (if streq (Config.AuthMethod cfg) "global" then Some (Config.AuthKey cfg) else None)
    else if decide (k = "X-Auth-Email") then
      (if streq (Config.AuthEmail cfg) "" then None else Some (Config.AuthEmail cfg))
    else None.
Proof.
  unfold Raw.listRequest. rewrite applyAuthHeaders_lookup. cbn [Header].
  rewrite lookup_empty. reflexivity.
Qed.

Lemma updateRequest_lookup cfg recordID newIP k :
  k <> "Content-Type" ->
  Header (Raw.updateRequest cfg recordID newIP) !! k = Header (Raw.listRequest cfg) !! k.
Proof.
  intros Hk. unfold Raw.updateRequest. rewrite applyAuthHeaders_lookup, listRequest_lookup.
  cbn [Header HeaderSet]. rewrite lookup_insert_ne by congruence. rewrite lookup_empty.
  reflexivity.
Qed.

(** The headers of a client, option by option. *)
Lemma authHeaders_app l1 l2 :
  cloudflare.authHeaders (l1 ++ l2) = foldl cloudflare.applyOption (cloudflare.authHeaders l1) l2.
Proof. unfold cloudflare.authHeaders. apply foldl_app. Qed.

Lemma applyOption_lookup h1 h2 o k :
  h1 !! k = h2 !! k -> cloudflare.applyOption h1 o !! k = cloudflare.applyOption h2 o !! k.
Proof.
  intros Hk. destruct o; cbn [cloudflare.applyOption]; try exact Hk;
    match goal with
    | |- <[?key := _]> _ !! _ = _ =>
        destruct (decide (k = key)) as [-> | Hne];
          [now rewrite !lookup_insert_eq | now rewrite !lookup_insert_ne by congruence]
    end.
Qed.

Lemma foldl_applyOption_lookup l h1 h2 k :
  h1 !! k = h2 !! k ->
  foldl cloudflare.applyOption h1 l !! k = foldl cloudflare.applyOption h2 l !! k.
Proof.
  revert h1 h2. induction l as [|o l IH]; intros h1 h2 Hk; cbn [foldl]; [exact Hk |].
  apply IH. now apply applyOption_lookup.
Qed.

(** The client of [NewClient] is the options passed, after defaults. *)
Lemma NewClient_defaults env opts :
  exists defaults, cloudflare.NewClient env opts = defaults ++ opts.
Proof. unfold cloudflare.NewClient. eexists. reflexivity. Qed.

(** Without a token, a key and an email in the process environment, the
    defaults add no bearer, key or email header to those of the options
    passed. *)
Lemma NewClient_bare env opts k :
  LookupEnv env "CLOUDFLARE_API_TOKEN" = None ->
  LookupEnv env "CLOUDFLARE_API_KEY" = None ->
  LookupEnv env "CLOUDFLARE_EMAIL" = None ->
  k <> "X-Auth-User-Service-Key" ->
  cloudflare.authHeaders (cloudflare.NewClient env opts) !! k = cloudflare.authHeaders opts !! k.
Proof.
  intros Ht Hk He Hne. unfold cloudflare.NewClient. rewrite Ht, Hk, He.
  rewrite authHeaders_app. unfold cloudflare.authHeaders at 2.
  apply foldl_applyOption_lookup.
  destruct (LookupEnv env "CLOUDFLARE_API_USER_SERVICE_KEY") as [u|]; cbn.
  - now rewrite lookup_insert_ne by congruence.
  - reflexivity.
Qed.

(** C5. For every configuration.  Raw variant: under the token method the
    fetch request and the update request carry [Authorization: Bearer <key>]
    and no key header, whether or not an email is configured (without one,
    the bearer header is all that is added); under the global-key method
    both carry [X-Auth-Key] and no bearer header, and [X-Auth-Email] with
    the email of the configuration when it has one, which a configuration
    that [loadConfig] returns always has under that method.  The update
    request has the headers of the fetch request besides its content type,
    and these are the requests the two operations send.  SDK variant: one
    client is built, from the token alone or from the key and the email,
    after the defaults that the SDK takes from the process environment;
    whatever that environment holds, the requests of the client carry the
    bearer header under the token method and the key and email headers
    under the global-key method, and the one client is used for the list
    call and for the update call.  When the process environment holds no
    credential of its own, the client carries no key or email header under
    the token method and no bearer header under the global-key method. *)
Theorem auth_headers `{Library} (w : World) (env : gmap string string) (cfg : Config)
    (recordID newIP : string) (t : trace) :
  (Config.AuthMethod cfg = "token" ->
     Header (Raw.listRequest cfg) !! "Authorization" = Some ("Bearer " +:+ Config.AuthKey cfg)
     /\ Header (Raw.updateRequest cfg recordID newIP) !! "Authorization"
          = Some ("Bearer " +:+ Config.AuthKey cfg)
     /\ Header (Raw.listRequest cfg) !! "X-Auth-Key" = None
     /\ Header (Raw.updateRequest cfg recordID newIP) !! "X-Auth-Key" = None
     /\ (Config.AuthEmail cfg = "" ->
           Header (Raw.listRequest cfg) = {["Authorization" := "Bearer " +:+ Config.AuthKey cfg]}
           /\ Header (Raw.updateRequest cfg recordID newIP) !! "X-Auth-Email" = None)
     /\ Sdk.newCloudflareClient env cfg
          = Ok (cloudflare.NewClient env
                  [cloudflare.WithHTTPClient; cloudflare.WithAPIToken (Config.AuthKey cfg)])
     /\ cloudflare.authHeaders
          (cloudflare.NewClient env
             [cloudflare.WithHTTPClient; cloudflare.WithAPIToken (Config.AuthKey cfg)])
          !! "Authorization" = Some ("Bearer " +:+ Config.AuthKey cfg))
  /\ (Config.AuthMethod cfg = "global" ->
     Header (Raw.listRequest cfg) !! "X-Auth-Key" = Some (Config.AuthKey cfg)
     /\ Header (Raw.updateRequest cfg recordID newIP) !! "X-Auth-Key" = Some (Config.AuthKey cfg)
     /\ Header (Raw.listRequest cfg) !! "Authorization" = None
     /\ Header (Raw.updateRequest cfg recordID newIP) !! "Authorization" = None
     /\ (Config.AuthEmail cfg <> "" ->
           Header (Raw.listRequest cfg) !! "X-Auth-Email" = Some (Config.AuthEmail cfg)
           /\ Header (Raw.updateRequest cfg recordID newIP) !! "X-Auth-Email"
                = Some (Config.AuthEmail cfg))
     /\ Sdk.newCloudflareClient env cfg
          = Ok (cloudflare.NewClient env
                  [cloudflare.WithHTTPClient; cloudflare.WithAPIKey (Config.AuthKey cfg);
                   cloudflare.WithAPIEmail (Config.AuthEmail cfg)])
     /\ cloudflare.authHeaders
          (cloudflare.NewClient env
             [cloudflare.WithHTTPClient; cloudflare.WithAPIKey (Config.AuthKey cfg);
              cloudflare.WithAPIEmail (Config.AuthEmail cfg)])
          !! "X-Auth-Key" = Some (Config.AuthKey cfg)
     /\ cloudflare.authHeaders
          (cloudflare.NewClient env
             [cloudflare.WithHTTPClient; cloudflare.WithAPIKey (Config.AuthKey cfg);
              cloudflare.WithAPIEmail (Config.AuthEmail cfg)])
          !! "X-Auth-Email" = Some (Config.AuthEmail cfg))
  /\ (forall env0 t0 cfg0 t',
        loadConfig env0 t0 = (Ok cfg0, t') ->
        (Config.AuthMethod cfg0 = "token" \/ Config.AuthMethod cfg0 = "global")
        /\ (Config.AuthMethod cfg0 = "global" -> Config.AuthEmail cfg0 <> ""))
  /\ (forall k, k <> "Content-Type" ->
        Header (Raw.updateRequest cfg recordID newIP) !! k = Header (Raw.listRequest cfg) !! k)
  /\ (urlParse (Raw.listEndpoint cfg) = None ->
        snd (Raw.fetchDNSRecord w cfg t) = t ++ [EvDo (Raw.listRequest cfg)])
  /\ (urlParse (Raw.recordEndpoint cfg recordID) = None ->
        snd (Raw.updateDNSRecord w cfg recordID newIP t)
          = t ++ [EvDo (Raw.updateRequest cfg recordID newIP)])
  /\ (forall client,
        snd (Sdk.fetchDNSRecord w client cfg t) = t ++ [EvList client (Sdk.listParams cfg)]
        /\ snd (Sdk.updateDNSRecord w client cfg recordID newIP t)
             = t ++ [EvUpdate client recordID (Sdk.updateParams cfg newIP)])
  /\ (LookupEnv env "CLOUDFLARE_API_TOKEN" = None ->
      LookupEnv env "CLOUDFLARE_API_KEY" = None ->
      LookupEnv env "CLOUDFLARE_EMAIL" = None ->
      cloudflare.authHeaders
        (cloudflare.NewClient env
           [cloudflare.WithHTTPClient; cloudflare.WithAPIToken (Config.AuthKey cfg)])
        !! "X-Auth-Key" = None
      /\ cloudflare.authHeaders
           (cloudflare.NewClient env
              [cloudflare.WithHTTPClient; cloudflare.WithAPIToken (Config.AuthKey cfg)])
           !! "X-Auth-Email" = None
      /\ cloudflare.authHeaders
           (cloudflare.NewClient env
              [cloudflare.WithHTTPClient; cloudflare.WithAPIKey (Config.AuthKey cfg);
               cloudflare.WithAPIEmail (Config.AuthEmail cfg)])
           !! "Authorization" = None).
Proof.
  split; [| split; [| split; [| split; [| split; [| split; [| split]]]]]].
  - intros Hm.
    assert (Hg : streq (Config.AuthMethod cfg) "global" = false) by now rewrite Hm.
    rewrite !updateRequest_lookup by discriminate. rewrite !listRequest_lookup, Hg.
    do 4 (split; [reflexivity |]). split; [| split].
    + intros He. rewrite He. split; [| reflexivity].
      apply map_eq. intros k. rewrite listRequest_lookup, Hg, He.
      cbn [streq String.eqb].
      repeat case_decide; subst; simplify_map_eq; reflexivity.
    + unfold Sdk.newCloudflareClient. rewrite Hm. reflexivity.
    + destruct (NewClient_defaults env
                  [cloudflare.WithHTTPClient; cloudflare.WithAPIToken (Config.AuthKey cfg)])
        as [defaults ->].
      rewrite authHeaders_app. cbn [foldl cloudflare.applyOption]. apply lookup_insert_eq.
  - intros Hm.
    assert (Hg : streq (Config.AuthMethod cfg) "global" = true) by now rewrite Hm.
    rewrite !updateRequest_lookup by discriminate. rewrite !listRequest_lookup, Hg.
    do 4 (split; [reflexivity |]). split; [| split; [| split]].
    + intros He. apply streq_false in He. rewrite He. split; reflexivity.
    + unfold Sdk.newCloudflareClient. rewrite Hm. reflexivity.
    + destruct (NewClient_defaults env
                  [cloudflare.WithHTTPClient; cloudflare.WithAPIKey (Config.AuthKey cfg);
                   cloudflare.WithAPIEmail (Config.AuthEmail cfg)]) as [defaults ->].
      rewrite authHeaders_app. cbn [foldl cloudflare.applyOption].
      rewrite lookup_insert_ne by discriminate. apply lookup_insert_eq.
    + destruct (NewClient_defaults env
                  [cloudflare.WithHTTPClient; cloudflare.WithAPIKey (Config.AuthKey cfg);
                   cloudflare.WithAPIEmail (Config.AuthEmail cfg)]) as [defaults ->].
      rewrite authHeaders_app. cbn [foldl cloudflare.applyOption]. apply lookup_insert_eq.
  - intros env0 t0 cfg0 t' Hl.
    destruct (loadConfig_cases env0 t0)
      as [(e & t1 & He & _) | (ttl & proxied & t1 & Hok & _ & _ & Hv)]; [congruence |].
    rewrite Hok in Hl. inversion Hl; subst. cbn [Config.AuthMethod Config.AuthEmail]. split.
    + destruct (decide (envMethod env0 = "token")) as [Ht | Ht]; [now left |].
      destruct (decide (envMethod env0 = "global")) as [Hg | Hg]; [now right |].
      exfalso. apply Hv. do 3 right; left. split; assumption.
    + intros Hg He. apply Hv. do 4 right; left. split; assumption.
  - intros k Hk. now apply updateRequest_lookup.
  - intros Hu. rewrite fetchDNSRecord_eq, Hu. reflexivity.
  - intros Hu. rewrite updateDNSRecord_eq, Hu. reflexivity.
  - intros client. rewrite sdk_fetchDNSRecord_eq, sdk_updateDNSRecord_eq. split; reflexivity.
  - intros Ht Hk He. rewrite !NewClient_bare by (assumption || discriminate).
    unfold cloudflare.authHeaders. cbn [foldl cloudflare.applyOption].
    split; [| split]; simplify_map_eq; reflexivity.
Qed.

Lemma exampleConfig_valid method email ttl :
  (method = "token" \/ (method = "global" /\ email <> "")) -> 60 <= ttl ->
  validConfig (exampleConfig method email ttl).
Proof.
  intros Hm Httl. unfold validConfig; cbn.
  split; [exact Httl |]. do 5 (split; [first [discriminate | reflexivity] |]).
  split; [tauto |]. intros ->. destruct Hm as [[=] | [_ He]]. exact He.
Qed.

(** The update request of the repository's test: a global key with its
    email. *)
Lemma auth_headers_witness :
  Header (Raw.updateRequest (exampleConfig "global" "user@example.com" 120) "record-id" "198.51.100.3")
    !! "X-Auth-Key" = Some "secret"
  /\ Header (Raw.updateRequest (exampleConfig "global" "user@example.com" 120) "record-id" "198.51.100.3")
    !! "X-Auth-Email" = Some "user@example.com".
Proof.
  pose proof (proj1 (proj2 (auth_headers (H := exampleLibrary) (exampleWorld "" 200 "" "" []) ∅
                (exampleConfig "global" "user@example.com" 120) "record-id" "198.51.100.3" []))
              eq_refl) as (_ & Hk & _ & _ & He & _).
  split; [exact Hk |]. apply He. discriminate.
Defined.

(** A configuration as the repository's tests build it, with no services
    and so not a valid one, and a process environment that holds a key of
    its own: the raw request carries the bearer header alone, the client of
    the SDK variant the bearer header and the key of the environment. *)
Example auth_headers_environment :
  Header (Raw.listRequest (Config.mk "" "token" "secret" "zone-id" "example.com" "A" 120 true []))
    = {["Authorization" := "Bearer secret"]}
  /\ match Sdk.newCloudflareClient (<["CLOUDFLARE_API_KEY" := "other"]> ∅)
             (Config.mk "" "token" "secret" "zone-id" "example.com" "A" 120 true []) with
     | Ok client => Some (cloudflare.authHeaders client)
     | Err _ => None
     end = Some (<["Authorization" := "Bearer secret"]> {["X-Auth-Key" := "other"]}).
Proof. split; reflexivity. Qed.

(** The requests of the repository's tests: a token without an email, and a
    global key with one. *)
Example auth_headers_token :
  Header (Raw.listRequest (exampleConfig "token" "" 120))
    = {["Authorization" := "Bearer secret"]}.
Proof. reflexivity. Qed.

Example auth_headers_global :
  Header (Raw.updateRequest (exampleConfig "global" "user@example.com" 120) "record-id" "198.51.100.3")
    = <["X-Auth-Key" := "secret"]> (<["X-Auth-Email" := "user@example.com"]>
        {["Content-Type" := "application/json"]}).
Proof. reflexivity. Qed.

(** ** Fetch failures *)

Lemma rawEvent_neverCreates cfg e : rawEvent cfg e -> neverCreates e.
Proof. destruct e; cbn; tauto. Qed.

Lemma sdkEvent_neverCreates e : sdkEvent e -> neverCreates e.
Proof. destruct e; cbn; tauto. Qed.

Lemma isLog_neverCreates e : isLog e -> neverCreates e.
Proof. destruct e; cbn; tauto. Qed.

Section FetchFailures.
Context `{Library}.
Variable w : World.

(** A fetch that fails ends the run of the raw variant: the error is
    logged, the process exits with status 1 and no update was sent. *)
Lemma run_fetch_error cfg t ip t1 e t3 :
  discoverIP w (Config.IPServices cfg) t = (Ok ip, t1) ->
  Raw.fetchDNSRecord w cfg (t1 ++ [EvLog "detected public IP: %s" [VStr ip]]) = (Err e, t3) ->
  Raw.run w cfg t = (OsExit 1, t3 ++ [EvLog "failed to fetch DNS record: %v" [VErr e]])
  /\ updatesIn (snd (Raw.run w cfg t)) = updatesIn t.
Proof.
  intros Hd Hf. rewrite run_eq, Hd, Hf. split; [reflexivity |]. cbn [snd].
  pose proof (discoverIP_extends w (Config.IPServices cfg) t) as Hd'. rewrite Hd in Hd'. cbn in Hd'.
  pose proof (fetchDNSRecord_extends w cfg (t1 ++ [EvLog "detected public IP: %s" [VStr ip]])) as Hf'.
  rewrite Hf in Hf'. cbn in Hf'.
  apply (extends_updatesIn discoveryEvent); [apply discoveryEvent_not_update |].
  apply extends_step; [| exact I].
  eapply extends_trans; [| exact Hf']. apply extends_step; [exact Hd' | exact I].
Qed.

Lemma sdk_main_extends env t : extends neverCreates t (snd (Sdk.main w env t)).
Proof.
  unfold Sdk.main, bind, Fatalf, Printf, emit, ret, bind.
  pose proof (loadConfig_extends env t) as Hl.
  apply (extends_weaken _ _ _ _ isLog_neverCreates) in Hl.
  destruct (loadConfig env t) as [[cfg | e] t1]; cbn in Hl.
  - eapply extends_trans; [exact Hl |].
    eapply extends_weaken; [apply sdkEvent_neverCreates | apply sdk_run_extends].
  - cbn. apply extends_step; [exact Hl | exact I].
Qed.

Lemma raw_main_extends env t : extends neverCreates t (snd (Raw.main w env t)).
Proof.
  unfold Raw.main, bind, Fatalf, Printf, emit, ret, bind.
  pose proof (loadConfig_extends env t) as Hl.
  apply (extends_weaken _ _ _ _ isLog_neverCreates) in Hl.
  destruct (loadConfig env t) as [[cfg | e] t1]; cbn in Hl.
  - eapply extends_trans; [exact Hl |].
    eapply extends_weaken; [apply (rawEvent_neverCreates cfg) | apply run_extends].
  - cbn. apply extends_step; [exact Hl | exact I].
Qed.

End FetchFailures.

(** C6 (amended). When the provider answers the fetch with status 200 and a
    body that decodes with [success] false, [fetchDNSRecord] returns the
    error [cloudflare error: %v] over the provider's error list; the run
    logs it, exits with status 1 and has sent no update.  More generally,
    whatever error the fetch returns (a status other than 200 gives
    [unexpected status %s] without the body being decoded), the run exits
    with status 1 and has sent no update. *)
Theorem fetch_rejected `{Library} (w : World) (cfg : Config) (t t1 : trace) (ip : string)
    (resp : Response) (payload : listResponse) :
  discoverIP w (Config.IPServices cfg) t = (Ok ip, t1) ->
  urlParse (Raw.listEndpoint cfg) = None ->
  roundTrip w (t1 ++ [EvLog "detected public IP: %s" [VStr ip]]) (Raw.listRequest cfg) = Resp resp ->
  StatusCode resp = StatusOK ->
  decodeList (RespBody resp) = Ok payload ->
  listSuccess payload = false ->
  Raw.fetchDNSRecord w cfg (t1 ++ [EvLog "detected public IP: %s" [VStr ip]])
    = (Err (Errorf "cloudflare error: %v" [AErrors (listErrors payload)]),
       (t1 ++ [EvLog "detected public IP: %s" [VStr ip]]) ++ [EvDo (Raw.listRequest cfg)])
  /\ Raw.run w cfg t
    = (OsExit 1,
       ((t1 ++ [EvLog "detected public IP: %s" [VStr ip]]) ++ [EvDo (Raw.listRequest cfg)])
       ++ [EvLog "failed to fetch DNS record: %v"
             [VErr (Errorf "cloudflare error: %v" [AErrors (listErrors payload)])]])
  /\ updatesIn (snd (Raw.run w cfg t)) = updatesIn t
  /\ (forall cfg0 t0 ip0 t2 e t3,
        discoverIP w (Config.IPServices cfg0) t0 = (Ok ip0, t2) ->
        Raw.fetchDNSRecord w cfg0 (t2 ++ [EvLog "detected public IP: %s" [VStr ip0]]) = (Err e, t3) ->
        fst (Raw.run w cfg0 t0) = OsExit 1 /\ updatesIn (snd (Raw.run w cfg0 t0)) = updatesIn t0)
  /\ (forall cfg0 t0 resp0,
        urlParse (Raw.listEndpoint cfg0) = None ->
        roundTrip w t0 (Raw.listRequest cfg0) = Resp resp0 ->
        StatusCode resp0 <> StatusOK ->
        fst (Raw.fetchDNSRecord w cfg0 t0) = Err (Errorf "unexpected status %s" [AStr (Status resp0)])).
Proof.
  intros Hd Hu Hr Hs Hdec Hsucc.
  assert (Hf : Raw.fetchDNSRecord w cfg (t1 ++ [EvLog "detected public IP: %s" [VStr ip]])
    = (Err (Errorf "cloudflare error: %v" [AErrors (listErrors payload)]),
       (t1 ++ [EvLog "detected public IP: %s" [VStr ip]]) ++ [EvDo (Raw.listRequest cfg)])).
  { rewrite fetchDNSRecord_eq, Hu, Hr. unfold fetchOutcome.
    rewrite Hs, Hdec, Hsucc. reflexivity. }
  destruct (run_fetch_error w cfg t ip t1 _ _ Hd Hf) as [Hrun Hupd].
  split; [exact Hf |]. split; [exact Hrun |]. split; [exact Hupd |]. split.
  - intros cfg0 t0 ip0 t2 e t3 Hd0 Hf0.
    destruct (run_fetch_error w cfg0 t0 ip0 t2 e t3 Hd0 Hf0) as [Hrun0 Hupd0].
    split; [now rewrite Hrun0 | exact Hupd0].
  - intros cfg0 t0 resp0 Hu0 Hr0 Hs0. rewrite fetchDNSRecord_eq, Hu0, Hr0. unfold fetchOutcome.
    cbn [fst]. apply Z.eqb_neq in Hs0. now rewrite Hs0.
Qed.

Lemma fetch_rejected_witness :
  Raw.run (H := exampleLibrary) (exampleWorld "198.51.100.3" 200 "200 OK" "denied" [])
    (exampleConfig "token" "" 120) []
  = (OsExit 1,
     [EvDo (getRequest "http://invalid.test");
      EvLog "invalid IP %q from %s" [VStr ""; VStr "http://invalid.test"];
      EvDo (getRequest "http://bad-ip.test");
      EvLog "invalid IP %q from %s" [VStr "not-an-ip"; VStr "http://bad-ip.test"];
      EvDo (getRequest "http://valid.test");
      EvLog "detected public IP: %s" [VStr "198.51.100.3"];
      EvDo (Raw.listRequest (exampleConfig "token" "" 120));
      EvLog "failed to fetch DNS record: %v"
        [VErr (Errorf "cloudflare error: %v"
                 [AErrors [{| Code := 10000; Message := "Authentication error" |}]])]]).
Proof.
  exact (proj1 (proj2 (fetch_rejected (H := exampleLibrary)
    (exampleWorld "198.51.100.3" 200 "200 OK" "denied" []) (exampleConfig "token" "" 120) []
    [EvDo (getRequest "http://invalid.test");
     EvLog "invalid IP %q from %s" [VStr ""; VStr "http://invalid.test"];
     EvDo (getRequest "http://bad-ip.test");
     EvLog "invalid IP %q from %s" [VStr "not-an-ip"; VStr "http://bad-ip.test"];
     EvDo (getRequest "http://valid.test")]
    "198.51.100.3"
    {| StatusCode := 200; Status := "200 OK"; RespBody := Complete "denied" |}
    {| listSuccess := false;
       listErrors := [{| Code := 10000; Message := "Authentication error" |}];
       listResult := [] |}
    eq_refl eq_refl eq_refl eq_refl eq_refl eq_refl))).
Defined.

(** The provider rejects the request as it does in practice, with a status
    other than 200: the body decodes with [success] false, yet the error
    that [fetchDNSRecord] returns is the status error, which does not carry
    the provider's error list. *)
Lemma fetch_rejected_counterexample :
  exists resp payload,
    roundTrip (exampleWorld "198.51.100.3" 403 "403 Forbidden" "denied" []) []
      (Raw.listRequest (exampleConfig "token" "" 120)) = Resp resp
    /\ decodeList (Library := exampleLibrary) (RespBody resp) = Ok payload
    /\ listSuccess payload = false
    /\ listErrors payload = [{| Code := 10000; Message := "Authentication error" |}]
    /\ fst (Raw.fetchDNSRecord (H := exampleLibrary)
              (exampleWorld "198.51.100.3" 403 "403 Forbidden" "denied" [])
              (exampleConfig "token" "" 120) [])
       = Err (Errorf "unexpected status %s" [AStr "403 Forbidden"])
    /\ fst (Raw.fetchDNSRecord (H := exampleLibrary)
              (exampleWorld "198.51.100.3" 403 "403 Forbidden" "denied" [])
              (exampleConfig "token" "" 120) [])
       <> Err (Errorf "cloudflare error: %v" [AErrors (listErrors payload)]).
Proof.
  eexists _, _. split; [reflexivity |]. split; [reflexivity |].
  split; [reflexivity |]. split; [reflexivity |]. split; [reflexivity |].
  vm_compute. discriminate.
Qed.

(** C7. When the provider answers the fetch with status 200, a body that
    decodes, [success] true and no record, [fetchDNSRecord] fails with
    [no matching record for %s] (so does the SDK variant on an empty page),
    and the run then exits without an update.  No run of the program creates
    a record: every event of a run of either variant, from [main] on, is a
    log line, a [GET] request, a [PATCH] request to the endpoint of one
    record, or the SDK's list or update call. *)
Theorem fetch_not_found `{Library} (w : World) (cfg : Config) (t : trace)
    (resp : Response) (payload : listResponse) :
  urlParse (Raw.listEndpoint cfg) = None ->
  roundTrip w t (Raw.listRequest cfg) = Resp resp ->
  StatusCode resp = StatusOK ->
  decodeList (RespBody resp) = Ok payload ->
  listSuccess payload = true ->
  listResult payload = [] ->
  Raw.fetchDNSRecord w cfg t
    = (Err (Errorf "no matching record for %s" [AStr (Config.RecordName cfg)]),
       t ++ [EvDo (Raw.listRequest cfg)])
  /\ (forall client,
        recordsList w t client (Sdk.listParams cfg) = Ok [] ->
        Sdk.fetchDNSRecord w client cfg t
          = (Err (Errorf "no matching record for %s" [AStr (Config.RecordName cfg)]),
             t ++ [EvList client (Sdk.listParams cfg)]))
  /\ (forall t0 ip t1,
        discoverIP w (Config.IPServices cfg) t0 = (Ok ip, t1) ->
        t = t1 ++ [EvLog "detected public IP: %s" [VStr ip]] ->
        fst (Raw.run w cfg t0) = OsExit 1 /\ updatesIn (snd (Raw.run w cfg t0)) = updatesIn t0)
  /\ (forall cfg0 t0, extends (rawEvent cfg0) t0 (snd (Raw.run w cfg0 t0)))
  /\ (forall env0 cfg0 t0, extends sdkEvent t0 (snd (Sdk.run w env0 cfg0 t0)))
  /\ (forall env t0,
        extends neverCreates t0 (snd (Raw.main w env t0))
        /\ extends neverCreates t0 (snd (Sdk.main w env t0))).
Proof.
  intros Hu Hr Hs Hdec Hsucc Hres.
  assert (Hf : Raw.fetchDNSRecord w cfg t
    = (Err (Errorf "no matching record for %s" [AStr (Config.RecordName cfg)]),
       t ++ [EvDo (Raw.listRequest cfg)])).
  { rewrite fetchDNSRecord_eq, Hu, Hr. unfold fetchOutcome.
    rewrite Hs, Hdec, Hsucc, Hres. reflexivity. }
  split; [exact Hf |]. split; [| split; [| split; [| split]]].
  - intros client Hl. rewrite sdk_fetchDNSRecord_eq, Hl. reflexivity.
  - intros t0 ip t1 Hd ->.
    destruct (run_fetch_error w cfg t0 ip t1 _ _ Hd Hf) as [Hrun Hupd].
    split; [now rewrite Hrun | exact Hupd].
  - intros cfg0 t0. apply run_extends.
  - intros env0 cfg0 t0. apply sdk_run_extends.
  - intros env t0. split; [apply raw_main_extends | apply sdk_main_extends].
Qed.

Lemma fetch_not_found_witness :
  Raw.fetchDNSRecord (H := exampleLibrary) (exampleWorld "198.51.100.3" 200 "200 OK" "none" [])
    (exampleConfig "token" "" 120) []
  = (Err (Errorf "no matching record for %s" [AStr "example.com"]),
     [EvDo (Raw.listRequest (exampleConfig "token" "" 120))]).
Proof.
  exact (proj1 (fetch_not_found (H := exampleLibrary)
    (exampleWorld "198.51.100.3" 200 "200 OK" "none" []) (exampleConfig "token" "" 120) []
    {| StatusCode := 200; Status := "200 OK"; RespBody := Complete "none" |}
    {| listSuccess := true; listErrors := []; listResult := [] |}
    eq_refl eq_refl eq_refl eq_refl eq_refl eq_refl)).
Defined.

(** ** Compare and update *)

Lemma float64_exact n : Z.abs n <= 2 ^ 53 -> cloudflare.float64 n = n.
Proof.
  intros Hn. unfold cloudflare.float64.
  destruct (Z.eq_dec (Z.abs n) (2 ^ 53)) as [Heq | Hne].
  - destruct (Z.abs_spec n) as [[_ Ha] | [_ Ha]]; rewrite Ha in Heq.
    + subst n. reflexivity.
    + assert (n = - 2 ^ 53) by lia. subst n. reflexivity.
  - assert (Hlt : Z.abs n < 2 ^ 53) by lia.
    assert (Hlog : Z.log2 (Z.abs n) < 53).
    { destruct (Z.eq_dec (Z.abs n) 0) as [-> | Hz]; [cbn; lia |].
      apply Z.log2_lt_pow2; lia. }
    destruct (Z.log2 (Z.abs n) - 52 <=? 0) eqn:E; [reflexivity |].
    apply Z.leb_gt in E. lia.
Qed.

Lemma updateBody_fields cfg newIP :
  Raw.updateBody cfg newIP !! "type" = Some (AnyString (Config.RecordType cfg))
  /\ Raw.updateBody cfg newIP !! "name" = Some (AnyString (Config.RecordName cfg))
  /\ Raw.updateBody cfg newIP !! "content" = Some (AnyString newIP)
  /\ Raw.updateBody cfg newIP !! "ttl" = Some (AnyInt (Config.TTL cfg))
  /\ Raw.updateBody cfg newIP !! "proxied" = Some (AnyBool (Config.Proxied cfg))
  /\ dom (Raw.updateBody cfg newIP) = {["type"; "name"; "content"; "ttl"; "proxied"]}.
Proof.
  unfold Raw.updateBody.
  repeat split;
    first [simplify_map_eq; reflexivity | rewrite !dom_insert_L, dom_empty_L; set_solver].
Qed.

Section Compare.
Context `{Library}.
Variable w : World.
Variable env : gmap string string.

Lemma updatesIn_snoc_log t f a : updatesIn (t ++ [EvLog f a]) = updatesIn t.
Proof. rewrite updatesIn_app. cbn. apply app_nil_r. Qed.

Lemma updatesIn_snoc_update t e : isUpdate e = true -> updatesIn (t ++ [e]) = updatesIn t ++ [e].
Proof. intros He. rewrite updatesIn_app. unfold updatesIn at 2. cbn. now rewrite He. Qed.

(** Up to the comparison, the raw variant has sent no update. *)
Lemma raw_before_compare cfg t ip t1 r t3 :
  discoverIP w (Config.IPServices cfg) t = (Ok ip, t1) ->
  Raw.fetchDNSRecord w cfg (t1 ++ [EvLog "detected public IP: %s" [VStr ip]]) = (r, t3) ->
  updatesIn t3 = updatesIn t.
Proof.
  intros Hd Hf.
  pose proof (discoverIP_extends w (Config.IPServices cfg) t) as Hd'. rewrite Hd in Hd'. cbn in Hd'.
  pose proof (fetchDNSRecord_extends w cfg (t1 ++ [EvLog "detected public IP: %s" [VStr ip]])) as Hf'.
  rewrite Hf in Hf'. cbn in Hf'.
  apply (extends_updatesIn discoveryEvent); [apply discoveryEvent_not_update |].
  eapply extends_trans; [| exact Hf']. apply extends_step; [exact Hd' | exact I].
Qed.

Lemma sdk_before_compare cfg client t ip t1 r t3 :
  discoverIP w (Config.IPServices cfg) t = (Ok ip, t1) ->
  Sdk.fetchDNSRecord w client cfg (t1 ++ [EvLog "detected public IP: %s" [VStr ip]]) = (r, t3) ->
  updatesIn t3 = updatesIn t.
Proof.
  intros Hd Hf.
  pose proof (discoverIP_extends w (Config.IPServices cfg) t) as Hd'. rewrite Hd in Hd'. cbn in Hd'.
  rewrite sdk_fetchDNSRecord_eq in Hf. inversion Hf; subst t3.
  rewrite updatesIn_app, updatesIn_snoc_log. cbn. rewrite app_nil_r.
  apply (extends_updatesIn discoveryEvent); [apply discoveryEvent_not_update | exact Hd'].
Qed.

Lemma isUpdate_updateRequest cfg recordID newIP :
  isUpdate (EvDo (Raw.updateRequest cfg recordID newIP)) = true.
Proof. cbn. destruct (updateRequest_patch cfg recordID newIP) as (-> & _). reflexivity. Qed.

(** The raw variant after the comparison. *)
Lemma raw_compare cfg t ip t1 record t3 :
  discoverIP w (Config.IPServices cfg) t = (Ok ip, t1) ->
  Raw.fetchDNSRecord w cfg (t1 ++ [EvLog "detected public IP: %s" [VStr ip]]) = (Ok record, t3) ->
  (DNSRecord.Content record = ip ->
     Raw.run w cfg t
       = (Returned,
          t3 ++ [EvLog "Cloudflare record %s already up to date" [VStr (DNSRecord.Name record)]])
     /\ updatesIn (snd (Raw.run w cfg t)) = updatesIn t)
  /\ (DNSRecord.Content record <> ip ->
        (urlParse (Raw.recordEndpoint cfg (DNSRecord.ID record)) = None ->
           updatesIn (snd (Raw.run w cfg t))
             = updatesIn t ++ [EvDo (Raw.updateRequest cfg (DNSRecord.ID record) ip)])
        /\ (forall e, urlParse (Raw.recordEndpoint cfg (DNSRecord.ID record)) = Some e ->
              Raw.run w cfg t = (OsExit 1, t3 ++ [EvLog "failed to update DNS record: %v" [VErr e]])
              /\ updatesIn (snd (Raw.run w cfg t)) = updatesIn t)).
Proof.
  intros Hd Hf. pose proof (raw_before_compare _ _ _ _ _ _ Hd Hf) as H3.
  split.
  - intros Heq. rewrite run_eq, Hd, Hf.
    apply streq_true in Heq. rewrite Heq. split; [reflexivity |].
    cbn [snd]. now rewrite updatesIn_snoc_log.
  - intros Hne. apply streq_false in Hne. split.
    + intros Hu. rewrite run_eq, Hd, Hf, Hne, updateDNSRecord_eq, Hu.
      destruct (updateOutcome _) as [[] | e]; cbn [snd];
        rewrite updatesIn_snoc_log, updatesIn_snoc_update by apply isUpdate_updateRequest;
        now rewrite H3.
    + intros e Hu. rewrite run_eq, Hd, Hf, Hne, updateDNSRecord_eq, Hu.
      split; [reflexivity |]. cbn [snd]. now rewrite updatesIn_snoc_log.
Qed.

(** The SDK variant after the comparison. *)
Lemma sdk_compare cfg t ip t1 client record currentIP t3 :
  discoverIP w (Config.IPServices cfg) t = (Ok ip, t1) ->
  Sdk.newCloudflareClient env cfg = Ok client ->
  Sdk.fetchDNSRecord w client cfg (t1 ++ [EvLog "detected public IP: %s" [VStr ip]]) = (Ok record, t3) ->
  Sdk.extractARecordIP record = Ok currentIP ->
  (currentIP = ip ->
     Sdk.run w env cfg t
       = (Returned,
          t3 ++ [EvLog "Cloudflare record %s already up to date" [VStr (cloudflare.RecName record)]])
     /\ updatesIn (snd (Sdk.run w env cfg t)) = updatesIn t)
  /\ (currentIP <> ip ->
        updatesIn (snd (Sdk.run w env cfg t))
          = updatesIn t ++ [EvUpdate client (cloudflare.RecID record) (Sdk.updateParams cfg ip)]).
Proof.
  intros Hd Hc Hf He. pose proof (sdk_before_compare _ _ _ _ _ _ _ Hd Hf) as H3.
  split.
  - intros Heq. rewrite sdk_run_eq, Hd, Hc, Hf, He.
    apply streq_true in Heq. rewrite Heq. split; [reflexivity |].
    cbn [snd]. now rewrite updatesIn_snoc_log.
  - intros Hne. apply streq_false in Hne.
    rewrite sdk_run_eq, Hd, Hc, Hf, He, Hne, sdk_updateDNSRecord_eq.
    destruct (recordsUpdate w t3 client _ _); cbn [snd];
      rewrite updatesIn_snoc_log, updatesIn_snoc_update by reflexivity; now rewrite H3.
Qed.

(** The SDK variant on a fetched record that is no A record: nothing is
    compared. *)
Lemma sdk_other_record cfg t ip t1 client record t3 :
  discoverIP w (Config.IPServices cfg) t = (Ok ip, t1) ->
  Sdk.newCloudflareClient env cfg = Ok client ->
  Sdk.fetchDNSRecord w client cfg (t1 ++ [EvLog "detected public IP: %s" [VStr ip]]) = (Ok record, t3) ->
  cloudflare.AsUnion record = cloudflare.UnionOther ->
  Sdk.run w env cfg t
    = (OsExit 1,
       t3 ++ [EvLog "unexpected DNS record content: %v"
                [VErr (Errorf "record type %q is not supported" [AStr (cloudflare.RecType record)])]])
  /\ updatesIn (snd (Sdk.run w env cfg t)) = updatesIn t.
Proof.
  intros Hd Hc Hf Hu. pose proof (sdk_before_compare _ _ _ _ _ _ _ Hd Hf) as H3.
  rewrite sdk_run_eq, Hd, Hc, Hf. unfold Sdk.extractARecordIP. rewrite Hu.
  split; [reflexivity |]. cbn [snd]. now rewrite updatesIn_snoc_log.
Qed.

End Compare.

(** C2 (amended). Once an address is discovered and a record fetched, the
    driver compares two texts for exact equality: the discovered address,
    which is canonical dotted decimal (normalising it again changes
    nothing), and the content of the record as the provider gave it (raw
    variant) or, for a fetched A record, its content with surrounding white
    space trimmed (SDK variant); the content itself is not normalised.
    When they are equal the run logs that the record is up to date,
    returns, and has sent no update.  When they differ the update operation
    runs: the SDK variant makes one update call, the raw variant sends one
    [PATCH] request if it can build it and otherwise exits with status 1
    without one.  In the SDK variant a fetched record that is no A record is
    not compared at all: the run exits with status 1 and makes no update
    call.  Every fetched record is of one of these kinds. *)
Theorem compare_then_update `{Library} (w : World) (env : gmap string string) (cfg : Config)
    (t t1 : trace) (ip : string) :
  discoverIP w (Config.IPServices cfg) t = (Ok ip, t1) ->
  (exists a b c d, ip = GoNet.dotted a b c d)
  /\ canonicalIPv4 ip = Some ip
  /\ (forall record t3,
        Raw.fetchDNSRecord w cfg (t1 ++ [EvLog "detected public IP: %s" [VStr ip]]) = (Ok record, t3) ->
        (DNSRecord.Content record = ip ->
           Raw.run w cfg t
             = (Returned,
                t3 ++ [EvLog "Cloudflare record %s already up to date" [VStr (DNSRecord.Name record)]])
           /\ updatesIn (snd (Raw.run w cfg t)) = updatesIn t)
        /\ (DNSRecord.Content record <> ip ->
              (urlParse (Raw.recordEndpoint cfg (DNSRecord.ID record)) = None ->
                 updatesIn (snd (Raw.run w cfg t))
                   = updatesIn t ++ [EvDo (Raw.updateRequest cfg (DNSRecord.ID record) ip)])
              /\ (forall e, urlParse (Raw.recordEndpoint cfg (DNSRecord.ID record)) = Some e ->
                    Raw.run w cfg t
                      = (OsExit 1, t3 ++ [EvLog "failed to update DNS record: %v" [VErr e]])
                    /\ updatesIn (snd (Raw.run w cfg t)) = updatesIn t)))
  /\ (forall client record content t3,
        Sdk.newCloudflareClient env cfg = Ok client ->
        Sdk.fetchDNSRecord w client cfg (t1 ++ [EvLog "detected public IP: %s" [VStr ip]])
          = (Ok record, t3) ->
        cloudflare.AsUnion record = cloudflare.UnionARecord {| cloudflare.ARecordContent := content |} ->
        (GoStrings.TrimSpace content = ip ->
           Sdk.run w env cfg t
             = (Returned,
                t3 ++ [EvLog "Cloudflare record %s already up to date"
                         [VStr (cloudflare.RecName record)]])
           /\ updatesIn (snd (Sdk.run w env cfg t)) = updatesIn t)
        /\ (GoStrings.TrimSpace content <> ip ->
              updatesIn (snd (Sdk.run w env cfg t))
                = updatesIn t ++ [EvUpdate client (cloudflare.RecID record) (Sdk.updateParams cfg ip)]))
  /\ (forall client record t3,
        Sdk.newCloudflareClient env cfg = Ok client ->
        Sdk.fetchDNSRecord w client cfg (t1 ++ [EvLog "detected public IP: %s" [VStr ip]])
          = (Ok record, t3) ->
        cloudflare.AsUnion record = cloudflare.UnionOther ->
        Sdk.run w env cfg t
          = (OsExit 1,
             t3 ++ [EvLog "unexpected DNS record content: %v"
                      [VErr (Errorf "record type %q is not supported"
                               [AStr (cloudflare.RecType record)])]])
        /\ updatesIn (snd (Sdk.run w env cfg t)) = updatesIn t)
  /\ (forall record : cloudflare.Record_,
        (exists content,
           cloudflare.AsUnion record
             = cloudflare.UnionARecord {| cloudflare.ARecordContent := content |})
        \/ cloudflare.AsUnion record = cloudflare.UnionOther).
Proof.
  intros Hd. split; [exact (discoverIP_Ok_dotted w _ _ _ _ Hd) |].
  split; [exact (discoverIP_Ok_canonical w _ _ _ _ Hd) |]. split; [| split; [| split]].
  - intros record t3 Hf. exact (raw_compare w cfg t ip t1 record t3 Hd Hf).
  - intros client record content t3 Hc Hf Hu.
    apply (sdk_compare w env cfg t ip t1 client record (GoStrings.TrimSpace content) t3); auto.
    unfold Sdk.extractARecordIP. now rewrite Hu.
  - intros client record t3 Hc Hf Hu.
    exact (sdk_other_record w env cfg t ip t1 client record t3 Hd Hc Hf Hu).
  - intros record. destruct (cloudflare.AsUnion record) as [[content] |]; eauto.
Qed.

Lemma compare_then_update_witness :
  updatesIn (snd (Sdk.run (H := exampleLibrary)
                    (exampleWorld "198.51.100.3" 200 "200 OK" "A record-id 198.51.100.2"
                       [exampleSdkRecord "198.51.100.2"]) ∅
                    (exampleConfig "token" "" 120) []))
  = [EvUpdate
       [cloudflare.WithEnvironmentProduction; cloudflare.WithHTTPClient;
        cloudflare.WithAPIToken "secret"]
       "record-id" (Sdk.updateParams (exampleConfig "token" "" 120) "198.51.100.3")].
Proof.
  refine (proj2 (proj1 (proj2 (proj2 (proj2 (compare_then_update (H := exampleLibrary)
    (exampleWorld "198.51.100.3" 200 "200 OK" "A record-id 198.51.100.2"
       [exampleSdkRecord "198.51.100.2"]) ∅
    (exampleConfig "token" "" 120) []
    [EvDo (getRequest "http://invalid.test");
     EvLog "invalid IP %q from %s" [VStr ""; VStr "http://invalid.test"];
     EvDo (getRequest "http://bad-ip.test");
     EvLog "invalid IP %q from %s" [VStr "not-an-ip"; VStr "http://bad-ip.test"];
     EvDo (getRequest "http://valid.test")]
    "198.51.100.3" eq_refl))))
    _ (exampleSdkRecord "198.51.100.2") "198.51.100.2" _ eq_refl eq_refl eq_refl) _).
  intros Heq. vm_compute in Heq. discriminate.
Defined.

(** The record holds the discovered address in IPv4-mapped notation: both
    texts normalise to the same canonical IPv4 text, and both variants send
    an update all the same. *)
Lemma compare_then_update_counterexample :
  canonicalIPv4 "::ffff:198.51.100.3" = Some "198.51.100.3"
  /\ canonicalIPv4 "198.51.100.3" = Some "198.51.100.3"
  /\ fst (discoverIP (H := exampleLibrary)
            (exampleWorld "198.51.100.3" 200 "200 OK" "A record-id ::ffff:198.51.100.3"
               [exampleSdkRecord "::ffff:198.51.100.3"])
            exampleServices [])
     = Ok "198.51.100.3"
  /\ updatesIn (snd (Raw.run (H := exampleLibrary)
                      (exampleWorld "198.51.100.3" 200 "200 OK" "A record-id ::ffff:198.51.100.3"
                         [exampleSdkRecord "::ffff:198.51.100.3"])
                      (exampleConfig "token" "" 120) []))
     = [EvDo (Raw.updateRequest (exampleConfig "token" "" 120) "record-id" "198.51.100.3")]
  /\ updatesIn (snd (Sdk.run (H := exampleLibrary)
                      (exampleWorld "198.51.100.3" 200 "200 OK" "A record-id ::ffff:198.51.100.3"
                         [exampleSdkRecord "::ffff:198.51.100.3"]) ∅
                      (exampleConfig "token" "" 120) []))
     = [EvUpdate [cloudflare.WithEnvironmentProduction;
                  cloudflare.WithHTTPClient; cloudflare.WithAPIToken "secret"] "record-id"
          (Sdk.updateParams (exampleConfig "token" "" 120) "198.51.100.3")].
Proof. repeat split; vm_compute; reflexivity. Qed.

(** C3 (amended). For a valid configuration and a fetched record whose
    content differs from the discovered address, at most one update is
    issued.  In the raw variant it is one [PATCH] request to the endpoint of
    the record, provided the request can be built, and its body has exactly
    the fields type, name, content, ttl and proxied: the new address, and
    the record type, record name, TTL and proxied flag of the
    configuration.  In the SDK variant, for a fetched A record whose
    content, with surrounding white space trimmed, differs, it is one update
    call, with the new address and the record name, record type and proxied
    flag of the configuration, and with the TTL of the configuration
    converted to [float64], which is the TTL itself up to 2^53; for a
    fetched record that is no A record there is no update call, and the run
    exits with status 1. *)
Theorem update_payload `{Library} (w : World) (env : gmap string string) (cfg : Config)
    (t t1 : trace) (ip : string) :
  validConfig cfg ->
  discoverIP w (Config.IPServices cfg) t = (Ok ip, t1) ->
  (forall record t3,
     Raw.fetchDNSRecord w cfg (t1 ++ [EvLog "detected public IP: %s" [VStr ip]]) = (Ok record, t3) ->
     DNSRecord.Content record <> ip ->
     urlParse (Raw.recordEndpoint cfg (DNSRecord.ID record)) = None ->
     updatesIn (snd (Raw.run w cfg t))
       = updatesIn t ++ [EvDo (Raw.updateRequest cfg (DNSRecord.ID record) ip)]
     /\ Method (Raw.updateRequest cfg (DNSRecord.ID record) ip) = MethodPatch
     /\ URL (Raw.updateRequest cfg (DNSRecord.ID record) ip)
          = Raw.recordEndpoint cfg (DNSRecord.ID record)
     /\ Body (Raw.updateRequest cfg (DNSRecord.ID record) ip) = Some (Raw.updateBody cfg ip))
  /\ (Raw.updateBody cfg ip !! "type" = Some (AnyString (Config.RecordType cfg))
      /\ Raw.updateBody cfg ip !! "name" = Some (AnyString (Config.RecordName cfg))
      /\ Raw.updateBody cfg ip !! "content" = Some (AnyString ip)
      /\ Raw.updateBody cfg ip !! "ttl" = Some (AnyInt (Config.TTL cfg))
      /\ Raw.updateBody cfg ip !! "proxied" = Some (AnyBool (Config.Proxied cfg))
      /\ dom (Raw.updateBody cfg ip) = {["type"; "name"; "content"; "ttl"; "proxied"]})
  /\ (forall client record t3,
        Sdk.newCloudflareClient env cfg = Ok client ->
        Sdk.fetchDNSRecord w client cfg (t1 ++ [EvLog "detected public IP: %s" [VStr ip]])
          = (Ok record, t3) ->
        (forall content,
           cloudflare.AsUnion record
             = cloudflare.UnionARecord {| cloudflare.ARecordContent := content |} ->
           GoStrings.TrimSpace content <> ip ->
           updatesIn (snd (Sdk.run w env cfg t))
             = updatesIn t ++ [EvUpdate client (cloudflare.RecID record) (Sdk.updateParams cfg ip)])
        /\ (cloudflare.AsUnion record = cloudflare.UnionOther ->
              fst (Sdk.run w env cfg t) = OsExit 1
              /\ updatesIn (snd (Sdk.run w env cfg t)) = updatesIn t))
  /\ (cloudflare.UpdateZoneID (Sdk.updateParams cfg ip) = Config.ZoneID cfg
      /\ cloudflare.ParamContent (cloudflare.UpdateRecord (Sdk.updateParams cfg ip)) = ip
      /\ cloudflare.ParamName (cloudflare.UpdateRecord (Sdk.updateParams cfg ip)) = Config.RecordName cfg
      /\ cloudflare.ParamType (cloudflare.UpdateRecord (Sdk.updateParams cfg ip)) = Config.RecordType cfg
      /\ cloudflare.ParamProxied (cloudflare.UpdateRecord (Sdk.updateParams cfg ip)) = Config.Proxied cfg
      /\ cloudflare.ParamTTL (cloudflare.UpdateRecord (Sdk.updateParams cfg ip))
           = cloudflare.float64 (Config.TTL cfg)
      /\ (Config.TTL cfg <= 2 ^ 53 ->
            cloudflare.ParamTTL (cloudflare.UpdateRecord (Sdk.updateParams cfg ip)) = Config.TTL cfg)).
Proof.
  intros Hv Hd. split; [| split; [| split]].
  - intros record t3 Hf Hne Hu.
    destruct (raw_compare w cfg t ip t1 record t3 Hd Hf) as [_ Hdiff].
    destruct (Hdiff Hne) as [Hupd _].
    destruct (updateRequest_patch cfg (DNSRecord.ID record) ip) as (Hm & Hb & Hurl).
    split; [now apply Hupd |]. split; [exact Hm |]. split; [exact Hurl | exact Hb].
  - apply updateBody_fields.
  - intros client record t3 Hc Hf. split.
    + intros content Hu Hne.
      apply (sdk_compare w env cfg t ip t1 client record (GoStrings.TrimSpace content) t3);
        auto.
      unfold Sdk.extractARecordIP. now rewrite Hu.
    + intros Hu.
      destruct (sdk_other_record w env cfg t ip t1 client record t3 Hd Hc Hf Hu) as [Hrun Hupd].
      split; [now rewrite Hrun | exact Hupd].
  - destruct Hv as (H60 & _ & Htype & _).
    cbn. do 3 (split; [reflexivity |]). split; [now rewrite Htype |].
    do 2 (split; [reflexivity |]).
    intros Hle. apply float64_exact. lia.
Qed.

(** The example of the specification: current content 198.51.100.2,
    discovered 198.51.100.3. *)
Lemma update_payload_witness :
  updatesIn (snd (Raw.run (H := exampleLibrary)
                    (exampleWorld "198.51.100.3" 200 "200 OK" "A record-id 198.51.100.2" [])
                    (exampleConfig "global" "user@example.com" 120) []))
  = [EvDo (Raw.updateRequest (exampleConfig "global" "user@example.com" 120) "record-id" "198.51.100.3")].
Proof.
  assert (Hv : validConfig (exampleConfig "global" "user@example.com" 120)).
  { apply exampleConfig_valid; [right; split; [reflexivity | discriminate] | lia]. }
  refine (proj1 (proj1 (update_payload (H := exampleLibrary)
    (exampleWorld "198.51.100.3" 200 "200 OK" "A record-id 198.51.100.2" []) ∅
    (exampleConfig "global" "user@example.com" 120) []
    [EvDo (getRequest "http://invalid.test");
     EvLog "invalid IP %q from %s" [VStr ""; VStr "http://invalid.test"];
     EvDo (getRequest "http://bad-ip.test");
     EvLog "invalid IP %q from %s" [VStr "not-an-ip"; VStr "http://bad-ip.test"];
     EvDo (getRequest "http://valid.test")]
    "198.51.100.3" Hv eq_refl)
    (exampleRecord "record-id" "198.51.100.2") _ eq_refl _ eq_refl)).
  discriminate.
Defined.

(** Two runs in which the content differs and the update is not as
    stated.  SDK variant:
    [CF_TTL=9007199254740993] is accepted by [loadConfig], and the update
    call carries the TTL 9007199254740992.  Raw variant: the identifier of
    the fetched record holds a line feed, the request cannot be built, and
    no update request is sent. *)
Lemma update_payload_counterexample :
  (fst (loadConfig (H := exampleLibrary)
          (<[envAuthKey := "secret"]> (<[envZoneID := "zone-id"]> (<[envRecordName := "example.com"]>
           (<[envProxied := "true"]> (<[envTTL := "9007199254740993"]>
           (<[envIPServices := "http://invalid.test,http://bad-ip.test,http://valid.test"]> ∅)))))) [])
     = Ok (exampleConfig "token" "" 9007199254740993)
   /\ updatesIn (snd (Sdk.run (H := exampleLibrary)
                       (exampleWorld "198.51.100.3" 200 "200 OK" "none" [exampleSdkRecord "198.51.100.2"]) ∅
                       (exampleConfig "token" "" 9007199254740993) []))
      = [EvUpdate [cloudflare.WithEnvironmentProduction;
                   cloudflare.WithHTTPClient; cloudflare.WithAPIToken "secret"] "record-id"
           {| cloudflare.UpdateZoneID := "zone-id";
              cloudflare.UpdateRecord :=
                {| cloudflare.ParamName := "example.com"; cloudflare.ParamContent := "198.51.100.3";
                   cloudflare.ParamType := "A"; cloudflare.ParamTTL := 9007199254740992;
                   cloudflare.ParamProxied := true |} |}]
   /\ cloudflare.ParamTTL (cloudflare.UpdateRecord
         (Sdk.updateParams (exampleConfig "token" "" 9007199254740993) "198.51.100.3"))
      <> Config.TTL (exampleConfig "token" "" 9007199254740993))
  /\ (fst (Raw.fetchDNSRecord (H := exampleLibrary)
             (exampleWorld "198.51.100.3" 200 "200 OK"
                ("A record" +:+ String (ascii_of_nat 10) "id 198.51.100.2") [])
             (exampleConfig "token" "" 120) [])
        = Ok (exampleRecord ("record" +:+ String (ascii_of_nat 10) "id") "198.51.100.2")
      /\ updatesIn (snd (Raw.run (H := exampleLibrary)
                          (exampleWorld "198.51.100.3" 200 "200 OK"
                             ("A record" +:+ String (ascii_of_nat 10) "id 198.51.100.2") [])
                          (exampleConfig "token" "" 120) []))
         = []).
Proof.
  split; [split; [| split] | split]; try (vm_compute; reflexivity).
  vm_compute. discriminate.
Qed.

(** ** Whole runs *)

(** The example of the specification, raw variant: the record holds
    198.51.100.2, the services give 198.51.100.3, one [PATCH] request goes
    out and the run returns. *)
Example raw_run_update :
  Raw.run (H := exampleLibrary)
    (exampleWorld "198.51.100.3" 200 "200 OK" "A record-id 198.51.100.2" [])
    (exampleConfig "global" "user@example.com" 120) []
  = (Returned,
     [EvDo (getRequest "http://invalid.test");
      EvLog "invalid IP %q from %s" [VStr ""; VStr "http://invalid.test"];
      EvDo (getRequest "http://bad-ip.test");
      EvLog "invalid IP %q from %s" [VStr "not-an-ip"; VStr "http://bad-ip.test"];
      EvDo (getRequest "http://valid.test");
      EvLog "detected public IP: %s" [VStr "198.51.100.3"];
      EvDo (Raw.listRequest (exampleConfig "global" "user@example.com" 120));
      EvDo (Raw.updateRequest (exampleConfig "global" "user@example.com" 120)
              "record-id" "198.51.100.3");
      EvLog "successfully updated %s from %s to %s"
        [VStr "example.com"; VStr "198.51.100.2"; VStr "198.51.100.3"]]).
Proof. vm_compute. reflexivity. Qed.

(** The record already holds the discovered address: no update. *)
Example raw_run_noop :
  Raw.run (H := exampleLibrary)
    (exampleWorld "198.51.100.3" 200 "200 OK" "A record-id 198.51.100.3" [])
    (exampleConfig "token" "" 120) []
  = (Returned,
     [EvDo (getRequest "http://invalid.test");
      EvLog "invalid IP %q from %s" [VStr ""; VStr "http://invalid.test"];
      EvDo (getRequest "http://bad-ip.test");
      EvLog "invalid IP %q from %s" [VStr "not-an-ip"; VStr "http://bad-ip.test"];
      EvDo (getRequest "http://valid.test");
      EvLog "detected public IP: %s" [VStr "198.51.100.3"];
      EvDo (Raw.listRequest (exampleConfig "token" "" 120));
      EvLog "Cloudflare record %s already up to date" [VStr "example.com"]]).
Proof. vm_compute. reflexivity. Qed.

(** The SDK variant trims the content before it compares: a record that
    holds the discovered address between blanks is left alone. *)
Example sdk_run_noop :
  Sdk.run (H := exampleLibrary)
    (exampleWorld "198.51.100.3" 200 "200 OK" "none" [exampleSdkRecord "  198.51.100.3 "]) ∅
    (exampleConfig "token" "" 120) []
  = (Returned,
     [EvDo (getRequest "http://invalid.test");
      EvLog "invalid IP %q from %s" [VStr ""; VStr "http://invalid.test"];
      EvDo (getRequest "http://bad-ip.test");
      EvLog "invalid IP %q from %s" [VStr "not-an-ip"; VStr "http://bad-ip.test"];
      EvDo (getRequest "http://valid.test");
      EvLog "detected public IP: %s" [VStr "198.51.100.3"];
      EvList [cloudflare.WithEnvironmentProduction;
              cloudflare.WithHTTPClient; cloudflare.WithAPIToken "secret"]
        (Sdk.listParams (exampleConfig "token" "" 120));
      EvLog "Cloudflare record %s already up to date" [VStr "example.com"]]).
Proof. vm_compute. reflexivity. Qed.

Example sdk_run_update :
  Sdk.run (H := exampleLibrary)
    (exampleWorld "198.51.100.3" 200 "200 OK" "none" [exampleSdkRecord "198.51.100.2"]) ∅
    (exampleConfig "global" "user@example.com" 120) []
  = (Returned,
     [EvDo (getRequest "http://invalid.test");
      EvLog "invalid IP %q from %s" [VStr ""; VStr "http://invalid.test"];
      EvDo (getRequest "http://bad-ip.test");
      EvLog "invalid IP %q from %s" [VStr "not-an-ip"; VStr "http://bad-ip.test"];
      EvDo (getRequest "http://valid.test");
      EvLog "detected public IP: %s" [VStr "198.51.100.3"];
      EvList [cloudflare.WithEnvironmentProduction;
              cloudflare.WithHTTPClient; cloudflare.WithAPIKey "secret";
              cloudflare.WithAPIEmail "user@example.com"]
        (Sdk.listParams (exampleConfig "global" "user@example.com" 120));
      EvUpdate [cloudflare.WithEnvironmentProduction;
                cloudflare.WithHTTPClient; cloudflare.WithAPIKey "secret";
                cloudflare.WithAPIEmail "user@example.com"]
        "record-id"
        {| cloudflare.UpdateZoneID := "zone-id";
           cloudflare.UpdateRecord :=
             {| cloudflare.ParamName := "example.com"; cloudflare.ParamContent := "198.51.100.3";
                cloudflare.ParamType := "A"; cloudflare.ParamTTL := 120;
                cloudflare.ParamProxied := true |} |};
      EvLog "successfully updated %s from %s to %s"
        [VStr "example.com"; VStr "198.51.100.2"; VStr "198.51.100.3"]]).
Proof. vm_compute. reflexivity. Qed.

(** * Further properties of the code *)

(** ** IP discovery, in full *)

Section DiscoveryTraffic.
Context `{Library}.
Variable w : World.

(** What [discoverIP] adds to the trace, whatever the outcome: requests to
    services of the list, in the order of the list, one each at most. *)
Lemma discoverIP_trace services t :
  exists d, snd (discoverIP w services t) = t ++ d
    /\ sublist (requestsOf d) (getRequest <$> services)
    /\ updatesIn d = []
    /\ Forall discoveryEvent d.
Proof.
  assert (Hreq : exists d, snd (discoverIP w services t) = t ++ d
            /\ sublist (requestsOf d) (getRequest <$> services)
            /\ updatesIn d = []).
  { revert t. induction services as [|svc rest IH]; intros t.
    - exists []. cbn. rewrite app_nil_r. split; [reflexivity |]. split; [constructor | reflexivity].
    - rewrite discoverIP_cons.
      destruct (queryService_cases w svc t) as [(t1 & Hf & Hq) | (p4 & _ & Hq)]; rewrite Hq.
      + destruct (ServiceFails_trace w _ _ _ Hf) as (d1 & -> & Hs1 & Hu1).
        destruct (IH (t ++ d1)) as (d2 & Hd2 & Hs2 & Hu2).
        exists (d1 ++ d2). rewrite Hd2, app_assoc. split; [reflexivity |].
        rewrite requestsOf_app, updatesIn_app, Hu1, Hu2. split; [| reflexivity].
        change (getRequest <$> svc :: rest) with ([getRequest svc] ++ (getRequest <$> rest)).
        now apply sublist_app.
      + exists [EvDo (getRequest svc)]. cbn. split; [reflexivity |]. split; [| reflexivity].
        apply sublist_skip, sublist_nil_l. }
  destruct Hreq as (d & Hd & Hs & Hu). exists d.
  split; [exact Hd |]. split; [exact Hs |]. split; [exact Hu |].
  destruct (discoverIP_extends w services t) as (d' & Hd' & Hall).
  rewrite Hd in Hd'. apply app_inv_head in Hd'. now subst d'.
Qed.

(** A search that returns an address went past a failing prefix of the list
    to a service that gave the address. *)
Lemma discoverIP_Ok_origin services t ip t' :
  discoverIP w services t = (Ok ip, t') ->
  exists pre svc post t1 parsed4,
    services = pre ++ svc :: post /\ AllFail w pre t t1 /\
    ServiceGivesIPv4 w svc t1 parsed4 /\
    ip = GoNet.String4 parsed4 /\ t' = t1 ++ [EvDo (getRequest svc)].
Proof.
  revert t. induction services as [|svc rest IH]; intros t Hd.
  - discriminate.
  - rewrite discoverIP_cons in Hd.
    destruct (queryService_cases w svc t) as [(t1 & Hf & Hq) | (p4 & Hg & Hq)]; rewrite Hq in Hd.
    + destruct (IH _ Hd) as (pre & svc' & post & t2 & p4 & -> & Hall & Hg & -> & ->).
      exists (svc :: pre), svc', post, t2, p4.
      split; [reflexivity |]. split; [econstructor; eauto |]. auto.
    + inversion Hd; subst. exists [], svc, rest, t, p4.
      split; [reflexivity |]. split; [constructor |]. auto.
Qed.

End DiscoveryTraffic.

(** X1. An address that [discoverIP] returns comes from a service of the
    list: the services before it in the list all failed, that service
    answered with a body whose trimmed text parses as an IPv4 address, the
    result is that address printed, and the request to that service is the
    last event. *)
Theorem discoverIP_success_origin `{Library} (w : World)
    (services : list string) (t t' : trace) (ip : string) :
  discoverIP w services t = (Ok ip, t') ->
  exists pre svc post t1 parsed4,
    services = pre ++ svc :: post /\ AllFail w pre t t1 /\
    ServiceGivesIPv4 w svc t1 parsed4 /\
    ip = GoNet.String4 parsed4 /\ t' = t1 ++ [EvDo (getRequest svc)].
Proof. apply discoverIP_Ok_origin. Qed.

Lemma discoverIP_success_origin_witness :
  exists pre svc post t1 parsed4,
    exampleServices = pre ++ svc :: post
    /\ AllFail (H := exampleLibrary) (exampleWorld "203.0.113.10" 200 "200 OK" "none" []) pre [] t1
    /\ ServiceGivesIPv4 (H := exampleLibrary) (exampleWorld "203.0.113.10" 200 "200 OK" "none" [])
         svc t1 parsed4
    /\ "203.0.113.10" = GoNet.String4 parsed4
    /\ [EvDo (getRequest "http://invalid.test");
        EvLog "invalid IP %q from %s" [VStr ""; VStr "http://invalid.test"];
        EvDo (getRequest "http://bad-ip.test");
        EvLog "invalid IP %q from %s" [VStr "not-an-ip"; VStr "http://bad-ip.test"];
        EvDo (getRequest "http://valid.test")]
       = t1 ++ [EvDo (getRequest svc)].
Proof.
  exact (discoverIP_success_origin (H := exampleLibrary)
           (exampleWorld "203.0.113.10" 200 "200 OK" "none" []) exampleServices [] _ _ eq_refl).
Defined.

(** X2. Whatever the outcome, [discoverIP] sends at most one request per
    service: its requests are bodiless [GET] requests to services of the
    list, in the order of the list, none repeated beyond the list's own
    repetitions, and no update. *)
Theorem discoverIP_one_request_each `{Library} (w : World) (services : list string) (t : trace) :
  exists d, snd (discoverIP w services t) = t ++ d
    /\ sublist (requestsOf d) (getRequest <$> services)
    /\ (length (requestsOf d) <= length services)%nat
    /\ updatesIn d = [].
Proof.
  destruct (discoverIP_trace w services t) as (d & Hd & Hs & Hu & _).
  exists d. split; [exact Hd |]. split; [exact Hs |]. split; [| exact Hu].
  apply sublist_length in Hs. now rewrite length_fmap in Hs.
Qed.

Section StatusBlind.
Context `{Library}.
Variables w w' : World.
Hypothesis same : forall t req, replyBody (roundTrip w t req) = replyBody (roundTrip w' t req).

Lemma queryService_replyBody svc t : queryService w svc t = queryService w' svc t.
Proof.
  unfold queryService. destruct (NewRequest MethodGet svc None) as [req | e]; [| reflexivity].
  unfold bind, Do. specialize (same t req).
  destruct (roundTrip w t req) as [e | resp], (roundTrip w' t req) as [e' | resp'];
    cbn in same; try discriminate.
  - now inversion same.
  - inversion same as [Hb]. now rewrite Hb.
Qed.

Lemma discoverIP_replyBody services t : discoverIP w services t = discoverIP w' services t.
Proof.
  revert t. induction services as [|svc rest IH]; intros t; [reflexivity |].
  rewrite !discoverIP_cons, queryService_replyBody.
  destruct (queryService w' svc t) as [[ip|] t1]; [reflexivity | apply IH].
Qed.

End StatusBlind.

(** X3. [discoverIP] does not look at the status of a response: two
    networks whose replies differ in status code and status text only give
    the same result and the same trace. *)
Theorem discoverIP_status_blind `{Library} (w w' : World) (services : list string) (t : trace) :
  (forall t0 req, replyBody (roundTrip w t0 req) = replyBody (roundTrip w' t0 req)) ->
  discoverIP w services t = discoverIP w' services t.
Proof. intros Hsame. now apply discoverIP_replyBody. Qed.

(** A server that answers 503 with an address in the body is believed. *)
Lemma discoverIP_status_blind_witness :
  discoverIP (H := exampleLibrary) (exampleWorld "" 200 "200 OK" "203.0.113.7" [])
    ["http://other.test"] []
  = discoverIP (H := exampleLibrary) (exampleWorld "" 503 "503 Service Unavailable" "203.0.113.7" [])
      ["http://other.test"] []
  /\ fst (discoverIP (H := exampleLibrary)
            (exampleWorld "" 503 "503 Service Unavailable" "203.0.113.7" [])
            ["http://other.test"] []) = Ok "203.0.113.7".
Proof.
  split; [| reflexivity].
  apply discoverIP_status_blind.
  intros t0 req. cbn. repeat case_match; reflexivity.
Defined.

(** ** The address that the search returns *)

(** X18. An address that [discoverIP] returns is a valid IPv4 address in
    dotted decimal: four numbers from 0 to 255 separated by dots, with no
    colon and no white space around it; read again as an IP address it
    gives the same four bytes. *)
Theorem discoverIP_valid_address `{Library} (w : World)
    (services : list string) (t t' : trace) (ip : string) :
  discoverIP w services t = (Ok ip, t') ->
  exists a b c d,
    (0 <= a <= 255 /\ 0 <= b <= 255 /\ 0 <= c <= 255 /\ 0 <= d <= 255)
    /\ ip = GoNet.dotted a b c d
    /\ ~ ":"%char ∈ bytes ip
    /\ GoStrings.TrimSpace ip = ip
    /\ GoNet.ParseIP ip = Some (GoNet.v4InV6 [a; b; c; d])
    /\ GoNet.To4 (GoNet.v4InV6 [a; b; c; d]) = Some [a; b; c; d].
Proof.
  intros Hd.
  destruct (discoverIP_Ok_origin w _ _ _ _ Hd)
    as (pre & svc & post & t1 & p4 & _ & _ & Hg & -> & _).
  destruct Hg as [_ (resp & body & parsed & _ & _ & Hp & H4)].
  pose proof (To4_range _ _ (ParseIP_range _ _ Hp) H4) as Hr.
  destruct (To4_four _ _ H4) as (a & b & c & d & ->).
  apply Forall_cons in Hr as [Ha Hr]. apply Forall_cons in Hr as [Hb Hr].
  apply Forall_cons in Hr as [Hc Hr]. apply Forall_cons in Hr as [Hd' _].
  exists a, b, c, d. cbn [GoNet.String4].
  split; [auto |]. split; [reflexivity |]. split; [apply dotted_no_colon |].
  split; [apply TrimSpace_dotted |]. split; [now apply ParseIP_dotted |].
  reflexivity.
Qed.

Lemma discoverIP_valid_address_witness :
  exists a b c d,
    (0 <= a <= 255 /\ 0 <= b <= 255 /\ 0 <= c <= 255 /\ 0 <= d <= 255)
    /\ "203.0.113.10" = GoNet.dotted a b c d
    /\ ~ ":"%char ∈ bytes "203.0.113.10"
    /\ GoStrings.TrimSpace "203.0.113.10" = "203.0.113.10"
    /\ GoNet.ParseIP "203.0.113.10" = Some (GoNet.v4InV6 [a; b; c; d])
    /\ GoNet.To4 (GoNet.v4InV6 [a; b; c; d]) = Some [a; b; c; d].
Proof.
  exact (discoverIP_valid_address (H := exampleLibrary)
           (exampleWorld " 203.0.113.10 " 200 "200 OK" "none" []) exampleServices [] _ _ eq_refl).
Defined.

(** ** The configuration, in full *)

Section LoadConfigMore.
Context `{Library}.

(** The loop of [loadConfig] over the parts of [CF_IP_SERVICES] keeps the
    trimmed parts that are not blank, in their order. *)
Lemma services_loop raw acc :
  foldl (fun acc svc =>
           let trimmed := GoStrings.TrimSpace svc in
           if negb (streq trimmed "") then acc ++ [trimmed] else acc) acc raw
  = acc ++ List.filter (fun svc => negb (streq svc "")) (GoStrings.TrimSpace <$> raw).
Proof.
  revert acc. induction raw as [|svc raw IH]; intros acc; cbn.
  - now rewrite app_nil_r.
  - rewrite IH. destruct (negb (streq (GoStrings.TrimSpace svc) "")); [| reflexivity].
    now rewrite <- app_assoc.
Qed.

Lemma parseIPServices_entries v :
  parseIPServices v =
    match serviceEntries v with
    | [] => defaultIPServices
    | entries => entries
    end.
Proof.
  unfold parseIPServices. destruct (streq v "") eqn:Ev.
  - apply streq_true in Ev. subst v. reflexivity.
  - rewrite services_loop. cbn [app]. fold (serviceEntries v).
    destruct (serviceEntries v); reflexivity.
Qed.

Lemma serviceEntries_nonblank v : Forall (fun svc => svc <> "") (serviceEntries v).
Proof.
  unfold serviceEntries. apply Forall_forall. intros svc Hin.
  apply list_elem_of_In, List.filter_In in Hin. destruct Hin as [_ Hne].
  apply negb_true_iff, streq_false in Hne. exact Hne.
Qed.

(** What [loadConfig] leaves in the trace: nothing, or the one warning. *)
Lemma loadConfig_trace env t :
  snd (loadConfig env t) = t \/
  snd (loadConfig env t)
    = t ++ [EvLog "warning: %s is empty; API tokens typically do not require it" [VStr envAuthEmail]].
Proof.
  unfold loadConfig, bindR, bind, ret, checkAuth, Printf, emit, bind, ret.
  repeat case_match; cbn; simplify_eq; cbn; auto.
Qed.

End LoadConfigMore.

(** X4. The services of a loaded configuration are the comma-separated
    parts of [CF_IP_SERVICES], each trimmed, in their order, the blank ones
    dropped; when none is left (the variable unset, blank, or only commas
    and white space) they are the three default services.  No service of a
    loaded configuration is the empty text. *)
Theorem loadConfig_services `{Library} (env : gmap string string) (t t' : trace) (cfg : Config) :
  loadConfig env t = (Ok cfg, t') ->
  Config.IPServices cfg =
    match serviceEntries (envValue env envIPServices) with
    | [] => defaultIPServices
    | entries => entries
    end
  /\ Forall (fun svc => svc <> "") (Config.IPServices cfg).
Proof.
  intros Hl.
  destruct (loadConfig_cases env t) as [(e & t1 & He & _) | (ttl & proxied & t1 & Hok & _)];
    [congruence |].
  rewrite Hok in Hl. inversion Hl; subst. cbn [Config.IPServices].
  rewrite parseIPServices_entries. split; [reflexivity |].
  pose proof (serviceEntries_nonblank (envValue env envIPServices)) as Hne.
  destruct (serviceEntries (envValue env envIPServices)); [| exact Hne].
  repeat constructor; discriminate.
Qed.

(** A list with blanks: two services are left. *)
Lemma loadConfig_services_witness :
  Forall (fun svc => svc <> "") ["https://one.test"; "https://two.test"].
Proof.
  exact (proj2 (loadConfig_services (H := exampleLibrary)
    (<["CF_AUTH_KEY" := "secret"]> (<["CF_ZONE_ID" := "zone"]> (<["CF_RECORD_NAME" := "example.com"]>
       (<["CF_IP_SERVICES" := " https://one.test ,, https://two.test , "]> ∅))))
    []
    [EvLog "warning: %s is empty; API tokens typically do not require it" [VStr envAuthEmail]]
    (Config.mk "" "token" "secret" "zone" "example.com" "A" 300 false
       ["https://one.test"; "https://two.test"])
    eq_refl)).
Defined.

Section LoadConfigOrder.
Context `{Library}.

Lemma loadConfig_unfold env t :
  loadConfig env t =
    match parseTTL (envValue env envTTL) with
    | Err e => (Err e, t)
    | Ok ttl =>
        match parseProxied (envValue env envProxied) with
        | Err e => (Err e, t)
        | Ok proxied =>
            if streq (envValue env envAuthKey) "" then (Err (Errorf "%s is required" [AStr envAuthKey]), t)
            else
              match checkAuth (envMethod env) (envValue env envAuthEmail) t with
              | (Err e, t1) => (Err e, t1)
              | (Ok _, t1) =>
                  if streq (envValue env envZoneID) "" then
                    (Err (Errorf "%s is required" [AStr envZoneID]), t1)
                  else if streq (envValue env envRecordName) "" then
                    (Err (Errorf "%s is required" [AStr envRecordName]), t1)
                  else if negb (streq (envType env) "A") then
                    (Err (Errorf "unsupported %s %q (only A records are handled)"
                            [AStr envRecordType; AStr (envType env)]), t1)
                  else
                    (Ok (Config.mk (envValue env envAuthEmail) (envMethod env)
                           (envValue env envAuthKey) (envValue env envZoneID)
                           (envValue env envRecordName) (envType env) ttl proxied
                           (parseIPServices (envValue env envIPServices))), t1)
              end
        end
    end.
Proof.
  unfold loadConfig, bindR, bind, ret.
  fold (envValue env envAuthEmail) (envValue env envAuthMethod) (envValue env envAuthKey)
       (envValue env envZoneID) (envValue env envRecordName) (envValue env envRecordType)
       (envValue env envTTL) (envValue env envProxied) (envValue env envIPServices).
  fold (envMethod env) (envType env).
  destruct (parseTTL (envValue env envTTL)) as [ttl | e]; [| reflexivity].
  destruct (parseProxied (envValue env envProxied)) as [proxied | e]; [| reflexivity].
  destruct (streq (envValue env envAuthKey) ""); [reflexivity |].
  destruct (checkAuth (envMethod env) (envValue env envAuthEmail) t) as [[[] | e] t1];
    [| reflexivity].
  repeat case_match; reflexivity.
Qed.

Lemma parseTTL_error v e :
  parseTTL v = Err e -> e = Errorf "invalid %s value %q" [AStr envTTL; AStr v].
Proof. unfold parseTTL. repeat case_match; congruence. Qed.

Lemma parseProxied_error v e :
  parseProxied v = Err e -> e = Errorf "invalid %s value %q" [AStr envProxied; AStr v].
Proof. unfold parseProxied. repeat case_match; congruence. Qed.

Lemma checkAuth_Ok method email t :
  method = "token" \/ (method = "global" /\ email <> "") ->
  exists t1, checkAuth method email t = (Ok tt, t1).
Proof.
  unfold checkAuth, Printf, emit, bind, ret. intros [-> | [-> He]]; cbn.
  - destruct (streq email ""); eauto.
  - apply streq_false in He. rewrite He. eauto.
Qed.

End LoadConfigOrder.

(** X5. [loadConfig] writes one log line at most, the warning about a token
    without an email.  It writes it exactly when the TTL and the proxied
    flag are accepted, the key is not empty, the method is [token] and the
    email is empty: also when it then refuses the environment for its zone,
    record name or record type.  In every other case it logs nothing. *)
Theorem loadConfig_token_warning `{Library} (env : gmap string string) (t : trace) :
  ((exists ttl, parseTTL (envValue env envTTL) = Ok ttl) /\
   (exists proxied, parseProxied (envValue env envProxied) = Ok proxied) /\
   envValue env envAuthKey <> "" /\ envMethod env = "token" /\ envValue env envAuthEmail = "" ->
   snd (loadConfig env t)
     = t ++ [EvLog "warning: %s is empty; API tokens typically do not require it"
               [VStr "CF_AUTH_EMAIL"]])
  /\ (~ ((exists ttl, parseTTL (envValue env envTTL) = Ok ttl) /\
         (exists proxied, parseProxied (envValue env envProxied) = Ok proxied) /\
         envValue env envAuthKey <> "" /\ envMethod env = "token" /\
         envValue env envAuthEmail = "") ->
      snd (loadConfig env t) = t).
Proof.
  rewrite loadConfig_unfold. split.
  - intros ([ttl Ht] & [proxied Hp] & Hk & Hm & He).
    rewrite Ht, Hp. apply streq_false in Hk. rewrite Hk.
    unfold checkAuth, Printf, emit, bind, ret. rewrite Hm, He. cbn.
    repeat case_match; reflexivity.
  - intros Hn.
    destruct (parseTTL (envValue env envTTL)) as [ttl | e] eqn:Ht; [| reflexivity].
    destruct (parseProxied (envValue env envProxied)) as [proxied | e] eqn:Hp; [| reflexivity].
    destruct (streq (envValue env envAuthKey) "") eqn:Hk; [reflexivity |].
    apply streq_false in Hk.
    unfold checkAuth, Printf, emit, bind, ret.
    destruct (streq (envMethod env) "token") eqn:Hm.
    + apply streq_true in Hm.
      destruct (streq (envValue env envAuthEmail) "") eqn:He.
      * apply streq_true in He. exfalso. apply Hn. eauto 10.
      * repeat case_match; simplify_eq; reflexivity.
    + repeat case_match; simplify_eq; reflexivity.
Qed.

(** X6. [loadConfig] reports the first rule that the environment breaks, in
    this order: the TTL, the proxied flag, the key, the auth method and its
    email, the zone, the record name, the record type.  The error names the
    variable, and for a value that is refused it quotes the value as
    normalised. *)
Theorem loadConfig_first_error `{Library} (env : gmap string string) (t : trace) :
  (forall e, parseTTL (envValue env envTTL) = Err e ->
     fst (loadConfig env t)
       = Err (Errorf "invalid %s value %q" [AStr "CF_TTL"; AStr (envValue env envTTL)]))
  /\ (forall ttl e,
        parseTTL (envValue env envTTL) = Ok ttl ->
        parseProxied (envValue env envProxied) = Err e ->
        fst (loadConfig env t)
          = Err (Errorf "invalid %s value %q" [AStr "CF_PROXIED"; AStr (envValue env envProxied)]))
  /\ (forall ttl proxied,
        parseTTL (envValue env envTTL) = Ok ttl ->
        parseProxied (envValue env envProxied) = Ok proxied ->
        (envValue env envAuthKey = "" ->
           fst (loadConfig env t) = Err (Errorf "%s is required" [AStr "CF_AUTH_KEY"]))
        /\ (envValue env envAuthKey <> "" ->
            (envMethod env <> "token" -> envMethod env <> "global" ->
               fst (loadConfig env t)
                 = Err (Errorf "unsupported %s %q (must be 'token' or 'global')"
                          [AStr "CF_AUTH_METHOD"; AStr (envMethod env)]))
            /\ (envMethod env = "global" -> envValue env envAuthEmail = "" ->
                  fst (loadConfig env t)
                    = Err (Errorf "%s is required when %s is 'global'"
                             [AStr "CF_AUTH_EMAIL"; AStr "CF_AUTH_METHOD"]))
            /\ (envMethod env = "token" \/
                (envMethod env = "global" /\ envValue env envAuthEmail <> "") ->
                (envValue env envZoneID = "" ->
                   fst (loadConfig env t) = Err (Errorf "%s is required" [AStr "CF_ZONE_ID"]))
                /\ (envValue env envZoneID <> "" -> envValue env envRecordName = "" ->
                      fst (loadConfig env t) = Err (Errorf "%s is required" [AStr "CF_RECORD_NAME"]))
                /\ (envValue env envZoneID <> "" -> envValue env envRecordName <> "" ->
                    envType env <> "A" ->
                      fst (loadConfig env t)
                        = Err (Errorf "unsupported %s %q (only A records are handled)"
                                 [AStr "CF_RECORD_TYPE"; AStr (envType env)]))))).
Proof.
  rewrite loadConfig_unfold. split; [| split].
  - intros e He. rewrite He. cbn. now rewrite (parseTTL_error _ _ He).
  - intros ttl e Ht He. rewrite Ht, He. cbn. now rewrite (parseProxied_error _ _ He).
  - intros ttl proxied Ht Hp. rewrite Ht, Hp. split.
    + intros Hk. now rewrite Hk.
    + intros Hk. apply streq_false in Hk. rewrite Hk. split; [| split].
      * intros Hm1 Hm2. apply streq_false in Hm1, Hm2.
        unfold checkAuth, ret. now rewrite Hm1, Hm2.
      * intros Hm He. unfold checkAuth, ret. now rewrite Hm, He.
      * intros Hauth.
        destruct (checkAuth_Ok _ _ t Hauth) as [t1 Hc]. rewrite Hc. split; [| split].
        -- intros Hz. now rewrite Hz.
        -- intros Hz Hn. apply streq_false in Hz. now rewrite Hz, Hn.
        -- intros Hz Hn Hty. apply streq_false in Hz, Hn, Hty. now rewrite Hz, Hn, Hty.
Qed.

(** ** Authentication of any configuration *)

(** X7. [applyAuthHeaders] on any request and any configuration, valid or
    not: it changes nothing of the request but the three headers
    [Authorization], [X-Auth-Key] and [X-Auth-Email], whose earlier values it
    replaces.  Every method other than [global], also an empty or a misspelt
    one, is sent as a bearer token and leaves the key header alone; [global]
    sets the key header and leaves [Authorization] alone.  The email header
    is set whenever an email is configured, under the token method too, and
    left alone otherwise. *)
Theorem applyAuthHeaders_frame (req : Request) (cfg : Config) :
  Method (Raw.applyAuthHeaders req cfg) = Method req
  /\ URL (Raw.applyAuthHeaders req cfg) = URL req
  /\ Body (Raw.applyAuthHeaders req cfg) = Body req
  /\ (forall k, k <> "Authorization" -> k <> "X-Auth-Key" -> k <> "X-Auth-Email" ->
        Header (Raw.applyAuthHeaders req cfg) !! k = Header req !! k)
  /\ (Config.AuthMethod cfg <> "global" ->
        Header (Raw.applyAuthHeaders req cfg) !! "Authorization"
          = Some ("Bearer " +:+ Config.AuthKey cfg)
        /\ Header (Raw.applyAuthHeaders req cfg) !! "X-Auth-Key" = Header req !! "X-Auth-Key")
  /\ (Config.AuthMethod cfg = "global" ->
        Header (Raw.applyAuthHeaders req cfg) !! "X-Auth-Key" = Some (Config.AuthKey cfg)
        /\ Header (Raw.applyAuthHeaders req cfg) !! "Authorization" = Header req !! "Authorization")
  /\ (Config.AuthEmail cfg <> "" ->
        Header (Raw.applyAuthHeaders req cfg) !! "X-Auth-Email" = Some (Config.AuthEmail cfg))
  /\ (Config.AuthEmail cfg = "" ->
        Header (Raw.applyAuthHeaders req cfg) !! "X-Auth-Email" = Header req !! "X-Auth-Email").
Proof.
  split; [| split; [| split]];
    try (unfold Raw.applyAuthHeaders, HeaderSet; repeat case_match; reflexivity).
  split; [| split; [| split; [| split]]].
  - intros k H1 H2 H3. rewrite applyAuthHeaders_lookup. repeat case_decide; congruence.
  - intros Hm. apply streq_false in Hm. rewrite !applyAuthHeaders_lookup, Hm. split; reflexivity.
  - intros Hm. rewrite !applyAuthHeaders_lookup, Hm. split; reflexivity.
  - intros He. apply streq_false in He. now rewrite applyAuthHeaders_lookup, He.
  - intros He. now rewrite applyAuthHeaders_lookup, He.
Qed.

(** ** The fetch and the update of the raw variant, in full *)

(** X8. The outcomes of [fetchDNSRecord] that are left: a transport error
    and a body that does not decode are returned as they are, after the one
    request; and from a successful answer the first record is returned,
    whatever follows it in the list.  The SDK variant takes the first record
    of the page in the same way. *)
Theorem fetch_first_record `{Library} (w : World) (cfg : Config) (t : trace) :
  urlParse (Raw.listEndpoint cfg) = None ->
  (forall e, roundTrip w t (Raw.listRequest cfg) = NetError e ->
     Raw.fetchDNSRecord w cfg t = (Err e, t ++ [EvDo (Raw.listRequest cfg)]))
  /\ (forall resp e,
        roundTrip w t (Raw.listRequest cfg) = Resp resp ->
        StatusCode resp = StatusOK ->
        decodeList (RespBody resp) = Err e ->
        Raw.fetchDNSRecord w cfg t = (Err e, t ++ [EvDo (Raw.listRequest cfg)]))
  /\ (forall resp payload first rest,
        roundTrip w t (Raw.listRequest cfg) = Resp resp ->
        StatusCode resp = StatusOK ->
        decodeList (RespBody resp) = Ok payload ->
        listSuccess payload = true ->
        listResult payload = first :: rest ->
        Raw.fetchDNSRecord w cfg t = (Ok first, t ++ [EvDo (Raw.listRequest cfg)]))
  /\ (forall client first rest,
        recordsList w t client (Sdk.listParams cfg) = Ok (first :: rest) ->
        Sdk.fetchDNSRecord w client cfg t = (Ok first, t ++ [EvList client (Sdk.listParams cfg)])).
Proof.
  intros Hu. split; [| split; [| split]].
  - intros e Hr. rewrite fetchDNSRecord_eq, Hu, Hr. reflexivity.
  - intros resp e Hr Hs Hd. rewrite fetchDNSRecord_eq, Hu, Hr. unfold fetchOutcome.
    now rewrite Hs, Hd.
  - intros resp payload first rest Hr Hs Hd Hok Hres.
    rewrite fetchDNSRecord_eq, Hu, Hr. unfold fetchOutcome. now rewrite Hs, Hd, Hok, Hres.
  - intros client first rest Hl. rewrite sdk_fetchDNSRecord_eq, Hl. reflexivity.
Qed.

(** The fetch of the repository's test. *)
Lemma fetch_first_record_witness :
  Raw.fetchDNSRecord (H := exampleLibrary)
    (exampleWorld "198.51.100.3" 200 "200 OK" "A record-id 198.51.100.2" [])
    (exampleConfig "token" "" 120) []
  = (Ok (exampleRecord "record-id" "198.51.100.2"),
     [EvDo (Raw.listRequest (exampleConfig "token" "" 120))]).
Proof.
  exact (proj1 (proj2 (proj2
    (fetch_first_record (H := exampleLibrary)
       (exampleWorld "198.51.100.3" 200 "200 OK" "A record-id 198.51.100.2" [])
       (exampleConfig "token" "" 120) [] eq_refl)))
    _ _ (exampleRecord "record-id" "198.51.100.2") [] eq_refl eq_refl eq_refl eq_refl eq_refl).
Defined.

(** X9. What [updateDNSRecord] makes of the provider's answer, after the one
    request it sends, which is marked as JSON: a transport error is returned
    as it is; a status other than 200 gives [unexpected status %s] with the
    status line, the body not being decoded; a body that does not decode
    gives the decoder's error; a decoded answer with [success] false gives
    [cloudflare update failed: %v] over the provider's errors; only status
    200 with [success] true is a success. *)
Theorem updateDNSRecord_outcomes `{Library} (w : World) (cfg : Config)
    (recordID newIP : string) (t : trace) :
  urlParse (Raw.recordEndpoint cfg recordID) = None ->
  snd (Raw.updateDNSRecord w cfg recordID newIP t)
    = t ++ [EvDo (Raw.updateRequest cfg recordID newIP)]
  /\ Header (Raw.updateRequest cfg recordID newIP) !! "Content-Type" = Some "application/json"
  /\ (forall e, roundTrip w t (Raw.updateRequest cfg recordID newIP) = NetError e ->
        fst (Raw.updateDNSRecord w cfg recordID newIP t) = Err e)
  /\ (forall resp,
        roundTrip w t (Raw.updateRequest cfg recordID newIP) = Resp resp ->
        StatusCode resp <> StatusOK ->
        fst (Raw.updateDNSRecord w cfg recordID newIP t)
          = Err (Errorf "unexpected status %s" [AStr (Status resp)]))
  /\ (forall resp e,
        roundTrip w t (Raw.updateRequest cfg recordID newIP) = Resp resp ->
        StatusCode resp = StatusOK ->
        decodeUpdate (RespBody resp) = Err e ->
        fst (Raw.updateDNSRecord w cfg recordID newIP t) = Err e)
  /\ (forall resp res,
        roundTrip w t (Raw.updateRequest cfg recordID newIP) = Resp resp ->
        StatusCode resp = StatusOK ->
        decodeUpdate (RespBody resp) = Ok res ->
        (updateSuccess res = false ->
           fst (Raw.updateDNSRecord w cfg recordID newIP t)
             = Err (Errorf "cloudflare update failed: %v" [AErrors (updateErrors res)]))
        /\ (updateSuccess res = true ->
              fst (Raw.updateDNSRecord w cfg recordID newIP t) = Ok tt)).
Proof.
  intros Hu. rewrite updateDNSRecord_eq, Hu. cbn [fst snd].
  split; [reflexivity |]. split.
  { unfold Raw.updateRequest. rewrite applyAuthHeaders_lookup.
    repeat case_decide; try discriminate. reflexivity. }
  split; [| split; [| split]].
  - intros e Hr. now rewrite Hr.
  - intros resp Hr Hs. rewrite Hr. unfold updateOutcome. apply Z.eqb_neq in Hs. now rewrite Hs.
  - intros resp e Hr Hs Hd. rewrite Hr. unfold updateOutcome. now rewrite Hs, Hd.
  - intros resp res Hr Hs Hd. rewrite Hr. unfold updateOutcome. rewrite Hs, Hd.
    split; intros Hok; now rewrite Hok.
Qed.

(** A provider that answers the update with 403. *)
Lemma updateDNSRecord_outcomes_witness :
  fst (Raw.updateDNSRecord (H := exampleLibrary) (refusingWorld "198.51.100.3" "198.51.100.2")
         (exampleConfig "token" "" 120) "record-id" "198.51.100.3" [])
  = Err (Errorf "unexpected status %s" [AStr "403 Forbidden"]).
Proof.
  refine (proj1 (proj2 (proj2 (proj2
    (updateDNSRecord_outcomes (H := exampleLibrary) (refusingWorld "198.51.100.3" "198.51.100.2")
       (exampleConfig "token" "" 120) "record-id" "198.51.100.3" [] eq_refl))))
    {| StatusCode := 403; Status := "403 Forbidden"; RespBody := Complete "denied" |} eq_refl _).
  discriminate.
Defined.

(** X10. An update that fails ends the run: in both variants the error is
    logged as [failed to update DNS record: %v] after the one update that was
    tried, and the process exits with status 1; the update is not tried
    again. *)
Theorem update_failure_aborts `{Library} (w : World) (env : gmap string string)
    (cfg : Config) (t t1 : trace) (ip : string) :
  discoverIP w (Config.IPServices cfg) t = (Ok ip, t1) ->
  (forall record t3 e t4,
     Raw.fetchDNSRecord w cfg (t1 ++ [EvLog "detected public IP: %s" [VStr ip]]) = (Ok record, t3) ->
     DNSRecord.Content record <> ip ->
     Raw.updateDNSRecord w cfg (DNSRecord.ID record) ip t3 = (Err e, t4) ->
     Raw.run w cfg t = (OsExit 1, t4 ++ [EvLog "failed to update DNS record: %v" [VErr e]])
     /\ (t4 = t3 \/ t4 = t3 ++ [EvDo (Raw.updateRequest cfg (DNSRecord.ID record) ip)]))
  /\ (forall client record currentIP t3 e,
        Sdk.newCloudflareClient env cfg = Ok client ->
        Sdk.fetchDNSRecord w client cfg (t1 ++ [EvLog "detected public IP: %s" [VStr ip]])
          = (Ok record, t3) ->
        Sdk.extractARecordIP record = Ok currentIP ->
        currentIP <> ip ->
        recordsUpdate w t3 client (cloudflare.RecID record) (Sdk.updateParams cfg ip) = Some e ->
        Sdk.run w env cfg t
          = (OsExit 1,
             (t3 ++ [EvUpdate client (cloudflare.RecID record) (Sdk.updateParams cfg ip)])
             ++ [EvLog "failed to update DNS record: %v" [VErr e]])).
Proof.
  intros Hd. split.
  - intros record t3 e t4 Hf Hne Hupd. apply streq_false in Hne.
    rewrite run_eq, Hd, Hf, Hne, Hupd. split; [reflexivity |].
    rewrite updateDNSRecord_eq in Hupd.
    destruct (urlParse (Raw.recordEndpoint cfg (DNSRecord.ID record)));
      inversion Hupd; auto.
  - intros client record currentIP t3 e Hc Hf He Hne Hupd. apply streq_false in Hne.
    rewrite sdk_run_eq, Hd, Hc, Hf, He, Hne, sdk_updateDNSRecord_eq, Hupd. reflexivity.
Qed.

(** A run against a provider that refuses the update. *)
Lemma update_failure_aborts_witness :
  Sdk.run (H := exampleLibrary) (refusingWorld "198.51.100.3" "198.51.100.2") ∅
    (exampleConfig "token" "" 120) []
  = (OsExit 1,
     [EvDo (getRequest "http://invalid.test");
      EvLog "invalid IP %q from %s" [VStr ""; VStr "http://invalid.test"];
      EvDo (getRequest "http://bad-ip.test");
      EvLog "invalid IP %q from %s" [VStr "not-an-ip"; VStr "http://bad-ip.test"];
      EvDo (getRequest "http://valid.test");
      EvLog "detected public IP: %s" [VStr "198.51.100.3"];
      EvList [cloudflare.WithEnvironmentProduction;
              cloudflare.WithHTTPClient; cloudflare.WithAPIToken "secret"]
        (Sdk.listParams (exampleConfig "token" "" 120));
      EvUpdate [cloudflare.WithEnvironmentProduction;
                cloudflare.WithHTTPClient; cloudflare.WithAPIToken "secret"] "record-id"
        (Sdk.updateParams (exampleConfig "token" "" 120) "198.51.100.3");
      EvLog "failed to update DNS record: %v" [VErr (Foreign "403 Forbidden")]]).
Proof.
  refine (proj2 (update_failure_aborts (H := exampleLibrary)
            (refusingWorld "198.51.100.3" "198.51.100.2") ∅
            (exampleConfig "token" "" 120) [] _ "198.51.100.3" eq_refl)
          _ (exampleSdkRecord "198.51.100.2") "198.51.100.2" _ (Foreign "403 Forbidden")
          eq_refl eq_refl eq_refl _ eq_refl).
  discriminate.
Defined.

(** ** Runs that stop early *)

Lemma extends_filter (f : event -> bool) (P : event -> Prop) t t' :
  (forall e, P e -> f e = false) -> extends P t t' -> List.filter f t' = List.filter f t.
Proof.
  intros HP (d & -> & Hd). rewrite List.filter_app.
  assert (Hnil : List.filter f d = []).
  { induction Hd as [|e d He _ IH]; [reflexivity |]. cbn. now rewrite (HP e He). }
  now rewrite Hnil, app_nil_r.
Qed.

Lemma discoveryEvent_not_call e : discoveryEvent e -> isSdkCall e = false.
Proof. destruct e; cbn; tauto. Qed.

Lemma isLog_not_call e : isLog e -> isSdkCall e = false.
Proof. destruct e; cbn; tauto. Qed.

Lemma isLog_discoveryEvent e : isLog e -> discoveryEvent e.
Proof. destruct e; cbn; tauto. Qed.

Lemma extends_isLog_requestsOf t t' : extends isLog t t' -> requestsOf t' = requestsOf t.
Proof.
  intros (d & -> & Hd). rewrite requestsOf_app.
  assert (Hnil : requestsOf d = []).
  { induction Hd as [|e d He _ IH]; [reflexivity |]. destruct e; cbn in He; try contradiction.
    exact IH. }
  now rewrite Hnil, app_nil_r.
Qed.

Section EarlyStops.
Context `{Library}.
Variable w : World.

(** A configuration that [loadConfig] returns has one of the two methods. *)
Lemma loadConfig_method env t cfg t' :
  loadConfig env t = (Ok cfg, t') ->
  Config.AuthMethod cfg = "token" \/ Config.AuthMethod cfg = "global".
Proof.
  intros Hl.
  destruct (loadConfig_cases env t) as [(e & t1 & He & _) | (ttl & proxied & t1 & Hok & _ & _ & Hv)];
    [congruence |].
  rewrite Hok in Hl. inversion Hl; subst. cbn [Config.AuthMethod].
  destruct (decide (envMethod env = "token")) as [Ht | Ht]; [now left |].
  destruct (decide (envMethod env = "global")) as [Hg | Hg]; [now right |].
  exfalso. apply Hv. do 3 right; left. split; assumption.
Qed.

(** An environment that breaks a rule makes [loadConfig] fail. *)
Lemma loadConfig_invalid env t :
  InvalidEnv env -> exists e, fst (loadConfig env t) = Err e.
Proof.
  intros Hbad.
  destruct (loadConfig_cases env t) as [(e & t1 & He & _) | (ttl & proxied & t1 & _ & _ & _ & Hv)];
    [| contradiction].
  exists e. now rewrite He.
Qed.

End EarlyStops.

(** X11. [newCloudflareClient] makes a client exactly for the methods
    [token] and [global]; for any other method it returns
    [unsupported auth method %q], and the run of the SDK variant, which has
    by then searched for the address, logs
    [failed to configure Cloudflare client: %v] and exits with status 1
    without any call of the SDK.  This never happens to a configuration
    that [loadConfig] returned. *)
Theorem sdk_client_unsupported `{Library} (w : World) (env : gmap string string) (cfg : Config) :
  ((Config.AuthMethod cfg = "token" \/ Config.AuthMethod cfg = "global") <->
     exists client, Sdk.newCloudflareClient env cfg = Ok client)
  /\ (Config.AuthMethod cfg <> "token" -> Config.AuthMethod cfg <> "global" ->
      Sdk.newCloudflareClient env cfg
        = Err (Errorf "unsupported auth method %q" [AStr (Config.AuthMethod cfg)])
      /\ (forall t ip t1,
            discoverIP w (Config.IPServices cfg) t = (Ok ip, t1) ->
            Sdk.run w env cfg t
              = (OsExit 1,
                 (t1 ++ [EvLog "detected public IP: %s" [VStr ip]])
                 ++ [EvLog "failed to configure Cloudflare client: %v"
                       [VErr (Errorf "unsupported auth method %q" [AStr (Config.AuthMethod cfg)])]]))
      /\ (forall t, fst (Sdk.run w env cfg t) = OsExit 1
                    /\ sdkCallsIn (snd (Sdk.run w env cfg t)) = sdkCallsIn t))
  /\ (forall env0 t cfg0 t',
        loadConfig env0 t = (Ok cfg0, t') ->
        exists client, Sdk.newCloudflareClient env cfg0 = Ok client).
Proof.
  assert (Hok : forall c, Config.AuthMethod c = "token" \/ Config.AuthMethod c = "global" ->
                  exists client, Sdk.newCloudflareClient env c = Ok client).
  { intros c [Hm | Hm]; unfold Sdk.newCloudflareClient; rewrite Hm; cbn; eauto. }
  split; [| split].
  - split; [apply Hok |]. intros [client Hc]. unfold Sdk.newCloudflareClient in Hc.
    destruct (streq (Config.AuthMethod cfg) "token") eqn:Ht; [left; now apply streq_true |].
    destruct (streq (Config.AuthMethod cfg) "global") eqn:Hg; [right; now apply streq_true |].
    discriminate.
  - intros Ht Hg. apply streq_false in Ht, Hg.
    assert (Hc : Sdk.newCloudflareClient env cfg
                 = Err (Errorf "unsupported auth method %q" [AStr (Config.AuthMethod cfg)])).
    { unfold Sdk.newCloudflareClient. now rewrite Ht, Hg. }
    split; [exact Hc |]. split.
    + intros t ip t1 Hd. now rewrite sdk_run_eq, Hd, Hc.
    + intros t. rewrite sdk_run_eq, Hc.
      pose proof (discoverIP_extends w (Config.IPServices cfg) t) as Hd.
      destruct (discoverIP w (Config.IPServices cfg) t) as [[ip | e] t1]; cbn in Hd;
        (split; [reflexivity |]); cbn [snd];
        apply (extends_filter isSdkCall discoveryEvent); try apply discoveryEvent_not_call;
        repeat (apply extends_step; [| exact I]); exact Hd.
  - intros env0 t cfg0 t' Hl. apply Hok. eapply loadConfig_method; eauto.
Qed.

(** X12. In the SDK variant a list call that fails, and a first record that
    is not an A record, end the run: the error of the call, or
    [record type %q is not supported] with the type of the record, is
    logged, the process exits with status 1, and no update call was made. *)
Theorem sdk_fetch_failures `{Library} (w : World) (env : gmap string string)
    (cfg : Config) (t t1 : trace) (ip : string)
    (client : cloudflare.Client) :
  discoverIP w (Config.IPServices cfg) t = (Ok ip, t1) ->
  Sdk.newCloudflareClient env cfg = Ok client ->
  (forall e,
     recordsList w (t1 ++ [EvLog "detected public IP: %s" [VStr ip]]) client (Sdk.listParams cfg)
       = Err e ->
     Sdk.run w env cfg t
       = (OsExit 1,
          ((t1 ++ [EvLog "detected public IP: %s" [VStr ip]])
           ++ [EvList client (Sdk.listParams cfg)])
          ++ [EvLog "failed to fetch DNS record: %v" [VErr e]])
     /\ updatesIn (snd (Sdk.run w env cfg t)) = updatesIn t)
  /\ (forall record rest,
        recordsList w (t1 ++ [EvLog "detected public IP: %s" [VStr ip]]) client (Sdk.listParams cfg)
          = Ok (record :: rest) ->
        cloudflare.AsUnion record = cloudflare.UnionOther ->
        Sdk.run w env cfg t
          = (OsExit 1,
             ((t1 ++ [EvLog "detected public IP: %s" [VStr ip]])
              ++ [EvList client (Sdk.listParams cfg)])
             ++ [EvLog "unexpected DNS record content: %v"
                   [VErr (Errorf "record type %q is not supported"
                            [AStr (cloudflare.RecType record)])]])
        /\ updatesIn (snd (Sdk.run w env cfg t)) = updatesIn t).
Proof.
  intros Hd Hc.
  pose proof (discoverIP_extends w (Config.IPServices cfg) t) as Hd'. rewrite Hd in Hd'. cbn in Hd'.
  assert (Hupd : forall f a,
            updatesIn (((t1 ++ [EvLog "detected public IP: %s" [VStr ip]])
                        ++ [EvList client (Sdk.listParams cfg)]) ++ [EvLog f a]) = updatesIn t).
  { intros f a. rewrite !updatesIn_app. cbn. rewrite !app_nil_r.
    apply (extends_updatesIn discoveryEvent); [apply discoveryEvent_not_update | exact Hd']. }
  split.
  - intros e Hl. rewrite sdk_run_eq, Hd, Hc, sdk_fetchDNSRecord_eq, Hl.
    split; [reflexivity | apply Hupd].
  - intros record rest Hl Hu. rewrite sdk_run_eq, Hd, Hc, sdk_fetchDNSRecord_eq, Hl.
    unfold Sdk.extractARecordIP. rewrite Hu. split; [reflexivity | apply Hupd].
Qed.

(** A zone whose record of that name is a CNAME record. *)
Lemma sdk_fetch_failures_witness :
  fst (Sdk.run (H := exampleLibrary)
         (exampleWorld "198.51.100.3" 200 "200 OK" "none"
            [{| cloudflare.RecID := "record-id"; cloudflare.RecType := "CNAME";
                cloudflare.RecName := "example.com"; cloudflare.AsUnion := cloudflare.UnionOther |}]) ∅
         (exampleConfig "token" "" 120) [])
  = OsExit 1.
Proof.
  exact (f_equal fst (proj1 (proj2 (sdk_fetch_failures (H := exampleLibrary)
    (exampleWorld "198.51.100.3" 200 "200 OK" "none"
       [{| cloudflare.RecID := "record-id"; cloudflare.RecType := "CNAME";
           cloudflare.RecName := "example.com"; cloudflare.AsUnion := cloudflare.UnionOther |}]) ∅
    (exampleConfig "token" "" 120) [] _ "198.51.100.3" _ eq_refl eq_refl)
    _ [] eq_refl eq_refl))).
Defined.

(** X13. With an environment that breaks a rule of the configuration, [main]
    of either variant logs [configuration error: %v] with the error of
    [loadConfig] and exits with status 1; it has sent no request and made no
    call of the SDK: all it added to the trace is log lines. *)
Theorem main_invalid_env `{Library} (w : World) (env : gmap string string) (t : trace) :
  InvalidEnv env ->
  exists e,
    fst (loadConfig env t) = Err e
    /\ Raw.main w env t
         = (OsExit 1, snd (loadConfig env t) ++ [EvLog "configuration error: %v" [VErr e]])
    /\ Sdk.main w env t
         = (OsExit 1, snd (loadConfig env t) ++ [EvLog "configuration error: %v" [VErr e]])
    /\ extends isLog t (snd (Raw.main w env t))
    /\ requestsOf (snd (Raw.main w env t)) = requestsOf t
    /\ sdkCallsIn (snd (Sdk.main w env t)) = sdkCallsIn t.
Proof.
  intros Hbad. destruct (loadConfig_invalid env t Hbad) as [e He]. exists e.
  split; [exact He |].
  pose proof (loadConfig_extends env t) as Hl.
  assert (Hraw : Raw.main w env t
           = (OsExit 1, snd (loadConfig env t) ++ [EvLog "configuration error: %v" [VErr e]])).
  { unfold Raw.main, bind, Fatalf, Printf, emit, ret, bind.
    destruct (loadConfig env t) as [[cfg | e'] t1]; cbn in He; [discriminate |].
    inversion He; subst. reflexivity. }
  assert (Hsdk : Sdk.main w env t
           = (OsExit 1, snd (loadConfig env t) ++ [EvLog "configuration error: %v" [VErr e]])).
  { unfold Sdk.main, bind, Fatalf, Printf, emit, ret, bind.
    destruct (loadConfig env t) as [[cfg | e'] t1]; cbn in He; [discriminate |].
    inversion He; subst. reflexivity. }
  assert (Hext : extends isLog t
            (snd (loadConfig env t) ++ [EvLog "configuration error: %v" [VErr e]])).
  { apply extends_step; [exact Hl | exact I]. }
  split; [exact Hraw |]. split; [exact Hsdk |]. rewrite Hraw, Hsdk. cbn [snd].
  split; [exact Hext |]. split.
  - now apply extends_isLog_requestsOf.
  - apply (extends_filter isSdkCall isLog); [apply isLog_not_call | exact Hext].
Qed.

(** The environment of the repository's test: no key. *)
Lemma main_invalid_env_witness :
  exists e,
    fst (loadConfig (H := exampleLibrary) (<["CF_ZONE_ID" := "zone"]> ∅) []) = Err e
    /\ Raw.main (H := exampleLibrary) (exampleWorld "" 200 "" "" []) (<["CF_ZONE_ID" := "zone"]> ∅) []
         = (OsExit 1,
            snd (loadConfig (H := exampleLibrary) (<["CF_ZONE_ID" := "zone"]> ∅) [])
            ++ [EvLog "configuration error: %v" [VErr e]]).
Proof.
  assert (Hbad : InvalidEnv (H := exampleLibrary) (<["CF_ZONE_ID" := "zone"]> ∅)).
  { do 2 right; left. reflexivity. }
  destruct (main_invalid_env (H := exampleLibrary) (exampleWorld "" 200 "" "" [])
              (<["CF_ZONE_ID" := "zone"]> ∅) [] Hbad) as (e & He & Hraw & _).
  exists e. split; [exact He | exact Hraw].
Defined.

(** X14. When every service fails, the run of either variant logs
    [failed to determine public IP: %v] with the aggregate error and exits
    with status 1 before it turns to the provider: its requests went to
    services of the list only, and it made no call of the SDK and no
    update. *)
Theorem run_discovery_failure `{Library} (w : World) (env : gmap string string)
    (cfg : Config) (t t' : trace) :
  AllFail w (Config.IPServices cfg) t t' ->
  Raw.run w cfg t
    = (OsExit 1, t' ++ [EvLog "failed to determine public IP: %v" [VErr errDiscover]])
  /\ Sdk.run w env cfg t
       = (OsExit 1, t' ++ [EvLog "failed to determine public IP: %v" [VErr errDiscover]])
  /\ (exists d,
        t' = t ++ d
        /\ sublist (requestsOf (d ++ [EvLog "failed to determine public IP: %v" [VErr errDiscover]]))
             (getRequest <$> Config.IPServices cfg)
        /\ updatesIn (d ++ [EvLog "failed to determine public IP: %v" [VErr errDiscover]]) = []
        /\ sdkCallsIn (d ++ [EvLog "failed to determine public IP: %v" [VErr errDiscover]]) = []).
Proof.
  intros Hall. pose proof (discoverIP_AllFail w _ _ _ Hall) as Hd.
  split; [now rewrite run_eq, Hd |]. split; [now rewrite sdk_run_eq, Hd |].
  destruct (AllFail_trace w _ _ _ Hall) as (d & -> & Hs & Hu).
  exists d. split; [reflexivity |].
  rewrite requestsOf_app, updatesIn_app, Hu. cbn. rewrite app_nil_r.
  split; [exact Hs |]. split; [reflexivity |].
  pose proof (discoverIP_extends w (Config.IPServices cfg) t) as He. rewrite Hd in He. cbn in He.
  destruct He as (d' & Heq & Hall'). apply app_inv_head in Heq. subst d'.
  unfold sdkCallsIn. rewrite List.filter_app. cbn. rewrite app_nil_r.
  clear -Hall'. induction Hall' as [|e d He _ IH]; [reflexivity |].
  cbn. now rewrite (discoveryEvent_not_call e He).
Qed.

(** Two services, none of which gives an address. *)
Lemma run_discovery_failure_witness :
  Sdk.run (H := exampleLibrary) (exampleWorld "198.51.100.3" 200 "200 OK" "none" []) ∅
    (Config.mk "" "token" "secret" "zone-id" "example.com" "A" 120 true
       ["http://invalid.test"; "http://bad-ip.test"]) []
  = (OsExit 1,
     [EvDo (getRequest "http://invalid.test");
      EvLog "invalid IP %q from %s" [VStr ""; VStr "http://invalid.test"];
      EvDo (getRequest "http://bad-ip.test");
      EvLog "invalid IP %q from %s" [VStr "not-an-ip"; VStr "http://bad-ip.test"]]
     ++ [EvLog "failed to determine public IP: %v" [VErr errDiscover]]).
Proof.
  refine (proj1 (proj2 (run_discovery_failure (H := exampleLibrary)
            (exampleWorld "198.51.100.3" 200 "200 OK" "none" []) ∅
            (Config.mk "" "token" "secret" "zone-id" "example.com" "A" 120 true
               ["http://invalid.test"; "http://bad-ip.test"]) [] _ _))).
  eapply AllFail_cons.
  { eapply (fails_parse _ _ _ _ ""); reflexivity. }
  eapply AllFail_cons.
  { eapply (fails_parse _ _ _ _ "not-an-ip"); reflexivity. }
  apply AllFail_nil.
Defined.

(** ** Whole runs *)

Section WholeRuns.
Context `{Library}.
Variable w : World.
Variable env : gmap string string.

Lemma isUpdate_listRequest cfg : isUpdate (EvDo (Raw.listRequest cfg)) = false.
Proof. cbn. destruct (listRequest_get cfg) as (-> & _). reflexivity. Qed.

Lemma sdkCallsIn_discovery d : Forall discoveryEvent d -> sdkCallsIn d = [].
Proof.
  induction 1 as [|e d He _ IH]; [reflexivity |].
  unfold sdkCallsIn in *. cbn. now rewrite (discoveryEvent_not_call e He).
Qed.

Lemma sdkCallsIn_app t1 t2 : sdkCallsIn (t1 ++ t2) = sdkCallsIn t1 ++ sdkCallsIn t2.
Proof. unfold sdkCallsIn. apply List.filter_app. Qed.

(** The traffic of a run of the raw variant: the requests of the search,
    then at most the fetch and the update. *)
Lemma raw_run_traffic cfg t :
  exists d, snd (Raw.run w cfg t) = t ++ d
    /\ (length (requestsOf d) <= length (Config.IPServices cfg) + 2)%nat
    /\ (length (updatesIn d) <= 1)%nat.
Proof.
  rewrite run_eq.
  destruct (discoverIP_trace w (Config.IPServices cfg) t) as (d0 & Hd0 & Hs & Hu & _).
  apply sublist_length in Hs. rewrite length_fmap in Hs.
  destruct (discoverIP w (Config.IPServices cfg) t) as [[ip | e] t1]; cbn [snd] in Hd0; subst t1.
  2:{ eexists. rewrite <- app_assoc. split; [reflexivity |].
      rewrite requestsOf_app, updatesIn_app, !length_app, Hu. cbn. lia. }
  rewrite fetchDNSRecord_eq.
  destruct (urlParse (Raw.listEndpoint cfg)).
  { eexists. rewrite <- !app_assoc. split; [reflexivity |].
    rewrite requestsOf_app, updatesIn_app, !length_app, Hu. cbn. lia. }
  destruct (fetchOutcome cfg _) as [record | e].
  2:{ eexists. rewrite <- !app_assoc. split; [reflexivity |].
      rewrite requestsOf_app, updatesIn_app, !length_app, Hu.
      unfold updatesIn. cbn [app List.filter]. rewrite isUpdate_listRequest. cbn. lia. }
  destruct (streq (DNSRecord.Content record) ip).
  { eexists. rewrite <- !app_assoc. split; [reflexivity |].
    rewrite requestsOf_app, updatesIn_app, !length_app, Hu.
    unfold updatesIn. cbn [app List.filter]. rewrite isUpdate_listRequest. cbn. lia. }
  rewrite updateDNSRecord_eq.
  destruct (urlParse (Raw.recordEndpoint cfg (DNSRecord.ID record))).
  { eexists. rewrite <- !app_assoc. split; [reflexivity |].
    rewrite requestsOf_app, updatesIn_app, !length_app, Hu.
    unfold updatesIn. cbn [app List.filter]. rewrite isUpdate_listRequest. cbn. lia. }
  destruct (updateOutcome _) as [[] | e];
    (eexists; rewrite <- !app_assoc; split; [reflexivity |];
     rewrite requestsOf_app, updatesIn_app, !length_app, Hu;
     unfold updatesIn; cbn [app List.filter];
     rewrite isUpdate_listRequest, isUpdate_updateRequest; cbn; lia).
Qed.

(** The traffic of a run of the SDK variant: the requests of the search,
    then at most the list call and the update call. *)
Lemma sdk_run_traffic cfg t :
  exists d, snd (Sdk.run w env cfg t) = t ++ d
    /\ (length (requestsOf d) <= length (Config.IPServices cfg))%nat
    /\ (length (sdkCallsIn d) <= 2)%nat
    /\ (length (updatesIn d) <= 1)%nat.
Proof.
  rewrite sdk_run_eq.
  destruct (discoverIP_trace w (Config.IPServices cfg) t) as (d0 & Hd0 & Hs & Hu & Hall).
  apply sublist_length in Hs. rewrite length_fmap in Hs.
  pose proof (sdkCallsIn_discovery _ Hall) as Hc.
  destruct (discoverIP w (Config.IPServices cfg) t) as [[ip | e] t1]; cbn [snd] in Hd0; subst t1.
  2:{ eexists. rewrite <- app_assoc. split; [reflexivity |].
      rewrite requestsOf_app, updatesIn_app, sdkCallsIn_app, !length_app, Hu, Hc. cbn. lia. }
  destruct (Sdk.newCloudflareClient env cfg) as [client | e].
  2:{ eexists. rewrite <- !app_assoc. split; [reflexivity |].
      rewrite requestsOf_app, updatesIn_app, sdkCallsIn_app, !length_app, Hu, Hc. cbn. lia. }
  rewrite sdk_fetchDNSRecord_eq.
  destruct (recordsList w _ client (Sdk.listParams cfg)) as [[|record page] | e];
    try (eexists; rewrite <- !app_assoc; split; [reflexivity |];
         rewrite requestsOf_app, updatesIn_app, sdkCallsIn_app, !length_app, Hu, Hc; cbn; lia).
  destruct (Sdk.extractARecordIP record) as [currentIP | e];
    try (eexists; rewrite <- !app_assoc; split; [reflexivity |];
         rewrite requestsOf_app, updatesIn_app, sdkCallsIn_app, !length_app, Hu, Hc; cbn; lia).
  destruct (streq currentIP ip);
    try (eexists; rewrite <- !app_assoc; split; [reflexivity |];
         rewrite requestsOf_app, updatesIn_app, sdkCallsIn_app, !length_app, Hu, Hc; cbn; lia).
  rewrite sdk_updateDNSRecord_eq.
  destruct (recordsUpdate w _ client _ _);
    (eexists; rewrite <- !app_assoc; split; [reflexivity |];
     rewrite requestsOf_app, updatesIn_app, sdkCallsIn_app, !length_app, Hu, Hc; cbn; lia).
Qed.

Lemma raw_run_outcome cfg t : outcomeLogged (Raw.run w cfg t).
Proof.
  rewrite run_eq. unfold outcomeLogged.
  destruct (discoverIP w (Config.IPServices cfg) t) as [[ip | e] t1].
  2:{ eexists _, _. split; [apply last_snoc |]. right. split; [reflexivity |].
      apply list_elem_of_In. cbn. auto 10. }
  destruct (Raw.fetchDNSRecord w cfg _) as [[record | e] t3].
  2:{ eexists _, _. split; [apply last_snoc |]. right. split; [reflexivity |].
      apply list_elem_of_In. cbn. auto 10. }
  destruct (streq (DNSRecord.Content record) ip).
  { eexists _, _. split; [apply last_snoc |]. left. split; [reflexivity |].
    apply list_elem_of_In. cbn. auto 10. }
  destruct (Raw.updateDNSRecord w cfg _ ip t3) as [[[] | e] t4].
  - eexists _, _. split; [apply last_snoc |]. left. split; [reflexivity |].
    apply list_elem_of_In. cbn. auto 10.
  - eexists _, _. split; [apply last_snoc |]. right. split; [reflexivity |].
    apply list_elem_of_In. cbn. auto 10.
Qed.

Lemma sdk_run_outcome cfg t : outcomeLogged (Sdk.run w env cfg t).
Proof.
  rewrite sdk_run_eq. unfold outcomeLogged.
  destruct (discoverIP w (Config.IPServices cfg) t) as [[ip | e] t1].
  2:{ eexists _, _. split; [apply last_snoc |]. right. split; [reflexivity |].
      apply list_elem_of_In. cbn. auto 10. }
  destruct (Sdk.newCloudflareClient env cfg) as [client | e].
  2:{ eexists _, _. split; [apply last_snoc |]. right. split; [reflexivity |].
      apply list_elem_of_In. cbn. auto 10. }
  destruct (Sdk.fetchDNSRecord w client cfg _) as [[record | e] t3].
  2:{ eexists _, _. split; [apply last_snoc |]. right. split; [reflexivity |].
      apply list_elem_of_In. cbn. auto 10. }
  destruct (Sdk.extractARecordIP record) as [currentIP | e].
  2:{ eexists _, _. split; [apply last_snoc |]. right. split; [reflexivity |].
      apply list_elem_of_In. cbn. auto 10. }
  destruct (streq currentIP ip).
  { eexists _, _. split; [apply last_snoc |]. left. split; [reflexivity |].
    apply list_elem_of_In. cbn. auto 10. }
  destruct (Sdk.updateDNSRecord w client cfg _ ip t3) as [[[] | e] t4].
  - eexists _, _. split; [apply last_snoc |]. left. split; [reflexivity |].
    apply list_elem_of_In. cbn. auto 10.
  - eexists _, _. split; [apply last_snoc |]. right. split; [reflexivity |].
    apply list_elem_of_In. cbn. auto 10.
Qed.

End WholeRuns.

(** X15. No step of a run is tried twice.  Whatever the services and the
    provider answer, a run of the raw variant sends at most one request per
    service and two more (the fetch and the update), a run of the SDK variant
    sends at most one request per service and makes at most two calls of
    the SDK; and either makes at most one update. *)
Theorem run_no_retry `{Library} (w : World) (env : gmap string string) (cfg : Config) (t : trace) :
  (exists d, snd (Raw.run w cfg t) = t ++ d
     /\ (length (requestsOf d) <= length (Config.IPServices cfg) + 2)%nat
     /\ (length (updatesIn d) <= 1)%nat)
  /\ (exists d, snd (Sdk.run w env cfg t) = t ++ d
        /\ (length (requestsOf d) <= length (Config.IPServices cfg))%nat
        /\ (length (sdkCallsIn d) <= 2)%nat
        /\ (length (updatesIn d) <= 1)%nat).
Proof. split; [apply raw_run_traffic | apply sdk_run_traffic]. Qed.

(** X16. Every run ends on a log line that tells its outcome, and the exit
    status agrees with it: [main] of either variant returns after
    [already up to date] or [successfully updated], and otherwise exits with
    status 1 after one of the six failure lines; there is no other exit
    status and no silent end. *)
Theorem main_outcome_logged `{Library} (w : World) (env : gmap string string) (cfg : Config)
    (t : trace) :
  outcomeLogged (Raw.run w cfg t) /\ outcomeLogged (Sdk.run w env cfg t)
  /\ outcomeLogged (Raw.main w env t) /\ outcomeLogged (Sdk.main w env t).
Proof.
  split; [apply raw_run_outcome |]. split; [apply sdk_run_outcome |]. split.
  - unfold Raw.main, bind, Fatalf, Printf, emit, ret, bind.
    destruct (loadConfig env t) as [[cfg0 | e] t1]; [apply raw_run_outcome |].
    eexists _, _. split; [apply last_snoc |]. right. split; [reflexivity |].
    apply list_elem_of_In. cbn. auto 10.
  - unfold Sdk.main, bind, Fatalf, Printf, emit, ret, bind.
    destruct (loadConfig env t) as [[cfg0 | e] t1]; [apply sdk_run_outcome |].
    eexists _, _. split; [apply last_snoc |]. right. split; [reflexivity |].
    apply list_elem_of_In. cbn. auto 10.
Qed.

(** ** One run after another *)

Section Convergence.
Context `{Library}.
Variable w : World.
Variable env : gmap string string.

Lemma lastWritten_app t d :
  Forall (fun e => writtenBy e = None) d -> lastWritten (t ++ d) = lastWritten t.
Proof.
  intros Hd. unfold lastWritten. rewrite omap_app.
  assert (Hnil : omap writtenBy d = []).
  { induction Hd as [|e d He _ IH]; [reflexivity |]. cbn. now rewrite He. }
  now rewrite Hnil, app_nil_r.
Qed.

Lemma lastWritten_update t client recordID params :
  lastWritten (t ++ [EvUpdate client recordID params])
    = Some (cloudflare.ParamContent (cloudflare.UpdateRecord params)).
Proof. unfold lastWritten. rewrite omap_app. cbn. apply last_snoc. Qed.

Lemma discoveryEvent_writes_nothing e : discoveryEvent e -> writtenBy e = None.
Proof. destruct e; cbn; tauto. Qed.

Lemma lastWritten_log t format args : lastWritten (t ++ [EvLog format args]) = lastWritten t.
Proof. apply lastWritten_app. repeat constructor. Qed.

Lemma lastWritten_list t client params : lastWritten (t ++ [EvList client params]) = lastWritten t.
Proof. apply lastWritten_app. repeat constructor. Qed.

(** The search for the address writes nothing. *)
Lemma lastWritten_discoverIP services t r t' :
  discoverIP w services t = (r, t') -> lastWritten t' = lastWritten t.
Proof.
  intros Hd. destruct (discoverIP_extends w services t) as (d & Heq & Hall).
  rewrite Hd in Heq. cbn in Heq. subst t'. apply lastWritten_app.
  eapply Forall_impl; [exact Hall | apply discoveryEvent_writes_nothing].
Qed.

(** A run that returns leaves the provider with the discovered address, if
    the provider keeps what it is given. *)
Lemma sdk_run_leaves cfg initial t ip ta t1 :
  Stores w initial ->
  discoverIP w (Config.IPServices cfg) t = (Ok ip, ta) ->
  Sdk.run w env cfg t = (Returned, t1) ->
  GoStrings.TrimSpace (default initial (lastWritten t1)) = ip.
Proof.
  intros Hst Hd Hrun.
  destruct (discoverIP_Ok_dotted w _ _ _ _ Hd) as (a & b & c & d & Hip).
  pose proof (lastWritten_discoverIP _ _ _ _ Hd) as Hta.
  rewrite sdk_run_eq, Hd in Hrun.
  destruct (Sdk.newCloudflareClient env cfg) as [client | e]; [| discriminate].
  rewrite sdk_fetchDNSRecord_eq in Hrun.
  destruct (Hst (ta ++ [EvLog "detected public IP: %s" [VStr ip]]) client (Sdk.listParams cfg))
    as (record & rest & Hl & Hu).
  rewrite Hl in Hrun. unfold Sdk.extractARecordIP in Hrun. rewrite Hu in Hrun.
  cbn [cloudflare.ARecordContent] in Hrun. rewrite lastWritten_log, Hta in Hrun.
  destruct (streq (GoStrings.TrimSpace (default initial (lastWritten t))) ip) eqn:Heq.
  - inversion Hrun; subst t1. rewrite lastWritten_log, lastWritten_list, lastWritten_log, Hta.
    now apply streq_true.
  - rewrite sdk_updateDNSRecord_eq in Hrun.
    destruct (recordsUpdate w _ client _ _); [discriminate |].
    inversion Hrun; subst t1. rewrite lastWritten_log, lastWritten_update. cbn.
    rewrite Hip. apply TrimSpace_dotted.
Qed.

(** A run that finds the provider with the discovered address is a no-op. *)
Lemma sdk_run_settled cfg initial t ip ta :
  Stores w initial ->
  (exists client, Sdk.newCloudflareClient env cfg = Ok client) ->
  discoverIP w (Config.IPServices cfg) t = (Ok ip, ta) ->
  GoStrings.TrimSpace (default initial (lastWritten t)) = ip ->
  fst (Sdk.run w env cfg t) = Returned
  /\ updatesIn (snd (Sdk.run w env cfg t)) = updatesIn t
  /\ exists name,
       last (snd (Sdk.run w env cfg t))
         = Some (EvLog "Cloudflare record %s already up to date" [VStr name]).
Proof.
  intros Hst [client Hc] Hd Heq.
  pose proof (lastWritten_discoverIP _ _ _ _ Hd) as Hta.
  destruct (Hst (ta ++ [EvLog "detected public IP: %s" [VStr ip]]) client (Sdk.listParams cfg))
    as (record & rest & Hl & Hu).
  assert (Hf : Sdk.fetchDNSRecord w client cfg (ta ++ [EvLog "detected public IP: %s" [VStr ip]])
               = (Ok record, (ta ++ [EvLog "detected public IP: %s" [VStr ip]])
                              ++ [EvList client (Sdk.listParams cfg)])).
  { now rewrite sdk_fetchDNSRecord_eq, Hl. }
  assert (He : Sdk.extractARecordIP record = Ok ip).
  { unfold Sdk.extractARecordIP. rewrite Hu. cbn [cloudflare.ARecordContent].
    now rewrite lastWritten_log, Hta, Heq. }
  destruct (sdk_compare w env cfg t ip ta client record ip _ Hd Hc Hf He) as [Hsame _].
  destruct (Hsame eq_refl) as [Hrun Hupd].
  split; [now rewrite Hrun |]. split; [exact Hupd |].
  exists (cloudflare.RecName record). rewrite Hrun. apply last_snoc.
Qed.

End Convergence.

(** X17. Runs of the SDK variant settle.  Against a provider that keeps what
    it is given (its list call answers with the content of the last update
    call, or with the initial content before any), a run that returned is
    followed, as long as the search gives the same address, by a run that is
    a no-op: it returns after [already up to date] and makes no update
    call. *)
Theorem sdk_second_run_noop `{Library} (w : World) (env : gmap string string)
    (cfg : Config) (initial ip : string)
    (t ta t1 tb : trace) :
  Stores w initial ->
  discoverIP w (Config.IPServices cfg) t = (Ok ip, ta) ->
  Sdk.run w env cfg t = (Returned, t1) ->
  discoverIP w (Config.IPServices cfg) t1 = (Ok ip, tb) ->
  fst (Sdk.run w env cfg t1) = Returned
  /\ updatesIn (snd (Sdk.run w env cfg t1)) = updatesIn t1
  /\ exists name,
       last (snd (Sdk.run w env cfg t1))
         = Some (EvLog "Cloudflare record %s already up to date" [VStr name]).
Proof.
  intros Hst Hd Hrun Hd'.
  apply (sdk_run_settled w env cfg initial t1 ip tb Hst); [| exact Hd' |].
  - rewrite sdk_run_eq, Hd in Hrun.
    destruct (Sdk.newCloudflareClient env cfg) as [client | e]; [eauto | discriminate].
  - exact (sdk_run_leaves w env cfg initial t ip ta t1 Hst Hd Hrun).
Qed.

(** A first run that updates the record from 198.51.100.2 to 198.51.100.3,
    and the run after it. *)
Lemma sdk_second_run_noop_witness :
  updatesIn (snd (Sdk.run (H := exampleLibrary) (storingWorld "198.51.100.3" "198.51.100.2") ∅
                    (exampleConfig "token" "" 120) []))
    = [EvUpdate [cloudflare.WithEnvironmentProduction;
                 cloudflare.WithHTTPClient; cloudflare.WithAPIToken "secret"] "record-id"
         (Sdk.updateParams (exampleConfig "token" "" 120) "198.51.100.3")]
  /\ fst (Sdk.run (H := exampleLibrary) (storingWorld "198.51.100.3" "198.51.100.2") ∅
            (exampleConfig "token" "" 120)
            (snd (Sdk.run (H := exampleLibrary) (storingWorld "198.51.100.3" "198.51.100.2") ∅
                    (exampleConfig "token" "" 120) [])))
     = Returned.
Proof.
  split; [reflexivity |].
  refine (proj1 (sdk_second_run_noop (H := exampleLibrary)
            (storingWorld "198.51.100.3" "198.51.100.2") ∅ (exampleConfig "token" "" 120)
            "198.51.100.2" "198.51.100.3" [] _
            (snd (Sdk.run (H := exampleLibrary) (storingWorld "198.51.100.3" "198.51.100.2") ∅
                    (exampleConfig "token" "" 120) []))
            _ _ eq_refl eq_refl eq_refl)).
  intros t client params. eexists _, _. split; reflexivity.
Defined.
